(** * Build-and-deploy helpers for Lingua Franca federates

    A shallow embedding of the two scripts of the workspace,
    [py/build-saclay.py] and [py/lf-build.py], and the properties of
    their discovery, classification, staging and transfer steps.

    Conventions of the embedding:
    - a [pathlib.Path] is the list of its components; the file system
      is a finite map from such lists, read from the root, to nodes, and
      the working directory, the home directory and the project root are
      given that way; the operating system's resolution of [.] and [..]
      and an absolute source argument (a list that starts with [/]) are
      outside the embedding, and a statement that depends on their
      absence says so ([plain], [relative]);
    - an f-string is the list of its literal and interpolated pieces;
    - a Python exception is a value of [exn]; a function that may raise
      returns [exn + A];
    - code that touches the file system or starts a process runs in the
      monad [M] over a [World] (file system and log of [subprocess.run]
      calls); the external programs themselves are an oracle [exec];
    - [print] and [log] calls only write to the terminal and are left out;
    - strings are byte strings, and [str.lower] is modelled on ASCII. *)

From stdpp Require Import base gmap list strings sorting.
From Stdlib Require Import ZArith Ascii.

Local Open Scope string_scope.
Local Open Scope list_scope.

(** ** Python strings *)

Definition lower_ascii (c : ascii) : ascii :=
  let n := nat_of_ascii c in
  if (65 <=? n)%nat && (n <=? 90)%nat then ascii_of_nat (n + 32) else c.

(** [str.lower] *)
Fixpoint lower (s : string) : string :=
  match s with
  | EmptyString => EmptyString
  | String c s' => String (lower_ascii c) (lower s')
  end.

(** [sub in s] *)
Fixpoint str_in (sub s : string) : bool :=
  String.prefix sub s ||
  match s with
  | EmptyString => false
  | String _ s' => str_in sub s'
  end.

(** [ch in s] for a single character *)
Fixpoint has_char (ch : ascii) (s : string) : bool :=
  match s with
  | EmptyString => false
  | String c s' => bool_decide (c = ch) || has_char ch s'
  end.

(** [s.endswith(suf)] *)
Fixpoint endswith (suf s : string) : bool :=
  bool_decide (s = suf) ||
  match s with
  | EmptyString => false
  | String _ s' => endswith suf s'
  end.

(** [s.rfind(ch)], [None] for -1 *)
Fixpoint rfind (ch : ascii) (s : string) : option nat :=
  match s with
  | EmptyString => None
  | String c s' =>
      match rfind ch s' with
      | Some i => Some (S i)
      | None => if bool_decide (c = ch) then Some 0 else None
      end
  end.

Definition nl : string := String (ascii_of_nat 10) EmptyString.

(** The byte [c] lies between [lo] and [hi]. *)
Definition in_range (lo hi : nat) (c : ascii) : bool :=
  (lo <=? nat_of_ascii c)%nat && (nat_of_ascii c <=? hi)%nat.

(** The bytes are well-formed UTF-8, as the strict decoder of Python has
    it: no stray or missing continuation byte, no overlong form, no
    surrogate, nothing above U+10FFFF. *)
Fixpoint utf8_valid (s : string) : bool :=
  match s with
  | EmptyString => true
  | String c1 s1 =>
      if in_range 0 127 c1 then utf8_valid s1
      else
        match s1 with
        | EmptyString => false
        | String c2 s2 =>
            if in_range 194 223 c1 then in_range 128 191 c2 && utf8_valid s2
            else
              match s2 with
              | EmptyString => false
              | String c3 s3 =>
                  if in_range 224 239 c1 then
                    (if in_range 224 224 c1 then in_range 160 191 c2
                     else if in_range 237 237 c1 then in_range 128 159 c2
                     else in_range 128 191 c2)
                    && in_range 128 191 c3 && utf8_valid s3
                  else
                    match s3 with
                    | EmptyString => false
                    | String c4 s4 =>
                        if in_range 240 244 c1 then
                          (if in_range 240 240 c1 then in_range 144 191 c2
                           else if in_range 244 244 c1 then in_range 128 143 c2
                           else in_range 128 191 c2)
                          && in_range 128 191 c3 && in_range 128 191 c4
                          && utf8_valid s4
                        else false
                    end
              end
        end
  end.

(** ** pathlib *)

Abbreviation Path := (list string).

(** [p / s] *)
Definition child (p : Path) (s : string) : Path := p ++ [s].
Notation "p // s" := (child p s) (at level 40, left associativity).

(** [p.name] *)
Definition name (p : Path) : string := List.last p EmptyString.

(** [p.parent] *)
Definition parent (p : Path) : Path := take (length p - 1) p.

(** [p.suffix] *)
Definition suffix (p : Path) : string :=
  let nm := name p in
  match rfind "." nm with
  | Some i =>
      if (0 <? i)%nat && (i <? String.length nm - 1)%nat
      then String.substring i (String.length nm - i) nm
      else EmptyString
  | None => EmptyString
  end.

(** [p.stem] *)
Definition stem (p : Path) : string :=
  let nm := name p in
  match rfind "." nm with
  | Some i =>
      if (0 <? i)%nat && (i <? String.length nm - 1)%nat
      then String.substring 0 i nm
      else nm
  | None => nm
  end.

(** No component of [p] is [.] or [..]: [p] names the entry it spells,
    with nothing left for the operating system to resolve. *)
Definition plain (p : Path) : Prop := ("." ∉ p) ∧ (".." ∉ p).

(** [p] is not absolute: none of its components is a root ([/]). *)
Definition relative (p : Path) : Prop :=
  Forall (λ s, has_char "/" s = false) p.

(** [p < q] on paths: the comparison of the tuples of components, each
    component compared as a string. *)
Fixpoint path_lt (p q : Path) : bool :=
  match p, q with
  | _, [] => false
  | [], _ :: _ => true
  | x :: p', y :: q' =>
      if decide (x = y) then path_lt p' q' else String.ltb x y
  end.

(** The order [sorted] places its elements in: [p] may stay before [q]
    unless [q < p]. *)
Definition path_le (p q : Path) : Prop := path_lt q p = false.

Global Instance path_le_dec : RelDecision path_le.
Proof. intros p q. unfold path_le. apply _. Defined.

(** [sorted(paths)]: a stable merge sort that only asks [<]. *)
Definition sorted (l : list Path) : list Path := merge_sort path_le l.

(** ** f-strings and exceptions *)

Inductive piece :=
| Lit (s : string)
| PathV (p : Path)
| StrV (s : string)
| NatV (n : nat).

Inductive exn_class :=
| FileNotFoundError
| NotADirectoryError
| IsADirectoryError
| FileExistsError
| SameFileError
| KeyError
| RuntimeError
| LFBuildError
| AttributeError
| UnicodeDecodeError.

Inductive exn :=
| Exn (cls : exn_class) (msg : list piece)
| CalledProcessError (returncode : Z) (cmd : list piece)
                     (output stderr : option string).

Global Instance piece_eq_dec : EqDecision piece.
Proof. solve_decision. Defined.
Global Instance exn_class_eq_dec : EqDecision exn_class.
Proof. solve_decision. Defined.
Global Instance exn_eq_dec : EqDecision exn.
Proof. solve_decision. Defined.

(** [b.decode()]: a string of the embedding holds the bytes of the UTF-8
    encoding of a text, so decoding well-formed bytes changes nothing. *)
Definition decode (b : string) : exn + string :=
  if utf8_valid b then inr b else inl (Exn UnicodeDecodeError [StrV b]).

(** ** The file system *)

Inductive node :=
| File (data : string)
| Dir.

Global Instance node_eq_dec : EqDecision node.
Proof. solve_decision. Defined.

Abbreviation FS := (gmap Path node).

(** [p.exists()] *)
Definition path_exists (fs : FS) (p : Path) : bool :=
  match fs !! p with Some _ => true | None => false end.

(** [p.is_dir()] *)
Definition is_dir (fs : FS) (p : Path) : bool :=
  match fs !! p with Some Dir => true | _ => false end.

(** [p.is_file()] *)
Definition is_file (fs : FS) (p : Path) : bool :=
  match fs !! p with Some (File _) => true | _ => false end.

(** [q] is an entry of directory [d]. *)
Definition entry_of (d q : Path) : Prop := parent q = d ∧ q ≠ [].

Global Instance entry_of_dec d q : Decision (entry_of d q).
Proof. unfold entry_of. apply _. Defined.

(** [d.iterdir()]: the entries of [d], in the order the map lists them
    (the operating system promises no order). *)
Definition iterdir (fs : FS) (d : Path) : exn + list Path :=
  match fs !! d with
  | Some Dir => inr (filter (entry_of d) (map_to_list fs).*1)
  | Some (File _) => inl (Exn NotADirectoryError [PathV d])
  | None => inl (Exn FileNotFoundError [PathV d])
  end.

(** The subdirectories of [d], as a set. *)
Definition subdirectories (fs : FS) (d : Path) : gset Path :=
  dom (filter (λ kv, entry_of d kv.1 ∧ kv.2 = Dir) fs).

(** Every path from [d] (included) down to [q] (excluded) is a directory:
    the recursive walk of [**] reaches the directory holding [q]. *)
Definition walk_reaches (fs : FS) (d q : Path) : bool :=
  forallb (λ n, is_dir fs (take n q)) (seq (length d) (length q - length d)).

Definition rglob_match (fs : FS) (d : Path) (nm : string) (q : Path) : bool :=
  bool_decide (d `prefix_of` q) && (length d <? length q)%nat
  && bool_decide (name q = nm) && walk_reaches fs d q.

(** [d.glob("**/" + nm)]: every entry named [nm], of any kind, in [d] or
    in a directory below it. *)
Definition rglob (fs : FS) (d : Path) (nm : string) : list Path :=
  filter (λ q, rglob_match fs d nm q = true) (map_to_list fs).*1.

(** [d.glob("*" + suf)]: the entries of [d] whose name ends with [suf]. *)
Definition glob_suffix (fs : FS) (d : Path) (suf : string) : list Path :=
  if is_dir fs d
  then filter (λ q, entry_of d q ∧ endswith suf (name q) = true)
              (map_to_list fs).*1
  else [].

(** ** The world and its monad *)

Record World := mkWorld {
  fs : FS;
  (** the argument vectors handed to [subprocess.run], oldest first *)
  invocations : list (list piece)
}.

Definition M (A : Type) : Type := World → (exn + A) * World.

Definition ret {A} (a : A) : M A := λ w, (inr a, w).
Definition raise {A} (e : exn) : M A := λ w, (inl e, w).
Definition bind {A B} (m : M A) (k : A → M B) : M B :=
  λ w, match m w with
       | (inr a, w') => k a w'
       | (inl e, w') => (inl e, w')
       end.
(** [try: m except: h] *)
Definition try_except {A} (m : M A) (h : exn → M A) : M A :=
  λ w, match m w with
       | (inr a, w') => (inr a, w')
       | (inl e, w') => h e w'
       end.
(** a function that only reads the file system *)
Definition reading {A} (f : FS → exn + A) : M A := λ w, (f (fs w), w).
Definition asking {A} (f : FS → A) : M A := λ w, (inr (f (fs w)), w).

Global Instance M_ret : MRet M := @ret.
Global Instance M_bind : MBind M := λ A B k m, bind m k.

(** [for x in l: body x] *)
Fixpoint for_each {A} (l : list A) (body : A → M unit) : M unit :=
  match l with
  | [] => ret tt
  | x :: l' => body x ;; for_each l' body
  end.

(** [shutil.rmtree(p)] *)
Definition rmtree (p : Path) : M unit := λ w,
  match fs w !! p with
  | Some Dir =>
      (inr tt,
       mkWorld (filter (λ kv, ¬ p `prefix_of` kv.1) (fs w)) (invocations w))
  | Some (File _) => (inl (Exn NotADirectoryError [PathV p]), w)
  | None => (inl (Exn FileNotFoundError [PathV p]), w)
  end.

(** [[], [a], [a; b], ..., p] *)
Definition prefixes (p : Path) : list Path :=
  (λ n, take n p) <$> seq 0 (S (length p)).

(** Every missing directory on the way to [p], and [p] itself, made. *)
Definition made_dirs (p : Path) (fs : FS) : FS :=
  foldr (λ q m, if path_exists m q then m else <[q := Dir]> m) fs (prefixes p).

(** [p.mkdir(parents=True, exist_ok=True)] *)
Definition mkdir_parents (p : Path) : M unit := λ w,
  if existsb (is_file (fs w)) (prefixes p)
  then (inl (Exn (if is_file (fs w) p then FileExistsError
                  else NotADirectoryError) [PathV p]), w)
  else (inr tt, mkWorld (made_dirs p (fs w)) (invocations w)).

(** [p.mkdir(exist_ok=True)] *)
Definition mkdir_exist_ok (p : Path) : M unit := λ w,
  match fs w !! p with
  | Some Dir => (inr tt, w)
  | Some (File _) => (inl (Exn FileExistsError [PathV p]), w)
  | None =>
      match fs w !! parent p with
      | Some Dir => (inr tt, mkWorld (<[p := Dir]> (fs w)) (invocations w))
      | Some (File _) => (inl (Exn NotADirectoryError [PathV p]), w)
      | None => (inl (Exn FileNotFoundError [PathV p]), w)
      end
  end.

(** [shutil.copy2(src, dst)]: into [dst] when it is a directory, onto it
    otherwise. *)
Definition copy2 (src dst : Path) : M Path := λ w,
  let dst' := if is_dir (fs w) dst then dst // name src else dst in
  match fs w !! src with
  | Some (File data) =>
      if decide (src = dst') then
        (inl (Exn SameFileError [PathV src; PathV dst']), w)
      else if is_dir (fs w) dst' then
        (inl (Exn IsADirectoryError [PathV dst']), w)
      else if negb (is_dir (fs w) (parent dst')) then
        (inl (Exn FileNotFoundError [PathV dst']), w)
      else (inr dst', mkWorld (<[dst' := File data]> (fs w)) (invocations w))
  | Some Dir => (inl (Exn IsADirectoryError [PathV src]), w)
  | None => (inl (Exn FileNotFoundError [PathV src]), w)
  end.

(** ** External programs *)

Inductive proc_result :=
| NoSuchProgram
| Exited (returncode : Z) (out err : string).

Record CompletedProcess := mkCompleted {
  stdout : option string;
  stderr : option string
}.

(** What running an argument vector does to the file system, and how the
    program ends. *)
Abbreviation Exec := (option Path → list piece → FS → proc_result * FS).

(** [subprocess.run(argv, cwd=cwd, check=True, capture_output=capture)] *)
Definition subprocess_run (exec : Exec) (argv : list piece)
    (cwd : option Path) (capture : bool) : M CompletedProcess := λ w,
  let log := invocations w ++ [argv] in
  match exec cwd argv (fs w) with
  | (NoSuchProgram, _) =>
      (inl (Exn FileNotFoundError [Lit "No such file or directory: "] ),
       mkWorld (fs w) log)
  | (Exited rc out err, fs') =>
      let captured (s : string) := if capture then Some s else None in
      if bool_decide (rc = 0%Z)
      then (inr (mkCompleted (captured out) (captured err)), mkWorld fs' log)
      else (inl (CalledProcessError rc argv (captured out) (captured err)),
            mkWorld fs' log)
  end.

(** * py/build-saclay.py *)

Module BuildSaclay.

Definition REMOTE_DEFAULT : string := "zungel@saclay.iot-lab.info:".
Definition DEST_DIR : Path := ["build"; "programs"].

Section Script.

(** [Path.home()] and the external programs. *)
Variable home : Path.
Variable exec : Exec.

Definition run (command : list piece) (cwd : option Path) : M unit :=
  subprocess_run exec command cwd false ;; mret tt.

Definition clear_src_gen (root : Path) : M unit :=
  let src_gen := root // "src-gen" in
  present ← asking (λ fs, path_exists fs src_gen);
  if present : bool then rmtree src_gen else mret tt.

Definition run_lfc (lf_path root : Path) : M unit :=
  let lfc := home ++ ["reactor-uc"; "lfc"; "bin"; "lfc-dev"] in
  found ← asking (λ fs, is_file fs lfc);
  if negb found then
    raise (Exn FileNotFoundError [Lit "Missing compiler binary: "; PathV lfc])
  else
    let command := [PathV lfc; PathV lf_path] in
    run command (Some root).

Definition find_federates (root : Path) (main_name : string) (fs : FS)
  : exn + list Path :=
  let fed_root := root // "src-gen" // main_name in
  if negb (is_dir fs fed_root) then
    inl (Exn FileNotFoundError [Lit "No generated output in "; PathV fed_root])
  else
    match iterdir fs fed_root with
    | inl e => inl e
    | inr entries =>
        let federates := sorted (filter (λ p, is_dir fs p = true) entries) in
        if bool_decide (length federates ≠ 2) then
          inl (Exn RuntimeError [Lit "Expected 2 federates, found ";
                                 NatV (length federates); Lit " in ";
                                 PathV fed_root])
        else inr federates
    end.

Definition resolve_elf (federate_dir : Path) (fs : FS) : exn + Path :=
  let zephyr_candidate := federate_dir // "build" // "zephyr" // "zephyr.elf" in
  if is_file fs zephyr_candidate then inr zephyr_candidate
  else
    let matches := sorted (rglob fs federate_dir "zephyr.elf") in
    match matches with
    | m :: _ => inr m
    | [] => inl (Exn FileNotFoundError [Lit "Missing zephyr.elf under ";
                                        PathV (federate_dir // "build")])
    end.

Definition client_tags : list string := ["client"; "src"; "send"].
Definition server_tags : list string := ["server"; "snk"; "recv"].

(** [any(tag in name for tag in tags)] *)
Definition any_tag (tags : list string) (nm : string) : bool :=
  existsb (λ tag, str_in tag nm) tags.

(** [key in mapping] *)
Definition has_key (mapping : gmap string Path) (key : string) : bool :=
  bool_decide (is_Some (mapping !! key)).

(** [mapping.values()] *)
Definition values (mapping : gmap string Path) : list Path :=
  (map_to_list mapping).*2.

(** The name of [path], lowered, holds a client tag / a server tag. *)
Definition client_named (path : Path) : bool :=
  any_tag client_tags (lower (name path)).
Definition server_named (path : Path) : bool :=
  any_tag server_tags (lower (name path)).

(** The body of the [for path in federates] loop. *)
Definition classify_step (mapping : gmap string Path) (path : Path)
  : gmap string Path :=
  let nm := lower (name path) in
  if any_tag client_tags nm && negb (has_key mapping "client") then
    <["client" := path]> mapping
  else if any_tag server_tags nm && negb (has_key mapping "server") then
    <["server" := path]> mapping
  else mapping.

(** [if role not in mapping and remaining: mapping[role] = remaining.pop(0)] *)
Definition fill_role (role : string) (st : gmap string Path * list Path)
  : gmap string Path * list Path :=
  let '(mapping, remaining) := st in
  if negb (has_key mapping role) then
    match remaining with
    | p :: rest => (<[role := p]> mapping, rest)
    | [] => st
    end
  else st.

Definition classify_federates (federates : list Path) : exn + (Path * Path) :=
  let mapping := foldl classify_step ∅ federates in
  let remaining := filter (λ p, p ∉ values mapping) federates in
  let '(mapping, _) :=
    fill_role "server" (fill_role "client" (mapping, remaining)) in
  if bool_decide (size mapping ≠ 2) then
    inl (Exn RuntimeError [Lit "Unable to classify federates as client/server"])
  else
    match mapping !! "client", mapping !! "server" with
    | Some c, Some s => inr (c, s)
    | None, _ => inl (Exn KeyError [Lit "client"])
    | _, None => inl (Exn KeyError [Lit "server"])
    end.

Definition stage_binaries (client_elf server_elf root : Path)
  : M (Path * Path) :=
  let dest_dir := root ++ DEST_DIR in
  mkdir_parents dest_dir ;;
  let client_dest := dest_dir // "echo_client.elf" in
  let server_dest := dest_dir // "echo_server.elf" in
  copy2 client_elf client_dest ;;
  copy2 server_elf server_dest ;;
  mret (client_dest, server_dest).

Definition scp_binaries (binaries : list Path) (remote : string) : M unit :=
  let command := [Lit "scp"] ++ (PathV <$> binaries) ++ [StrV remote] in
  run command None.

(** The [try] block of [main]. *)
Definition pipeline (lf_path root : Path) (remote : string) : M unit :=
  clear_src_gen root ;;
  run_lfc lf_path root ;;
  federates ← reading (find_federates root (stem lf_path));
  '(client_dir, server_dir) ← reading (λ _, classify_federates federates);
  client_elf ← reading (resolve_elf client_dir);
  server_elf ← reading (resolve_elf server_dir);
  '(client_dest, server_dest) ← stage_binaries client_elf server_elf root;
  scp_binaries [client_dest; server_dest] remote.

(** [main], from the resolved source path, the project root and the
    [--remote] argument to the exit status of the process. *)
Definition main (lf_path root : Path) (remote : string) (w : World)
  : Z * World :=
  if negb (bool_decide (suffix lf_path = ".lf")) || negb (is_file (fs w) lf_path)
  then (2%Z, w)
  else
    match pipeline lf_path root remote w with
    | (inr _, w') => (0%Z, w')
    | (inl _, w') => (1%Z, w')
    end.

End Script.
End BuildSaclay.

(** * py/lf-build.py *)

Module LfBuild.

(** ** The pattern of [_validate_remote_url]

    The pieces the pattern is made of: one character of a class, or one
    or more of them; [$] closes every pattern here. *)
Inductive item :=
| One (cls : ascii → bool)
| Many (cls : ascii → bool).

(** [$]: at the end of the string, or just before a newline that ends it. *)
Definition at_end (s : string) : bool :=
  bool_decide (s = EmptyString) || bool_decide (s = nl).

(** [re.match] of the items followed by [$], trying every length a
    [Many] can take. *)
Fixpoint re_match (items : list item) : string → bool :=
  match items with
  | [] => at_end
  | One cls :: items' =>
      λ s, match s with
           | String c s' => cls c && re_match items' s'
           | EmptyString => false
           end
  | Many cls :: items' =>
      fix many (s : string) : bool :=
        match s with
        | String c s' => cls c && (re_match items' s' || many s')
        | EmptyString => false
        end
  end.

Definition is_char (ch : ascii) : ascii → bool := λ c, bool_decide (c = ch).
Definition not_char (ch : ascii) : ascii → bool := λ c, negb (bool_decide (c = ch)).

(** [r'^[^@]+@[^:]+:.+$'] *)
Definition remote_url_pattern : list item :=
  [Many (not_char "@"); One (is_char "@");
   Many (not_char ":"); One (is_char ":");
   Many (not_char (ascii_of_nat 10))].

Record LFBuilder := mkLFBuilder {
  (** as given on the command line, relative to the working directory *)
  source_file : Path;
  remote_url : string;
  skip_ssh : bool;
  cwd : Path;
  lfc_path : Path;
  base_name : string;
  src_gen_base_dir : Path;
  src_gen_project_dir : Path;
  fed_build_dir : Path
}.

Inductive command := All | Clean | Build | Ssh.

Section Script.

(** [Path.cwd()], the home directory and the external programs. *)
Variable the_cwd : Path.
Variable home : Path.
Variable exec : Exec.

(** The source is looked up from the working directory: the embedding
    covers a [relative], [plain] source. *)
Definition _validate_source_file (self : LFBuilder) (fs : FS) : exn + unit :=
  let file := cwd self ++ source_file self in
  if negb (bool_decide (suffix (source_file self) = ".lf")) then
    inl (Exn LFBuildError [Lit "Invalid file extension: ";
                           StrV (suffix (source_file self));
                           Lit ". Expected .lf extension."])
  else if negb (path_exists fs file) then
    inl (Exn LFBuildError [Lit "Source file not found: ";
                           PathV (source_file self)])
  else if negb (is_file fs file) then
    inl (Exn LFBuildError [Lit "Source path is not a file: ";
                           PathV (source_file self)])
  else inr tt.

Definition _validate_remote_url (self : LFBuilder) : exn + unit :=
  let pattern := remote_url_pattern in
  if negb (re_match pattern (remote_url self)) then
    inl (Exn LFBuildError [Lit "Invalid remote URL format: ";
                           StrV (remote_url self);
                           Lit ". Expected format: user@host:path"])
  else inr tt.

(** The directories are joined component by component: a source whose
    stem is [.] or [..] (as that of [..lf] and [...lf]) gives a generated
    directory that is not [plain]. *)
Definition __init__ (source : Path) (remote : string) (skip : bool) (fs : FS)
  : exn + LFBuilder :=
  let base := stem source in
  let self := {|
    source_file := source;
    remote_url := remote;
    skip_ssh := skip;
    cwd := the_cwd;
    lfc_path := home ++ ["reactor-uc"; "lfc"; "bin"; "lfc-dev"];
    base_name := base;
    src_gen_base_dir := the_cwd // "src-gen";
    src_gen_project_dir := the_cwd // "src-gen" // base;
    fed_build_dir := the_cwd // (base ++ "_build")
  |} in
  match _validate_source_file self fs with
  | inl e => inl e
  | inr _ =>
      if negb skip then
        match _validate_remote_url self with
        | inl e => inl e
        | inr _ => inr self
        end
      else inr self
  end.

Definition clean (self : LFBuilder) : M unit :=
  let dirs_to_clean := [fed_build_dir self; src_gen_project_dir self] in
  for_each dirs_to_clean (λ dir_path,
    present ← asking (λ fs, path_exists fs dir_path);
    if present : bool then rmtree dir_path else mret tt).

Definition _find_federate_elfs (self : LFBuilder) (fs : FS)
  : exn + list (string * Path) :=
  if negb (path_exists fs (src_gen_project_dir self)) then
    inl (Exn LFBuildError [Lit "Generated directory not found: ";
                           PathV (src_gen_project_dir self);
                           Lit ". Build may have failed."])
  else
    match iterdir fs (src_gen_project_dir self) with
    | inl e => inl e
    | inr entries =>
        let federate_elfs :=
          omap (λ federate_dir,
                  if negb (is_dir fs federate_dir) then None
                  else
                    let elf_path :=
                      federate_dir // "build" // "zephyr" // "zephyr.elf" in
                    if path_exists fs elf_path
                    then Some (name federate_dir, elf_path)
                    else None)
               entries in
        match federate_elfs with
        | [] =>
            inl (Exn LFBuildError
                   [Lit "No federate .elf files found. Build may have failed or no federates were generated."])
        | _ :: _ => inr federate_elfs
        end
    end.

Definition _copy_federate_elfs (self : LFBuilder) : M unit :=
  mkdir_exist_ok (fed_build_dir self) ;;
  federate_elfs ← reading (_find_federate_elfs self);
  for_each federate_elfs (λ '(federate_name, elf_path),
    let dest_path := fed_build_dir self // (federate_name ++ ".elf") in
    copy2 elf_path dest_path ;; mret tt).

Definition build (self : LFBuilder) : M unit :=
  try_except
    (subprocess_run exec [PathV (lfc_path self); PathV (source_file self)]
                    (Some (cwd self)) true ;; mret tt)
    (λ e, match e with
          | CalledProcessError _ _ _ err =>
              raise (Exn LFBuildError [Lit "LFC compilation failed:"; Lit nl;
                                       StrV (default "None" err)])
          | Exn FileNotFoundError _ =>
              raise (Exn LFBuildError
                       [Lit "Compiler not found: "; PathV (lfc_path self);
                        Lit ". Please ensure lfc-dev is installed."])
          | _ => raise e
          end) ;;
  _copy_federate_elfs self.

Definition ssh (self : LFBuilder) : M unit :=
  if skip_ssh self then mret tt
  else
    present ← asking (λ fs, path_exists fs (fed_build_dir self));
    if negb present then
      raise (Exn LFBuildError [Lit "Build directory not found: ";
                               PathV (fed_build_dir self);
                               Lit ". Run 'build' first."])
    else
      elf_files ← asking (λ fs, glob_suffix fs (fed_build_dir self) ".elf");
      match elf_files with
      | [] => raise (Exn LFBuildError [Lit "No .elf files found in ";
                                       PathV (fed_build_dir self)])
      | _ :: _ =>
          for_each elf_files (λ elf_file,
            try_except
              (subprocess_run exec
                 [Lit "scp"; PathV elf_file; StrV (remote_url self)]
                 None true ;; mret tt)
              (λ e, match e with
                    | CalledProcessError _ _ _ err =>
                        match err with
                        | Some b =>
                            match decode b with
                            | inr text =>
                                raise (Exn LFBuildError
                                         [Lit "SCP transfer failed for ";
                                          StrV (name elf_file); Lit ":"; Lit nl;
                                          StrV text])
                            | inl e' => raise e'
                            end
                        | None =>
                            raise (Exn AttributeError
                                     [Lit "'NoneType' object has no attribute 'decode'"])
                        end
                    | Exn FileNotFoundError _ =>
                        raise (Exn LFBuildError
                                 [Lit "scp command not found. Please ensure SSH client is installed."])
                    | _ => raise e
                    end))
      end.

Definition all (self : LFBuilder) : M unit :=
  clean self ;; build self ;; ssh self.

(** [getattr(builder, args.command)] *)
Definition command_method (self : LFBuilder) (c : command) : M unit :=
  match c with
  | All => all self
  | Clean => clean self
  | Build => build self
  | Ssh => ssh self
  end.

(** [main], from the parsed arguments to the status it returns; an
    interrupt from the keyboard is outside the model. *)
Definition main (c : command) (source : Path) (remote : string)
    (no_ssh : bool) : World → Z * World :=
  let body : M unit :=
    builder ← reading (__init__ source remote no_ssh);
    command_method builder c in
  λ w, match body w with
       | (inr _, w') => (0%Z, w')
       | (inl (Exn LFBuildError _), w') => (1%Z, w')
       | (inl _, w') => (1%Z, w')
       end.

End Script.
End LfBuild.

(** * Notions used in the statements *)

(** What [p for p in d.iterdir() if p.is_dir()] lists, in the order of
    [iterdir]. *)
Definition listed_subdirectories (fs : FS) (d : Path) : list Path :=
  filter (λ p, is_dir fs p = true) (filter (entry_of d) (map_to_list fs).*1).

(** The one place [lf-build.py] looks for the binary of a federate. *)
Definition fixed_elf (federate_dir : Path) : Path :=
  federate_dir // "build" // "zephyr" // "zephyr.elf".

(** The subdirectories of [project_dir] that hold a binary there. *)
Definition built_federates (fs : FS) (project_dir : Path) : gset Path :=
  filter (λ d, path_exists fs (fixed_elf d) = true)
         (subdirectories fs project_dir).

Definition listed_built (fs : FS) (d : Path) : list Path :=
  filter (λ p, path_exists fs (fixed_elf p) = true) (listed_subdirectories fs d).

(** [if p.exists(): shutil.rmtree(p)] *)
Definition remove_if_exists (p : Path) : M unit :=
  present ← asking (λ fs, path_exists fs p);
  if present : bool then rmtree p else mret tt.

(** [q] lies in the tree rooted at [d] ([d] included). *)
Definition under (d q : Path) : Prop := d `prefix_of` q.

(** The staging directory of [build-saclay.py] and what [stage_binaries]
    leaves on disk. *)
Definition staging_dir (root : Path) : Path := root ++ BuildSaclay.DEST_DIR.
Definition staged (root : Path) (client_data server_data : string) (fs : FS) : FS :=
  <[staging_dir root // "echo_server.elf" := File server_data]>
    (<[staging_dir root // "echo_client.elf" := File client_data]>
       (made_dirs (staging_dir root) fs)).

(** The body of the loop of [_copy_federate_elfs]. *)
Definition stage_one (B : Path) (entry : string * Path) : M unit :=
  let '(federate_name, elf_path) := entry in
  let dest_path := B // (federate_name ++ ".elf")%string in
  copy2 elf_path dest_path ;; mret tt.

(** The name a federate is staged under. *)
Definition staged_name (d : Path) : string := (name d ++ ".elf")%string.

(** When [_copy_federate_elfs] can do its work: the staging directory is
    there or can be made, the generated directory holds federates with a
    regular file at the fixed path, no directory stands where a binary is
    to be staged, and neither directory lies inside the other. *)
Definition can_stage (self : LfBuild.LFBuilder) (fs : FS) : Prop :=
  let B := LfBuild.fed_build_dir self in
  let P := LfBuild.src_gen_project_dir self in
  (fs !! B = Some Dir ∨ (fs !! B = None ∧ fs !! parent B = Some Dir)) ∧
  fs !! P = Some Dir ∧
  built_federates fs P ≠ ∅ ∧
  (∀ d, d ∈ built_federates fs P →
        is_file fs (fixed_elf d) = true ∧ is_dir fs (B // staged_name d) = false) ∧
  ¬ under B P ∧ ¬ under P B.


(** ** The loop of [classify_federates], by its two entries *)

(** The dictionary [mapping] with these two entries, each present or not. *)
Definition roles (oc os : option Path) : gmap string Path :=
  match oc, os with
  | Some c, Some s => <["server" := s]> (<["client" := c]> ∅)
  | Some c, None => <["client" := c]> ∅
  | None, Some s => <["server" := s]> ∅
  | None, None => ∅
  end.

(** The body of the loop of [classify_federates], on the two entries. *)
Definition assign (st : option Path * option Path) (path : Path)
  : option Path * option Path :=
  let '(oc, os) := st in
  if BuildSaclay.client_named path && negb (bool_decide (is_Some oc)) then (Some path, os)
  else if BuildSaclay.server_named path && negb (bool_decide (is_Some os)) then (oc, Some path)
  else st.

(** [classify_federates], with the dictionary read as its two entries. *)
Definition classify_entries (federates : list Path) : exn + (Path * Path) :=
  let '(oc, os) := foldl assign (None, None) federates in
  let remaining := filter (λ p, ¬ (oc = Some p ∨ os = Some p)) federates in
  match oc, os, remaining with
  | Some c, Some s, _ => inr (c, s)
  | Some c, None, p :: _ => inr (c, p)
  | None, Some s, p :: _ => inr (p, s)
  | None, None, p :: q :: _ => inr (p, q)
  | _, _, _ =>
      inl (Exn RuntimeError [Lit "Unable to classify federates as client/server"])
  end.

(** ** The pattern, as a language *)

(** Every character of [s] is in the class. *)
Fixpoint all_chars (cls : ascii → bool) (s : string) : bool :=
  match s with
  | EmptyString => true
  | String c s' => cls c && all_chars cls s'
  end.

(** ** What a step leaves of the world *)

(** From [w] to [w'] no process was started, no entry was removed and no
    directory was replaced. *)
Definition only_adds (w w' : World) : Prop :=
  invocations w' = invocations w ∧
  (∀ q, fs w !! q = Some Dir → fs w' !! q = Some Dir) ∧
  (∀ q, is_Some (fs w !! q) → is_Some (fs w' !! q)).

(** From [w] to [w'] no process was started and no entry was made or
    changed. *)
Definition only_removes (w w' : World) : Prop :=
  invocations w' = invocations w ∧
  ∀ q, fs w' !! q = None ∨ fs w' !! q = fs w !! q.

(** ** The transfers of [ssh] *)

(** The argument vector of one transfer of [ssh]. *)
Definition scp_command (remote : string) (elf_file : Path) : list piece :=
  [Lit "scp"; PathV elf_file; StrV remote].

(** The body of the loop of [ssh]. *)
Definition transfer (exec : Exec) (remote : string) (elf_file : Path) : M unit :=
  try_except
    (subprocess_run exec [Lit "scp"; PathV elf_file; StrV remote] None true ;;
     mret tt)
    (λ e, match e with
          | CalledProcessError _ _ _ err =>
              match err with
              | Some b =>
                  match decode b with
                  | inr text =>
                      raise (Exn LFBuildError
                               [Lit "SCP transfer failed for ";
                                StrV (name elf_file); Lit ":"; Lit nl;
                                StrV text])
                  | inl e' => raise e'
                  end
              | None =>
                  raise (Exn AttributeError
                           [Lit "'NoneType' object has no attribute 'decode'"])
              end
          | Exn FileNotFoundError _ =>
              raise (Exn LFBuildError
                       [Lit "scp command not found. Please ensure SSH client is installed."])
          | _ => raise e
          end).

(** * Example worlds *)

Module Ex.

(** A regular file at [p], with the directories that lead to it. *)
Definition touch (p : Path) (data : string) (fs : FS) : FS :=
  <[p := File data]> (foldr (λ q m, <[q := Dir]> m) fs (prefixes (parent p))).

Definition ws : Path := ["ws"].
Definition home : Path := ["home"; "dev"].
Definition lfc : Path := home ++ ["reactor-uc"; "lfc"; "bin"; "lfc-dev"].

(** A workspace holding [src/Echo.lf] and the compiler, nothing generated. *)
Definition fs_src : FS :=
  touch (ws ++ ["src"; "Echo.lf"]) "main reactor" (touch lfc "lfc" ∅).

Definition echo_dir : Path := ws ++ ["src-gen"; "Echo"].

(** What a successful compilation of [Echo.lf] leaves. *)
Definition generate_echo (fs : FS) : FS :=
  touch (fixed_elf (echo_dir // "EchoClient")) "client image"
    (touch (fixed_elf (echo_dir // "EchoServer")) "server image" fs).

Definition fs_echo : FS := generate_echo fs_src.

(** Generated output of another program next to that of [Echo.lf]. *)
Definition fs_two_programs : FS :=
  touch (ws ++ ["src-gen"; "Other"; "fed"; "main.c"]) "other" fs_echo.

(** A program with three federates. *)
Definition ring_dir : Path := ws ++ ["src-gen"; "Ring"].
Definition fs_ring : FS :=
  touch (ws ++ ["src"; "Ring.lf"]) "main reactor"
    (touch (fixed_elf (ring_dir // "a")) "a"
       (touch (fixed_elf (ring_dir // "b")) "b"
          (touch (fixed_elf (ring_dir // "c")) "c" fs_src))).

(** Federates whose binary sits elsewhere than [build/zephyr]. *)
Definition fs_nested : FS :=
  touch (echo_dir ++ ["fed0"; "out"; "west"; "zephyr.elf"]) "deep"
    (touch (echo_dir ++ ["fed0"; "out"; "pre"; "zephyr.elf"]) "copy"
       (touch (echo_dir ++ ["fed1"; "main.c"]) "no image" fs_src)).

(** The builder of [lf-build.py] for [src/Echo.lf]. *)
Definition echo_builder : LfBuild.LFBuilder := {|
  LfBuild.source_file := ["src"; "Echo.lf"];
  LfBuild.remote_url := "hailo@hailo-desktop:~/lf";
  LfBuild.skip_ssh := false;
  LfBuild.cwd := ws;
  LfBuild.lfc_path := lfc;
  LfBuild.base_name := "Echo";
  LfBuild.src_gen_base_dir := ws // "src-gen";
  LfBuild.src_gen_project_dir := echo_dir;
  LfBuild.fed_build_dir := ws // "Echo_build"
|}.

(** A compiler that succeeds and generates the two federates of Echo. *)
Definition compiler_ok : Exec := λ _ argv fs,
  match argv with
  | PathV _ :: _ => (Exited 0 "generated" EmptyString, generate_echo fs)
  | _ => (Exited 0 EmptyString EmptyString, fs)
  end.

(** A compiler that reports an error; the copy tool works. *)
Definition compiler_fails : Exec := λ _ argv fs,
  match argv with
  | PathV _ :: _ => (Exited 1 EmptyString "Echo.lf: syntax error", fs)
  | _ => (Exited 0 EmptyString EmptyString, fs)
  end.

End Ex.

(** Worlds and programs that go wrong. *)
Module Faults.


(** A compiler that ends with status 0 and generates nothing. *)
Definition compiler_silent : Exec := λ _ _ fs,
  (Exited 0 EmptyString EmptyString, fs).

(** The copy tool fails on the file named [nm], writing [err] to its
    error stream; every other program succeeds. *)
Definition scp_fails_on (nm err : string) : Exec := λ _ argv fs,
  match argv with
  | [Lit "scp"; PathV p; _] =>
      if bool_decide (name p = nm)
      then (Exited 1 EmptyString err, fs)
      else (Exited 0 EmptyString EmptyString, fs)
  | _ => (Exited 0 EmptyString EmptyString, fs)
  end.

(** The workspace of Echo after a build, with a file of another kind in
    the staging directory. *)
Definition fs_staged : FS :=
  Ex.touch (Ex.ws ++ ["Echo_build"; "EchoClient.elf"]) "client image"
    (Ex.touch (Ex.ws ++ ["Echo_build"; "EchoServer.elf"]) "server image"
      (Ex.touch (Ex.ws ++ ["Echo_build"; "README"]) "notes" Ex.fs_echo)).

End Faults.

(** * Properties *)

#[local] Set Warnings "-clear-no-such-hyp".

(** ** The order of [sorted] *)

Lemma ltb_false_le x y : String.ltb x y = false ↔ String.le y x.
Proof.
  unfold String.le, String.ltb, String.leb.
  rewrite (String.compare_antisym y x).
  destruct (String.compare x y); simpl; split; done.
Qed.

Lemma path_le_nil_l q : path_le [] q.
Proof. by destruct q. Qed.

Lemma path_le_cons x p y q :
  path_le (x :: p) (y :: q) ↔ (x = y ∧ path_le p q) ∨ (x ≠ y ∧ String.le x y).
Proof.
  unfold path_le. cbn [path_lt].
  destruct (decide (y = x)) as [->|Hne].
  - split; [auto|]. by intros [[_ ?]|[? _]].
  - rewrite ltb_false_le. split; [auto|]. intros [[-> _]|[_ ?]]; done.
Qed.

Global Instance path_le_refl : Reflexive path_le.
Proof. intros p. induction p as [|x p IH]; [done|]. apply path_le_cons. auto. Qed.

Global Instance path_le_trans : Transitive path_le.
Proof.
  intros p. induction p as [|x p IH]; intros q r Hpq Hqr.
  - apply path_le_nil_l.
  - destruct q as [|y q]; [done|]. destruct r as [|z r]; [done|].
    apply path_le_cons in Hpq. apply path_le_cons in Hqr. apply path_le_cons.
    destruct Hpq as [[-> Hpq]|[Hxy Lxy]], Hqr as [[-> Hqr]|[Hyz Lyz]].
    + left. eauto.
    + right. done.
    + right. done.
    + right. split.
      * intros ->. apply Hxy. by apply (anti_symm String.le).
      * by trans y.
Qed.

Global Instance path_le_total : Total path_le.
Proof.
  intros p. induction p as [|x p IH]; intros q.
  - left. apply path_le_nil_l.
  - destruct q as [|y q]; [right; apply path_le_nil_l|].
    rewrite !path_le_cons.
    destruct (decide (x = y)) as [->|Hne].
    + destruct (IH q); auto.
    + destruct (total String.le x y); auto.
Qed.

Global Instance path_le_antisymm : AntiSymm (=) path_le.
Proof.
  intros p. induction p as [|x p IH]; intros q Hpq Hqp.
  - by destruct q.
  - destruct q as [|y q]; [done|].
    apply path_le_cons in Hpq. apply path_le_cons in Hqp.
    destruct Hpq as [[-> Hpq]|[Hxy Lxy]], Hqp as [[? Hqp]|[Hyx Lyx]]; try done.
    + f_equal. auto.
    + exfalso. apply Hxy. by apply (anti_symm String.le).
Qed.

(** Two different paths are strictly ordered one way or the other. *)
Lemma path_le_ne_lt p q : path_le p q → p ≠ q → path_lt p q = true.
Proof.
  intros Hle Hne. destruct (path_lt p q) eqn:Hlt; [done|].
  exfalso. apply Hne. by apply (anti_symm path_le).
Qed.

Lemma sorted_perm l : sorted l ≡ₚ l.
Proof. apply merge_sort_Permutation. Qed.

Lemma sorted_strongly l : StronglySorted path_le (sorted l).
Proof. apply (StronglySorted_merge_sort path_le). Qed.

(** The head of [sorted l] is a least element of [l]. *)
Lemma sorted_first m rest l :
  sorted l = m :: rest → m ∈ l ∧ ∀ q, q ∈ l → path_le m q.
Proof.
  intros Hs.
  pose proof (sorted_strongly l) as Hsorted.
  pose proof (sorted_perm l) as Hperm.
  rewrite Hs in Hsorted, Hperm.
  split.
  - rewrite <- Hperm. left.
  - intros q Hq. rewrite <- Hperm in Hq.
    apply StronglySorted_inv in Hsorted as [_ Hall].
    apply elem_of_cons in Hq as [->|Hq]; [done|].
    rewrite Forall_forall in Hall. by apply Hall.
Qed.

Lemma sorted_nil l : sorted l = [] → l = [].
Proof.
  intros Hs. pose proof (sorted_perm l) as Hperm. rewrite Hs in Hperm.
  by apply Permutation_nil_l in Hperm.
Qed.

Lemma sorted_nonempty l : l ≠ [] → ∃ m rest, sorted l = m :: rest.
Proof.
  intros Hl. destruct (sorted l) as [|m rest] eqn:Hs; [|eauto].
  by apply sorted_nil in Hs.
Qed.

(** ** Reading the file system *)

Lemma keys_NoDup (fs : FS) : NoDup (map_to_list fs).*1.
Proof. apply NoDup_fst_map_to_list. Qed.

Lemma elem_of_keys (fs : FS) q : q ∈ (map_to_list fs).*1 ↔ is_Some (fs !! q).
Proof.
  rewrite list_elem_of_fmap. split.
  - intros [[k v] [-> Hin]]. apply elem_of_map_to_list in Hin. eauto.
  - intros [v Hv]. exists (q, v). split; [done|]. by apply elem_of_map_to_list.
Qed.

Lemma is_dir_true fs q : is_dir fs q = true ↔ fs !! q = Some Dir.
Proof. unfold is_dir. destruct (fs !! q) as [[]|]; naive_solver. Qed.

Lemma is_file_true fs q : is_file fs q = true ↔ ∃ data, fs !! q = Some (File data).
Proof. unfold is_file. destruct (fs !! q) as [[]|]; naive_solver. Qed.

Lemma path_exists_true fs q : path_exists fs q = true ↔ is_Some (fs !! q).
Proof. unfold path_exists. destruct (fs !! q); split; (done || eauto || by intros [? ?]). Qed.

Lemma elem_of_subdirectories fs d q :
  q ∈ subdirectories fs d ↔ entry_of d q ∧ fs !! q = Some Dir.
Proof.
  unfold subdirectories. rewrite elem_of_dom. split.
  - intros [v Hv]. apply map_lookup_filter_Some in Hv as [Hq [He Hd]].
    simpl in *. by subst.
  - intros [He Hq]. exists Dir. by apply map_lookup_filter_Some.
Qed.

Lemma elem_of_listed_subdirectories fs d q :
  q ∈ listed_subdirectories fs d ↔ q ∈ subdirectories fs d.
Proof.
  unfold listed_subdirectories.
  rewrite !list_elem_of_filter, elem_of_keys, elem_of_subdirectories, is_dir_true.
  naive_solver.
Qed.

Lemma listed_subdirectories_NoDup fs d : NoDup (listed_subdirectories fs d).
Proof. unfold listed_subdirectories. do 2 apply NoDup_filter. apply keys_NoDup. Qed.

Lemma listed_subdirectories_perm fs d :
  listed_subdirectories fs d ≡ₚ elements (subdirectories fs d).
Proof.
  apply NoDup_Permutation.
  - apply listed_subdirectories_NoDup.
  - apply NoDup_elements.
  - intros q. by rewrite elem_of_listed_subdirectories, elem_of_elements.
Qed.

Lemma listed_subdirectories_length fs d :
  length (listed_subdirectories fs d) = size (subdirectories fs d).
Proof. by rewrite listed_subdirectories_perm. Qed.

Lemma find_federates_unfold root main_name fs :
  is_dir fs (root // "src-gen" // main_name) = true →
  BuildSaclay.find_federates root main_name fs =
    let fed_root := root // "src-gen" // main_name in
    let federates := sorted (listed_subdirectories fs fed_root) in
    if bool_decide (length federates ≠ 2) then
      inl (Exn RuntimeError [Lit "Expected 2 federates, found ";
                             NatV (length federates); Lit " in ";
                             PathV fed_root])
    else inr federates.
Proof.
  intros Hd. unfold BuildSaclay.find_federates, iterdir. rewrite Hd. cbn [negb].
  apply is_dir_true in Hd. rewrite Hd. reflexivity.
Qed.

Lemma sorted_length l : length (sorted l) = length l.
Proof. by rewrite sorted_perm. Qed.

Lemma sorted_two_lt l a b : NoDup l → sorted l = [a; b] → path_lt a b = true.
Proof.
  intros Hnd Hs. 
  pose proof (sorted_strongly l) as Hsorted. 
  pose proof (sorted_perm l) as Hperm. rewrite Hs in Hsorted, Hperm.
  rewrite <- Hperm in Hnd.
  apply StronglySorted_inv in Hsorted as [_ Hall].
  apply Forall_cons in Hall as [Hab _].
  apply path_le_ne_lt; [done|].
  apply NoDup_cons in Hnd as [Hnin _]. intros ->. apply Hnin. left.
Qed.


(** ** Discovery in [build-saclay.py]: exactly two federates *)

Lemma find_federates_count root main_name fs :
  let fed_root := root // "src-gen" // main_name in
  let n := size (subdirectories fs fed_root) in
  is_dir fs fed_root = true →
  (n ≠ 2 →
   BuildSaclay.find_federates root main_name fs =
     inl (Exn RuntimeError [Lit "Expected 2 federates, found "; NatV n;
                            Lit " in "; PathV fed_root])) ∧
  (n = 2 →
   ∃ a b, BuildSaclay.find_federates root main_name fs = inr [a; b] ∧
          subdirectories fs fed_root = {[a; b]} ∧ path_lt a b = true).
Proof.
  intros fed_root n Hd. rewrite find_federates_unfold by done. cbn zeta.
  rewrite sorted_length, listed_subdirectories_length. fold fed_root. fold n.
  split; intros Hn.
  - by rewrite bool_decide_eq_true_2.
  - rewrite bool_decide_eq_false_2 by (by intros ?).
    destruct (sorted (listed_subdirectories fs fed_root)) as [|a [|b [|c l]]] eqn:Hs;
      pose proof (sorted_length (listed_subdirectories fs fed_root)) as Hlen;
      rewrite Hs, listed_subdirectories_length in Hlen; fold n in Hlen; simpl in Hlen; try lia.
    exists a, b. split; [done|]. split.
    + apply set_eq. intros q. rewrite <- elem_of_listed_subdirectories.
      rewrite <- (sorted_perm (listed_subdirectories fs fed_root)), Hs. set_solver.
    + eapply sorted_two_lt; [|done]. apply listed_subdirectories_NoDup.
Qed.

(** ** Discovery in [lf-build.py]: any number of federates *)

Lemma elem_of_listed_built fs d q : q ∈ listed_built fs d ↔ q ∈ built_federates fs d.
Proof.
  unfold listed_built, built_federates.
  by rewrite list_elem_of_filter, elem_of_filter, elem_of_listed_subdirectories.
Qed.

Lemma listed_built_NoDup fs d : NoDup (listed_built fs d).
Proof. apply NoDup_filter, listed_subdirectories_NoDup. Qed.

Lemma listed_built_length fs d : length (listed_built fs d) = size (built_federates fs d).
Proof.
  unfold size, set_size. simpl. apply Permutation_length, NoDup_Permutation.
  - apply listed_built_NoDup.
  - apply NoDup_elements.
  - intros q. by rewrite elem_of_listed_built, elem_of_elements.
Qed.

Lemma find_loop_listed fs (entries : list Path) :
  omap (λ federate_dir,
          if negb (is_dir fs federate_dir) then None
          else
            let elf_path := federate_dir // "build" // "zephyr" // "zephyr.elf" in
            if path_exists fs elf_path then Some (name federate_dir, elf_path) else None)
       entries
  = (λ d, (name d, fixed_elf d)) <$>
      filter (λ p, path_exists fs (fixed_elf p) = true)
             (filter (λ p, is_dir fs p = true) entries).
Proof.
  induction entries as [|d entries IH]; [done|].
  cbn [omap list_omap]. rewrite filter_cons.
  destruct (is_dir fs d) eqn:Hd; cbn [negb].
  - rewrite decide_True by done. rewrite filter_cons. fold (fixed_elf d).
    destruct (path_exists fs (fixed_elf d)) eqn:He.
    + rewrite decide_True by done. rewrite fmap_cons. f_equal. apply IH.
    + rewrite decide_False by done. apply IH.
  - rewrite decide_False by done. apply IH.
Qed.

Lemma find_federate_elfs_unfold (self : LfBuild.LFBuilder) fs :
  is_dir fs (LfBuild.src_gen_project_dir self) = true →
  LfBuild._find_federate_elfs self fs =
    match listed_built fs (LfBuild.src_gen_project_dir self) with
    | [] => inl (Exn LFBuildError
                   [Lit "No federate .elf files found. Build may have failed or no federates were generated."])
    | l => inr ((λ d, (name d, fixed_elf d)) <$> l)
    end.
Proof.
  intros Hd. unfold LfBuild._find_federate_elfs, iterdir.
  assert (path_exists fs (LfBuild.src_gen_project_dir self) = true) as ->.
  { apply path_exists_true. apply is_dir_true in Hd. eauto. }
  cbn [negb]. apply is_dir_true in Hd. rewrite Hd.
  rewrite find_loop_listed. fold (listed_subdirectories fs (LfBuild.src_gen_project_dir self)).
  fold (listed_built fs (LfBuild.src_gen_project_dir self)).
  by destruct (listed_built fs (LfBuild.src_gen_project_dir self)).
Qed.

Lemma find_federate_elfs_any_count (self : LfBuild.LFBuilder) fs :
  let built := built_federates fs (LfBuild.src_gen_project_dir self) in
  is_dir fs (LfBuild.src_gen_project_dir self) = true →
  (built = ∅ →
   LfBuild._find_federate_elfs self fs =
     inl (Exn LFBuildError
            [Lit "No federate .elf files found. Build may have failed or no federates were generated."])) ∧
  (built ≠ ∅ →
   ∃ l, LfBuild._find_federate_elfs self fs = inr l ∧ length l = size built ∧
        ∀ n e, (n, e) ∈ l ↔ ∃ d, d ∈ built ∧ n = name d ∧ e = fixed_elf d).
Proof.
  intros built Hd. rewrite find_federate_elfs_unfold by done.
  pose proof (elem_of_listed_built fs (LfBuild.src_gen_project_dir self)) as Hin.
  pose proof (listed_built_length fs (LfBuild.src_gen_project_dir self)) as Hlen.
  fold built in Hin, Hlen.
  destruct (listed_built fs (LfBuild.src_gen_project_dir self)) as [|d l].
  - split; [done|]. intros Hne. exfalso. apply Hne.
    apply set_eq. intros q. rewrite <- Hin. set_solver.
  - split.
    + intros He. exfalso. specialize (Hin d). rewrite He in Hin.
      apply (not_elem_of_empty (C := gset Path) d), Hin. left.
    + intros _. eexists. split; [done|]. split.
      * by rewrite length_fmap.
      * intros n e. rewrite list_elem_of_fmap. split.
        -- intros [q [[= -> ->] Hq]]. exists q. by rewrite <- Hin.
        -- intros [q [Hq [-> ->]]]. exists q. by rewrite Hin.
Qed.

(** C3. In [build-saclay.py], [find_federates] fails with the error that
    names the count and the directory exactly when the generated
    directory has another number of subdirectories than two, and returns
    the two, sorted, otherwise. In [lf-build.py], [_find_federate_elfs]
    counts nothing: it fails only when no subdirectory holds a binary,
    with an error that names neither a count nor a directory, and returns
    one entry for each subdirectory that holds one, however many. *)
Theorem federate_count_checked_in_build_saclay_only
    root main_name (self : LfBuild.LFBuilder) fs :
  let fed_root := root // "src-gen" // main_name in
  let n := size (subdirectories fs fed_root) in
  let built := built_federates fs (LfBuild.src_gen_project_dir self) in
  (is_dir fs fed_root = true →
   (n ≠ 2 →
    BuildSaclay.find_federates root main_name fs =
      inl (Exn RuntimeError [Lit "Expected 2 federates, found "; NatV n;
                             Lit " in "; PathV fed_root])) ∧
   (n = 2 →
    ∃ a b, BuildSaclay.find_federates root main_name fs = inr [a; b] ∧
           subdirectories fs fed_root = {[a; b]} ∧ path_lt a b = true)) ∧
  (is_dir fs (LfBuild.src_gen_project_dir self) = true →
   (built = ∅ →
    LfBuild._find_federate_elfs self fs =
      inl (Exn LFBuildError
             [Lit "No federate .elf files found. Build may have failed or no federates were generated."])) ∧
   (built ≠ ∅ →
    ∃ l, LfBuild._find_federate_elfs self fs = inr l ∧ length l = size built ∧
         ∀ nm e, (nm, e) ∈ l ↔ ∃ d, d ∈ built ∧ nm = name d ∧ e = fixed_elf d)).
Proof.
  intros fed_root n built. split.
  - apply find_federates_count.
  - apply find_federate_elfs_any_count.
Qed.

Lemma federate_count_checked_in_build_saclay_only_witness :
  ∃ self,
    LfBuild.__init__ Ex.ws Ex.home ["src"; "Ring.lf"] "u@h:p" false Ex.fs_ring
      = inr self ∧
    is_dir Ex.fs_ring Ex.ring_dir = true ∧
    BuildSaclay.find_federates Ex.ws "Ring" Ex.fs_ring =
      inl (Exn RuntimeError [Lit "Expected 2 federates, found "; NatV 3;
                             Lit " in "; PathV Ex.ring_dir]) ∧
    ∃ l, LfBuild._find_federate_elfs self Ex.fs_ring = inr l ∧ length l = 3.
Proof.
  eexists. split; [vm_compute; reflexivity|].
  split; [vm_compute; reflexivity|].
  match goal with
  | |- _ ∧ ∃ l, LfBuild._find_federate_elfs ?self _ = _ ∧ _ =>
      destruct (federate_count_checked_in_build_saclay_only
                  Ex.ws "Ring" self Ex.fs_ring) as [Hsaclay Hlf]
  end.
  destruct Hsaclay as [Hne _]; [vm_compute; reflexivity|].
  destruct Hlf as [_ Hsome]; [vm_compute; reflexivity|].
  split.
  - apply Hne. compute_done.
  - destruct Hsome as (l & Hl & Hlen & _); [compute_done|].
    exists l. split; [exact Hl|]. rewrite Hlen. compute_done.
Defined.

(** C3, as stated, fails on [lf-build.py]: three federates are accepted. *)
Lemma three_federates_accepted_by_lf_build :
  ∃ self,
    LfBuild.__init__ Ex.ws Ex.home ["src"; "Ring.lf"] "u@h:p" false Ex.fs_ring
      = inr self ∧
    size (subdirectories Ex.fs_ring (LfBuild.src_gen_project_dir self)) = 3 ∧
    ∃ a b c, LfBuild._find_federate_elfs self Ex.fs_ring = inr [a; b; c].
Proof.
  eexists. split; [vm_compute; reflexivity|].
  split; [vm_compute; reflexivity|].
  vm_compute. eauto.
Qed.

(** ** Classification in [build-saclay.py] *)

Section Classification.
Import BuildSaclay.

Lemma elem_of_values (m : gmap string Path) p :
  p ∈ values m ↔ ∃ k, m !! k = Some p.
Proof.
  unfold values. rewrite list_elem_of_fmap. split.
  - intros [[k v] [-> Hin]]. exists k. by apply elem_of_map_to_list.
  - intros [k Hk]. exists (k, p). split; [done|]. by apply elem_of_map_to_list.
Qed.

Lemma has_key_true (m : gmap string Path) k v : m !! k = Some v → has_key m k = true.
Proof. intros H. unfold has_key. apply bool_decide_eq_true. eauto. Qed.
Lemma has_key_false (m : gmap string Path) k : m !! k = None → has_key m k = false.
Proof. intros H. unfold has_key. apply bool_decide_eq_false. rewrite H. by intros [? ?]. Qed.

Lemma classify_step_unfold m p :
  classify_step m p =
    if client_named p && negb (has_key m "client") then <["client" := p]> m
    else if server_named p && negb (has_key m "server") then <["server" := p]> m
    else m.
Proof. reflexivity. Qed.

Lemma values_empty p : p ∉ values ∅.
Proof. rewrite elem_of_values. intros [k Hk]. by rewrite lookup_empty in Hk. Qed.

Lemma values_insert (m : gmap string Path) k v p :
  m !! k = None → p ∈ values (<[k := v]> m) ↔ p = v ∨ p ∈ values m.
Proof.
  intros Hk. rewrite !elem_of_values. split.
  - intros [k' Hk']. destruct (decide (k = k')) as [->|Hne].
    + rewrite lookup_insert_eq in Hk'. left. congruence.
    + rewrite lookup_insert_ne in Hk' by done. right. eauto.
  - intros [->|[k' Hk']].
    + exists k. apply lookup_insert_eq.
    + exists k'. rewrite lookup_insert_ne; [done|]. congruence.
Qed.

(** [keys] settles the tests [key in mapping] on a map built by inserts;
    [leftover] computes [remaining], deciding each membership in
    [mapping.values()] with [member]; [sizes] computes [len(mapping)]. *)
Ltac keys :=
  repeat first
    [ rewrite (has_key_false ∅) by apply lookup_empty
    | erewrite has_key_true by (simplify_map_eq; reflexivity)
    | rewrite has_key_false by (simplify_map_eq; reflexivity) ].

Ltac member :=
  repeat (rewrite values_insert by (simplify_map_eq; reflexivity));
  first [ by auto
        | let H := fresh in
          intros H; decompose [or] H; first [ congruence | by eapply values_empty ] ].

Ltac leftover :=
  rewrite ?filter_cons, ?filter_nil;
  repeat first [ rewrite decide_True by member | rewrite decide_False by member ].

Ltac sizes :=
  repeat (rewrite map_size_insert_None by (simplify_map_eq; reflexivity));
  rewrite ?map_size_empty.

Lemma classify_two a b :
  a ≠ b →
  classify_federates [a; b] =
    inr (if client_named a then (a, b)
         else if server_named a then (b, a)
         else if client_named b then (b, a)
         else (a, b)).
Proof.
  intros Hab. unfold classify_federates. cbn [foldl].
  rewrite !classify_step_unfold.
  destruct (client_named a) eqn:Ca, (server_named a) eqn:Sa,
           (client_named b) eqn:Cb, (server_named b) eqn:Sb;
    cbn [andb negb]; keys; cbn [andb negb]; keys; cbn [andb negb];
    leftover; unfold fill_role; keys; cbn [negb]; keys; cbn [negb];
    sizes; cbn [bool_decide]; simplify_map_eq; try reflexivity.
Qed.

(** Without tags the two candidates keep their places, equal or not. *)
Lemma classify_untagged a b :
  client_named a = false → server_named a = false →
  client_named b = false → server_named b = false →
  classify_federates [a; b] = inr (a, b).
Proof.
  intros Ca Sa Cb Sb. unfold classify_federates. cbn [foldl].
  rewrite !classify_step_unfold, Ca, Sa, Cb, Sb. cbn [andb].
  leftover. unfold fill_role. keys. cbn [negb]. keys. cbn [negb].
  sizes. cbn [bool_decide]. by simplify_map_eq.
Qed.

End Classification.

(** C1. Reading the claim as it is written, a server directory whose name
    also holds a client tag breaks it; with that excluded, the client-tagged
    directory becomes the client and the server-tagged one the server, in
    both orders of the list. *)
Theorem classify_by_tags_either_order a b :
  a ≠ b →
  BuildSaclay.client_named a = true →
  BuildSaclay.server_named b = true →
  BuildSaclay.client_named b = false →
  BuildSaclay.classify_federates [a; b] = inr (a, b) ∧
  BuildSaclay.classify_federates [b; a] = inr (a, b).
Proof.
  intros Hab Ca Sb Cb. split.
  - rewrite classify_two by done. by rewrite Ca.
  - rewrite classify_two by done. by rewrite Cb, Sb.
Qed.

Lemma classify_by_tags_either_order_witness :
  let a := Ex.echo_dir // "EchoClient" in
  let b := Ex.echo_dir // "EchoServer" in
  a ≠ b ∧ BuildSaclay.client_named a = true ∧
  BuildSaclay.server_named b = true ∧ BuildSaclay.client_named b = false ∧
  BuildSaclay.classify_federates [a; b] = inr (a, b) ∧
  BuildSaclay.classify_federates [b; a] = inr (a, b).
Proof.
  intros a b.
  assert (a ≠ b) as Hab by (vm_compute; discriminate).
  destruct (classify_by_tags_either_order a b Hab) as [Hfirst Hsecond];
    [reflexivity ..|].
  split; [exact Hab|]. do 3 (split; [reflexivity|]).
  split; [exact Hfirst|exact Hsecond].
Defined.

(** The excluded case is the one that fails: a directory with a client tag
    in its name, listed first, is the client whatever else its name holds. *)
Lemma classify_client_tag_listed_first a b :
  a ≠ b → BuildSaclay.client_named b = true →
  BuildSaclay.classify_federates [b; a] = inr (b, a).
Proof.
  intros Hab Cb. rewrite classify_two by (by apply not_eq_sym). by rewrite Cb.
Qed.

(** C1, as stated, fails: [sender] holds a client tag, [recv_src] holds a
    server tag (and the client tag [src]); listed in sorted order,
    [recv_src] comes first and takes the client role. *)
Lemma classify_by_tags_counterexample :
  let a := Ex.echo_dir // "sender" in
  let b := Ex.echo_dir // "recv_src" in
  BuildSaclay.client_named a = true ∧ BuildSaclay.server_named b = true ∧
  sorted [a; b] = [b; a] ∧
  BuildSaclay.classify_federates [b; a] = inr (b, a) ∧
  BuildSaclay.classify_federates [b; a] ≠ inr (a, b).
Proof. by vm_compute. Qed.

(** C4. Two candidates without tags are assigned by position, the first to
    the client and the second to the server; and the list [find_federates]
    hands over is in sorted order. *)
Theorem classify_untagged_by_position a b :
  BuildSaclay.client_named a = false → BuildSaclay.server_named a = false →
  BuildSaclay.client_named b = false → BuildSaclay.server_named b = false →
  BuildSaclay.classify_federates [a; b] = inr (a, b) ∧
  ∀ root main_name fs,
    BuildSaclay.find_federates root main_name fs = inr [a; b] →
    path_lt a b = true.
Proof.
  intros Ca Sa Cb Sb. split; [by apply classify_untagged|].
  intros root main_name fs Hfind.
  destruct (is_dir fs (root // "src-gen" // main_name)) eqn:Hd.
  - rewrite find_federates_unfold in Hfind by done. cbn zeta in Hfind.
    case_bool_decide; [done|]. injection Hfind as Hfind.
    eapply sorted_two_lt; [|done]. apply listed_subdirectories_NoDup.
  - unfold BuildSaclay.find_federates in Hfind. by rewrite Hd in Hfind.
Qed.

Lemma classify_untagged_by_position_witness :
  let fed0 := Ex.echo_dir // "fed0" in
  let fed1 := Ex.echo_dir // "fed1" in
  (BuildSaclay.client_named fed0 = false ∧ BuildSaclay.server_named fed0 = false ∧
   BuildSaclay.client_named fed1 = false ∧ BuildSaclay.server_named fed1 = false) ∧
  BuildSaclay.find_federates Ex.ws "Echo" Ex.fs_nested = inr [fed0; fed1] ∧
  BuildSaclay.classify_federates [fed0; fed1] = inr (fed0, fed1) ∧
  path_lt fed0 fed1 = true.
Proof.
  intros fed0 fed1.
  destruct (classify_untagged_by_position fed0 fed1) as [Hc Hs];
    [reflexivity ..|].
  assert (BuildSaclay.find_federates Ex.ws "Echo" Ex.fs_nested = inr [fed0; fed1])
    as Hfind by (vm_compute; reflexivity).
  split; [repeat split; reflexivity|].
  split; [exact Hfind|]. split; [exact Hc|]. exact (Hs _ _ _ Hfind).
Defined.

(** C5. Two distinct candidates are always classified: the call returns,
    and the two roles go to the two candidates, one each. *)
Theorem classify_two_distinct_returns a b :
  a ≠ b →
  ∃ c s, BuildSaclay.classify_federates [a; b] = inr (c, s) ∧ c ≠ s ∧
         ((c = a ∧ s = b) ∨ (c = b ∧ s = a)).
Proof.
  intros Hab. rewrite classify_two by done.
  destruct (BuildSaclay.client_named a), (BuildSaclay.server_named a),
           (BuildSaclay.client_named b);
    eexists _, _; (split; [reflexivity|]); split; auto.
Qed.

Lemma classify_two_distinct_returns_witness :
  let a := Ex.echo_dir // "EchoServer" in
  let b := Ex.echo_dir // "fed1" in
  a ≠ b ∧
  ∃ c s, BuildSaclay.classify_federates [a; b] = inr (c, s) ∧ c ≠ s ∧
         ((c = a ∧ s = b) ∨ (c = b ∧ s = a)).
Proof.
  intros a b. assert (a ≠ b) as Hab by (vm_compute; discriminate).
  split; [exact Hab|]. exact (classify_two_distinct_returns a b Hab).
Defined.

(** The same list twice is the one input of two entries that is refused. *)
Lemma classify_same_twice_refused :
  BuildSaclay.classify_federates [Ex.echo_dir // "client"; Ex.echo_dir // "client"]
  = inl (Exn RuntimeError [Lit "Unable to classify federates as client/server"]).
Proof. by vm_compute. Qed.

(** ** Locating the binary *)

(** What [**/nm] matches below [d]. *)
Lemma elem_of_rglob fs d nm q :
  q ∈ rglob fs d nm ↔
    is_Some (fs !! q) ∧ d `prefix_of` q ∧ length d < length q ∧ name q = nm ∧
    ∀ n, length d ≤ n < length q → fs !! take n q = Some Dir.
Proof.
  unfold rglob, rglob_match, walk_reaches.
  rewrite list_elem_of_filter, elem_of_keys, !andb_true_iff,
    !bool_decide_eq_true, Nat.ltb_lt, forallb_forall.
  split.
  - intros [(((Hp & Hl) & Hn) & Hw) Hq]. repeat split; try done.
    intros n Hn'. apply is_dir_true, Hw, in_seq. lia.
  - intros (Hq & Hp & Hl & Hn & Hw). repeat split; try done.
    intros n Hn'%in_seq. apply is_dir_true, Hw. lia.
Qed.

Lemma resolve_elf_fixed federate_dir fs :
  is_file fs (fixed_elf federate_dir) = true →
  BuildSaclay.resolve_elf federate_dir fs = inr (fixed_elf federate_dir).
Proof.
  intros Hf. unfold BuildSaclay.resolve_elf. fold (fixed_elf federate_dir).
  by rewrite Hf.
Qed.

Lemma resolve_elf_fallback federate_dir fs :
  is_file fs (fixed_elf federate_dir) = false →
  rglob fs federate_dir "zephyr.elf" ≠ [] →
  ∃ m, BuildSaclay.resolve_elf federate_dir fs = inr m ∧
       m ∈ rglob fs federate_dir "zephyr.elf" ∧
       ∀ q, q ∈ rglob fs federate_dir "zephyr.elf" → path_le m q.
Proof.
  intros Hf Hne. unfold BuildSaclay.resolve_elf. fold (fixed_elf federate_dir).
  rewrite Hf. destruct (sorted_nonempty _ Hne) as (m & rest & Hs).
  cbn zeta. rewrite Hs. exists m. split; [done|]. by apply sorted_first in Hs.
Qed.

Lemma resolve_elf_missing federate_dir fs :
  is_file fs (fixed_elf federate_dir) = false →
  rglob fs federate_dir "zephyr.elf" = [] →
  BuildSaclay.resolve_elf federate_dir fs =
    inl (Exn FileNotFoundError [Lit "Missing zephyr.elf under ";
                                PathV (federate_dir // "build")]).
Proof.
  intros Hf He. unfold BuildSaclay.resolve_elf. fold (fixed_elf federate_dir).
  rewrite Hf. cbn zeta. by rewrite He.
Qed.

(** [_find_federate_elfs] returns nothing but fixed paths of subdirectories. *)
Lemma find_federate_elfs_fixed_only (self : LfBuild.LFBuilder) fs l nm e :
  LfBuild._find_federate_elfs self fs = inr l → (nm, e) ∈ l →
  ∃ d, d ∈ subdirectories fs (LfBuild.src_gen_project_dir self) ∧
       nm = name d ∧ e = fixed_elf d ∧ path_exists fs e = true.
Proof.
  intros Hfind Hin.
  destruct (is_dir fs (LfBuild.src_gen_project_dir self)) eqn:Hd.
  - rewrite find_federate_elfs_unfold in Hfind by done.
    destruct (listed_built fs (LfBuild.src_gen_project_dir self)) as [|d0 l0] eqn:Hl;
      [done|]. injection Hfind as <-.
    change ((nm, e) ∈ (λ d, (name d, fixed_elf d)) <$> (d0 :: l0)) in Hin.
    apply list_elem_of_fmap in Hin as (d & [= -> ->] & Hd').
    rewrite <- Hl in Hd'. apply elem_of_listed_built in Hd'.
    unfold built_federates in Hd'. apply elem_of_filter in Hd' as [He Hs].
    exists d. done.
  - unfold LfBuild._find_federate_elfs, iterdir in Hfind.
    destruct (path_exists fs (LfBuild.src_gen_project_dir self)) eqn:He;
      cbn [negb] in Hfind; [|done].
    unfold is_dir in Hd. unfold path_exists in He.
    destruct (fs !! LfBuild.src_gen_project_dir self) as [[]|]; done.
Qed.

(** C2. In [build-saclay.py], [resolve_elf] returns the fixed path
    [build/zephyr/zephyr.elf] when it is a file; otherwise the least, in
    sorted order, of the entries named [zephyr.elf] found below the
    directory, when there is one; otherwise it fails with
    [FileNotFoundError], whose message names the [build] subdirectory of
    the directory searched. In [lf-build.py] only the fixed path is
    probed: what [_find_federate_elfs] returns are fixed paths of
    subdirectories. *)
Theorem resolve_elf_probe_then_search federate_dir (self : LfBuild.LFBuilder) fs :
  let matches := rglob fs federate_dir "zephyr.elf" in
  (is_file fs (fixed_elf federate_dir) = true →
   BuildSaclay.resolve_elf federate_dir fs = inr (fixed_elf federate_dir)) ∧
  (is_file fs (fixed_elf federate_dir) = false → matches ≠ [] →
   ∃ m, BuildSaclay.resolve_elf federate_dir fs = inr m ∧ m ∈ matches ∧
        ∀ q, q ∈ matches → path_le m q) ∧
  (is_file fs (fixed_elf federate_dir) = false → matches = [] →
   BuildSaclay.resolve_elf federate_dir fs =
     inl (Exn FileNotFoundError [Lit "Missing zephyr.elf under ";
                                 PathV (federate_dir // "build")])) ∧
  (∀ l nm e,
     LfBuild._find_federate_elfs self fs = inr l → (nm, e) ∈ l →
     ∃ d, d ∈ subdirectories fs (LfBuild.src_gen_project_dir self) ∧
          nm = name d ∧ e = fixed_elf d ∧ path_exists fs e = true).
Proof.
  intros matches. split; [apply resolve_elf_fixed|].
  split; [apply resolve_elf_fallback|].
  split; [apply resolve_elf_missing|].
  intros l nm e. apply find_federate_elfs_fixed_only.
Qed.

Lemma resolve_elf_probe_then_search_witness :
  let fed0 := Ex.echo_dir // "fed0" in
  let client := Ex.echo_dir // "EchoClient" in
  (is_file Ex.fs_echo (fixed_elf client) = true ∧
   BuildSaclay.resolve_elf client Ex.fs_echo = inr (fixed_elf client)) ∧
  (is_file Ex.fs_nested (fixed_elf fed0) = false ∧
   rglob Ex.fs_nested fed0 "zephyr.elf" ≠ [] ∧
   ∃ m, BuildSaclay.resolve_elf fed0 Ex.fs_nested = inr m ∧
        ∀ q, q ∈ rglob Ex.fs_nested fed0 "zephyr.elf" → path_le m q).
Proof.
  intros fed0 client.
  assert (∃ self, LfBuild.__init__ Ex.ws Ex.home ["src"; "Echo.lf"] "u@h:p"
                    false Ex.fs_src = inr self) as [self _]
    by (eexists; vm_compute; reflexivity).
  split.
  - split; [reflexivity|].
    apply (resolve_elf_probe_then_search client self Ex.fs_echo). reflexivity.
  - split; [reflexivity|]. split; [by vm_compute|].
    destruct (resolve_elf_probe_then_search fed0 self Ex.fs_nested)
      as (_ & Hfall & _).
    destruct Hfall as (m & Hm & _ & Hmin); [reflexivity|by vm_compute|].
    eauto.
Defined.

(** C2, as stated, fails twice. With no binary anywhere below [fed1], the
    error of [resolve_elf] names [fed1/build], another directory than the
    one searched. And [lf-build.py] has no fallback: with the binary of
    [fed0] only at a nested depth, where [resolve_elf] finds it,
    [_find_federate_elfs] fails. *)
Lemma resolve_elf_counterexample :
  let fed0 := Ex.echo_dir // "fed0" in
  let fed1 := Ex.echo_dir // "fed1" in
  (BuildSaclay.resolve_elf fed1 Ex.fs_nested =
     inl (Exn FileNotFoundError [Lit "Missing zephyr.elf under ";
                                 PathV (fed1 // "build")]) ∧
   fed1 // "build" ≠ fed1) ∧
  (BuildSaclay.resolve_elf fed0 Ex.fs_nested =
     inr (fed0 ++ ["out"; "pre"; "zephyr.elf"]) ∧
   ∃ self,
     LfBuild.__init__ Ex.ws Ex.home ["src"; "Echo.lf"] "u@h:p" false
       Ex.fs_nested = inr self ∧
     LfBuild._find_federate_elfs self Ex.fs_nested =
       inl (Exn LFBuildError
              [Lit "No federate .elf files found. Build may have failed or no federates were generated."])).
Proof.
  intros fed0 fed1.
  split; [split; [vm_compute; reflexivity|vm_compute; discriminate]|].
  split; [vm_compute; reflexivity|].
  eexists. split; [vm_compute; reflexivity|]. vm_compute. reflexivity.
Qed.

(** ** Cleaning *)

Lemma lookup_removed (p : Path) (fs : FS) q :
  filter (λ kv : Path * node, ¬ p `prefix_of` kv.1) fs !! q =
    if decide (p `prefix_of` q) then None else fs !! q.
Proof.
  case_decide as Hp.
  - apply map_lookup_filter_None. right. intros x _ Hn. by apply Hn.
  - destruct (fs !! q) as [x|] eqn:Hq.
    + by apply map_lookup_filter_Some.
    + apply map_lookup_filter_None. by left.
Qed.

Lemma remove_if_exists_spec p w :
  is_file (fs w) p = false →
  ∃ w', remove_if_exists p w = (inr tt, w') ∧
        invocations w' = invocations w ∧
        (path_exists (fs w) p = false → w' = w) ∧
        ∀ q, fs w' !! q =
             if decide (p `prefix_of` q ∧ is_dir (fs w) p = true) then None
             else fs w !! q.
Proof.
  intros Hf. unfold remove_if_exists, asking, rmtree, is_file, is_dir, path_exists in *.
  unfold mbind, M_bind, bind. destruct (fs w !! p) as [[data|]|] eqn:Hp; [done| |].
  - rewrite Hp. eexists. split; [done|]. split; [done|]. split; [done|].
    intros q. cbn [fs]. rewrite lookup_removed.
    repeat case_decide; naive_solver.
  - exists w. split; [done|]. split; [done|]. split; [done|].
    intros q. rewrite decide_False; [done|]. by intros [_ ?].
Qed.

Lemma bind_ok {A B} (m : M A) (k : A → M B) w a w' :
  m w = (inr a, w') → (m ≫= k) w = k a w'.
Proof. intros H. unfold mbind, M_bind, bind. by rewrite H. Qed.

Lemma bind_raise {A B} (m : M A) (k : A → M B) w e w' :
  m w = (inl e, w') → (m ≫= k) w = (inl e, w').
Proof. intros H. unfold mbind, M_bind, bind. by rewrite H. Qed.

Lemma clean_unfold (self : LfBuild.LFBuilder) :
  LfBuild.clean self =
    (remove_if_exists (LfBuild.fed_build_dir self) ;;
     remove_if_exists (LfBuild.src_gen_project_dir self) ;; mret tt).
Proof. reflexivity. Qed.

Lemma not_file_lookup (fs : FS) p :
  is_file fs p = false → fs !! p = Some Dir ∨ fs !! p = None.
Proof. unfold is_file. destruct (fs !! p) as [[]|]; auto. done. Qed.

Lemma path_exists_false (fs : FS) p : path_exists fs p = false ↔ fs !! p = None.
Proof. unfold path_exists. destruct (fs !! p); split; done. Qed.

Lemma clear_src_gen_spec root w :
  let src_gen := root // "src-gen" in
  is_file (fs w) src_gen = false →
  ∃ w', BuildSaclay.clear_src_gen root w = (inr tt, w') ∧
        invocations w' = invocations w ∧
        (∀ q, ¬ under src_gen q → fs w' !! q = fs w !! q) ∧
        (∀ q, under src_gen q → is_dir (fs w) src_gen = true → fs w' !! q = None) ∧
        path_exists (fs w') src_gen = false ∧
        (path_exists (fs w) src_gen = false → w' = w).
Proof.
  intros src_gen Hf.
  destruct (remove_if_exists_spec src_gen w Hf) as (w' & Hrun & Hinv & Hnoop & Hfs).
  exists w'. split; [exact Hrun|]. split; [done|]. unfold under.
  split; [|split; [|split; [|done]]].
  - intros q Hq. rewrite Hfs. rewrite decide_False; [done|]. by intros [? _].
  - intros q Hq Hd. rewrite Hfs. by rewrite decide_True.
  - apply path_exists_false. rewrite Hfs.
    destruct (decide _) as [|Hc]; [done|].
    destruct (not_file_lookup _ _ Hf) as [Hd|Hn]; [|done].
    exfalso. apply Hc. split; [done|]. by apply is_dir_true.
Qed.

Lemma clean_spec (self : LfBuild.LFBuilder) w :
  let build_dir := LfBuild.fed_build_dir self in
  let project_dir := LfBuild.src_gen_project_dir self in
  is_file (fs w) build_dir = false →
  is_file (fs w) project_dir = false →
  ∃ w', LfBuild.clean self w = (inr tt, w') ∧
        invocations w' = invocations w ∧
        (∀ q, ¬ under build_dir q → ¬ under project_dir q →
              fs w' !! q = fs w !! q) ∧
        (∀ q, fs w' !! q = None ∨ fs w' !! q = fs w !! q) ∧
        path_exists (fs w') build_dir = false ∧
        path_exists (fs w') project_dir = false ∧
        (path_exists (fs w) build_dir = false →
         path_exists (fs w) project_dir = false → w' = w).
Proof.
  intros B P HB HP.
  destruct (remove_if_exists_spec B w HB) as (w1 & Hrun1 & Hinv1 & Hnoop1 & Hfs1).
  assert (is_file (fs w1) P = false) as HP1.
  { unfold is_file. rewrite Hfs1. destruct (decide _); [done|]. exact HP. }
  destruct (remove_if_exists_spec P w1 HP1) as (w2 & Hrun2 & Hinv2 & Hnoop2 & Hfs2).
  exists w2. split.
  { rewrite clean_unfold. fold B P.
    rewrite (bind_ok _ _ _ _ _ Hrun1), (bind_ok _ _ _ _ _ Hrun2). reflexivity. }
  split; [congruence|]. unfold under.
  split; [|split; [|split; [|split]]].
  - intros q HqB HqP. rewrite Hfs2, Hfs1.
    rewrite !decide_False; [done| |]; by intros [? _].
  - intros q. rewrite Hfs2, Hfs1. repeat case_decide; auto.
  - apply path_exists_false. rewrite Hfs2, Hfs1.
    destruct (decide _) as [|_]; [done|]. destruct (decide _) as [|Hc]; [done|].
    destruct (not_file_lookup _ _ HB) as [Hd|Hn]; [|done].
    exfalso. apply Hc. split; [done|]. by apply is_dir_true.
  - apply path_exists_false. rewrite Hfs2.
    destruct (decide _) as [|Hc]; [done|].
    destruct (not_file_lookup _ _ HP1) as [Hd|Hn]; [|done].
    exfalso. apply Hc. split; [done|]. by apply is_dir_true.
  - intros HnB HnP. rewrite <- (Hnoop1 HnB) in HnP.
    by rewrite (Hnoop2 HnP), (Hnoop1 HnB).
Qed.

(** The builder [__init__] returns, field by field. *)
Lemma init_fields the_cwd home source remote skip fs self :
  LfBuild.__init__ the_cwd home source remote skip fs = inr self →
  self = {| LfBuild.source_file := source;
            LfBuild.remote_url := remote;
            LfBuild.skip_ssh := skip;
            LfBuild.cwd := the_cwd;
            LfBuild.lfc_path := home ++ ["reactor-uc"; "lfc"; "bin"; "lfc-dev"];
            LfBuild.base_name := stem source;
            LfBuild.src_gen_base_dir := the_cwd // "src-gen";
            LfBuild.src_gen_project_dir := the_cwd // "src-gen" // stem source;
            LfBuild.fed_build_dir := the_cwd // (stem source ++ "_build") |}.
Proof.
  unfold LfBuild.__init__. intros H.
  destruct (LfBuild._validate_source_file _ _); [done|].
  destruct skip; cbn [negb] in H.
  - by injection H as <-.
  - destruct (LfBuild._validate_remote_url _); [done|]. by injection H as <-.
Qed.

Lemma string_length_app (s t : string) :
  String.length (s ++ t)%string = String.length s + String.length t.
Proof. induction s as [|c s IH]; [done|]. simpl. by rewrite IH. Qed.

Lemma build_dir_not_src_gen (base : string) :
  (base ++ "_build")%string ≠ "src-gen".
Proof.
  intros H. assert (String.length (base ++ "_build")%string = 7) as Hlen by (by rewrite H).
  rewrite string_length_app in Hlen. simpl in Hlen.
  destruct base as [|c [|c' base]]; simpl in *; try lia; discriminate.
Qed.

Lemma under_app (d q : Path) : under d q ↔ ∃ rest, q = d ++ rest.
Proof. reflexivity. Qed.

(** The generated output of another program lies outside both directories
    that [clean] removes. *)
Lemma other_program_outside the_cwd home source remote skip fs self other q :
  LfBuild.__init__ the_cwd home source remote skip fs = inr self →
  other ≠ stem source →
  under (the_cwd // "src-gen" // other) q →
  ¬ under (LfBuild.fed_build_dir self) q ∧
  ¬ under (LfBuild.src_gen_project_dir self) q.
Proof.
  intros Hinit Hother [rest ->]. apply init_fields in Hinit as ->.
  cbn [LfBuild.fed_build_dir LfBuild.src_gen_project_dir]. unfold child.
  split; intros [rest' Heq]; rewrite <- !app_assoc in Heq;
    apply app_inv_head in Heq; simpl in Heq; injection Heq as Heq;
    [by apply symmetry, build_dir_not_src_gen in Heq|congruence].
Qed.

(** What a successful [clean] removes: every entry in the tree of a
    directory of its two that was there. *)
Lemma clean_removes_below (self : LfBuild.LFBuilder) w w' :
  let build_dir := LfBuild.fed_build_dir self in
  let project_dir := LfBuild.src_gen_project_dir self in
  is_file (fs w) build_dir = false →
  is_file (fs w) project_dir = false →
  LfBuild.clean self w = (inr tt, w') →
  ∀ q, fs w' !! q =
       if decide ((under build_dir q ∧ is_dir (fs w) build_dir = true) ∨
                  (under project_dir q ∧ is_dir (fs w) project_dir = true))
       then None else fs w !! q.
Proof.
  intros B P HB HP Hclean.
  destruct (remove_if_exists_spec B w HB) as (w1 & Hrun1 & _ & _ & Hq1).
  assert (is_file (fs w1) P = false) as HP1.
  { unfold is_file in *. rewrite Hq1. by destruct (decide _). }
  destruct (remove_if_exists_spec P w1 HP1) as (w2 & Hrun2 & _ & _ & Hq2).
  rewrite clean_unfold in Hclean. fold B P in Hclean.
  rewrite (bind_ok _ _ _ _ _ Hrun1), (bind_ok _ _ _ _ _ Hrun2) in Hclean.
  injection Hclean as <-.
  assert (is_dir (fs w1) P =
          if decide (under B P ∧ is_dir (fs w) B = true) then false
          else is_dir (fs w) P) as HdP.
  { unfold is_dir at 1. rewrite Hq1. unfold under. by destruct (decide _). }
  intros q. rewrite Hq2, Hq1, HdP. unfold under in *.
  destruct (decide (B `prefix_of` P ∧ is_dir (fs w) B = true)) as [[HBP HdB]|HnBP].
  - rewrite decide_False by (by intros [_ ?]).
    destruct (decide (B `prefix_of` q ∧ is_dir (fs w) B = true)) as [Hq|Hq].
    + by rewrite decide_True by (by left).
    + destruct (decide (_ ∨ _)) as [[Hc|[Hc _]]|Hc]; [done| |done].
      exfalso. apply Hq. split; [by etrans|done].
  - destruct (decide (P `prefix_of` q ∧ is_dir (fs w) P = true)) as [Hq|Hq].
    + by rewrite decide_True by (by right).
    + destruct (decide (B `prefix_of` q ∧ is_dir (fs w) B = true)) as [Hq'|Hq'].
      * by rewrite decide_True by (by left).
      * by rewrite decide_False by (by intros [?|?]).
Qed.

(** C8. In [lf-build.py], for a source whose stem is a proper name (not
    [.] or [..], the stems of [..lf] and [...lf]), [clean] succeeds when
    neither of its two directories is a regular file: afterwards both are
    gone with everything that was in them, nothing else is created or
    changed, every path outside them is as before (the generated output of
    any other program among them), no process was started, and when both
    were absent the world is the same.
    In [build-saclay.py], [clear_src_gen] does the same for the whole
    [src-gen] directory of the project root, whatever programs have output
    there. *)
Theorem clean_removes_its_directories
    the_cwd home source remote skip (self : LfBuild.LFBuilder) root w :
  let build_dir := LfBuild.fed_build_dir self in
  let project_dir := LfBuild.src_gen_project_dir self in
  let src_gen := root // "src-gen" in
  (LfBuild.__init__ the_cwd home source remote skip (fs w) = inr self →
   stem source ≠ "." → stem source ≠ ".." →
   is_file (fs w) build_dir = false →
   is_file (fs w) project_dir = false →
   ∃ w', LfBuild.clean self w = (inr tt, w') ∧
         invocations w' = invocations w ∧
         (∀ q, ¬ under build_dir q → ¬ under project_dir q →
               fs w' !! q = fs w !! q) ∧
         (∀ other q, other ≠ stem source → other ≠ "." → other ≠ ".." →
                     under (the_cwd // "src-gen" // other) q →
                     fs w' !! q = fs w !! q) ∧
         (∀ q, fs w' !! q = None ∨ fs w' !! q = fs w !! q) ∧
         (is_dir (fs w) build_dir = true →
          ∀ q, under build_dir q → fs w' !! q = None) ∧
         (is_dir (fs w) project_dir = true →
          ∀ q, under project_dir q → fs w' !! q = None) ∧
         path_exists (fs w') build_dir = false ∧
         path_exists (fs w') project_dir = false ∧
         (path_exists (fs w) build_dir = false →
          path_exists (fs w) project_dir = false → w' = w)) ∧
  (is_file (fs w) src_gen = false →
   ∃ w', BuildSaclay.clear_src_gen root w = (inr tt, w') ∧
         invocations w' = invocations w ∧
         (∀ q, ¬ under src_gen q → fs w' !! q = fs w !! q) ∧
         (∀ q, under src_gen q → is_dir (fs w) src_gen = true →
               fs w' !! q = None) ∧
         path_exists (fs w') src_gen = false ∧
         (path_exists (fs w) src_gen = false → w' = w)).
Proof.
  intros build_dir project_dir src_gen. split.
  - intros Hinit _ _ HB HP.
    destruct (clean_spec self w HB HP)
      as (w' & Hrun & Hinv & Hframe & Hless & HgoneB & HgoneP & Hnoop).
    pose proof (clean_removes_below self w w' HB HP Hrun) as Hbelow.
    fold build_dir project_dir in Hbelow.
    exists w'. split; [done|]. split; [done|]. split; [done|]. split.
    { intros other q Hother _ _ Hq.
      destruct (other_program_outside _ _ _ _ _ _ _ _ _ Hinit Hother Hq).
      by apply Hframe. }
    split; [done|]. split.
    { intros Hd q Hq. rewrite Hbelow. by rewrite decide_True by (by left). }
    split.
    { intros Hd q Hq. rewrite Hbelow. by rewrite decide_True by (by right). }
    done.
  - by apply clear_src_gen_spec.
Qed.

Lemma clean_removes_its_directories_witness :
  let w := mkWorld Ex.fs_two_programs [] in
  let other := Ex.ws ++ ["src-gen"; "Other"; "fed"; "main.c"] in
  ∃ self,
    LfBuild.__init__ Ex.ws Ex.home ["src"; "Echo.lf"] "u@h:p" false (fs w)
      = inr self ∧
    (stem ["src"; "Echo.lf"] ≠ "." ∧ stem ["src"; "Echo.lf"] ≠ "..") ∧
    (is_file (fs w) (LfBuild.fed_build_dir self) = false ∧
     is_file (fs w) (LfBuild.src_gen_project_dir self) = false) ∧
    ∃ w', LfBuild.clean self w = (inr tt, w') ∧
          fs w' !! other = Some (File "other") ∧
          fs w' !! fixed_elf (Ex.echo_dir // "EchoClient") = None ∧
          path_exists (fs w') Ex.echo_dir = false.
Proof.
  intros w other. eexists. split; [vm_compute; reflexivity|].
  split; [split; vm_compute; discriminate|].
  split; [split; vm_compute; reflexivity|].
  match goal with
  | |- ∃ w', LfBuild.clean ?self _ = _ ∧ _ =>
      destruct (clean_removes_its_directories
                  Ex.ws Ex.home ["src"; "Echo.lf"] "u@h:p" false self Ex.ws w)
        as [Hclean _]
  end.
  destruct Hclean
    as (w' & Hrun & _ & _ & Hothers & _ & _ & Hbelow & _ & Hgone & _);
    [vm_compute; reflexivity|vm_compute; discriminate|vm_compute; discriminate
    |vm_compute; reflexivity|vm_compute; reflexivity|].
  exists w'. split; [exact Hrun|]. split; [|split; [|exact Hgone]].
  - rewrite (Hothers "Other" other);
      [vm_compute; reflexivity|compute_done|compute_done|compute_done|].
    exists ["fed"; "main.c"]. reflexivity.
  - apply Hbelow; [vm_compute; reflexivity|].
    exists ["EchoClient"; "build"; "zephyr"; "zephyr.elf"]. reflexivity.
Defined.

(** C8, as stated, fails on [build-saclay.py]: [clear_src_gen] removes the
    generated output of every program, that of [Other] with that of
    [Echo]. *)
Lemma clear_src_gen_removes_other_programs :
  let w := mkWorld Ex.fs_two_programs [] in
  let other := Ex.ws ++ ["src-gen"; "Other"; "fed"; "main.c"] in
  let after := BuildSaclay.clear_src_gen Ex.ws w in
  fs w !! other = Some (File "other") ∧
  after.1 = inr tt ∧ fs after.2 !! other = None.
Proof. intros w other after. repeat split; vm_compute; reflexivity. Qed.

(** ** The destination of the transfer *)

Lemma re_match_many cls items c s :
  LfBuild.re_match (LfBuild.Many cls :: items) (String c s) =
    cls c && (LfBuild.re_match items s || LfBuild.re_match (LfBuild.Many cls :: items) s).
Proof. reflexivity. Qed.

Lemma has_char_cons ch c s : has_char ch s = true → has_char ch (String c s) = true.
Proof. intros H. simpl. rewrite H. apply orb_true_r. Qed.

(** A string that matches holds every character the pattern asks for. *)
Lemma re_match_needs_char items ch s :
  In (LfBuild.One (LfBuild.is_char ch)) items →
  LfBuild.re_match items s = true → has_char ch s = true.
Proof.
  revert s. induction items as [|[cls|cls] items IH]; intros s Hin Hm.
  - destruct Hin.
  - destruct s as [|c s]; [done|]. cbn in Hm.
    apply andb_true_iff in Hm as [Hc Hm].
    destruct Hin as [[= ->]|Hin].
    + unfold LfBuild.is_char in Hc. simpl. by rewrite Hc.
    + apply has_char_cons. by apply IH.
  - destruct Hin as [|Hin]; [done|].
    induction s as [|c s IHs]; [done|].
    rewrite re_match_many in Hm. apply andb_true_iff in Hm as [_ Hm].
    apply has_char_cons. apply orb_true_iff in Hm as [Hm|Hm]; auto.
Qed.

(** A destination without [@], or without [:], does not match. *)
Lemma remote_url_needs_at_and_colon remote :
  has_char "@" remote = false ∨ has_char ":" remote = false →
  LfBuild.re_match LfBuild.remote_url_pattern remote = false.
Proof.
  intros Hmiss.
  destruct (LfBuild.re_match LfBuild.remote_url_pattern remote) eqn:Hm; [|done].
  destruct Hmiss as [Hmiss|Hmiss]; rewrite <- Hmiss; symmetry;
    (eapply re_match_needs_char; [|exact Hm]); simpl; auto.
Qed.

Lemma validate_source_file_ok (self : LfBuild.LFBuilder) fs :
  suffix (LfBuild.source_file self) = ".lf" →
  is_file fs (LfBuild.cwd self ++ LfBuild.source_file self) = true →
  LfBuild._validate_source_file self fs = inr tt.
Proof.
  intros Hs Hf. unfold LfBuild._validate_source_file.
  rewrite bool_decide_eq_true_2 by done. cbn [negb].
  assert (path_exists fs (LfBuild.cwd self ++ LfBuild.source_file self) = true) as ->.
  { apply path_exists_true. apply is_file_true in Hf as [? ->]. eauto. }
  by rewrite Hf.
Qed.

Lemma init_rejects_remote the_cwd home source remote fs :
  LfBuild.re_match LfBuild.remote_url_pattern remote = false →
  suffix source = ".lf" → is_file fs (the_cwd ++ source) = true →
  LfBuild.__init__ the_cwd home source remote false fs =
    inl (Exn LFBuildError [Lit "Invalid remote URL format: "; StrV remote;
                           Lit ". Expected format: user@host:path"]).
Proof.
  intros Hm Hs Hf. unfold LfBuild.__init__.
  rewrite validate_source_file_ok by done. cbn [negb].
  unfold LfBuild._validate_remote_url. cbn [LfBuild.remote_url]. by rewrite Hm.
Qed.

Lemma init_raises_lfbuilderror the_cwd home source remote skip fs e :
  LfBuild.__init__ the_cwd home source remote skip fs = inl e →
  ∃ msg, e = Exn LFBuildError msg.
Proof.
  unfold LfBuild.__init__, LfBuild._validate_source_file, LfBuild._validate_remote_url.
  intros H. repeat (case_match; simplify_eq/=); eauto.
Qed.

Lemma main_rejects_remote the_cwd home exec c source remote w :
  LfBuild.re_match LfBuild.remote_url_pattern remote = false →
  LfBuild.main the_cwd home exec c source remote false w = (1%Z, w).
Proof.
  intros Hm. unfold LfBuild.main.
  assert (∃ e, LfBuild.__init__ the_cwd home source remote false (fs w) = inl e)
    as [e He].
  { unfold LfBuild.__init__, LfBuild._validate_remote_url.
    destruct (LfBuild._validate_source_file _ _); [eauto|].
    cbn [negb LfBuild.remote_url]. rewrite Hm. cbn [negb]. eauto. }
  erewrite bind_raise by (unfold reading; rewrite He; reflexivity).
  by destruct e as [[] ?|].
Qed.

Lemma scp_binaries_invocation exec binaries remote w :
  invocations (BuildSaclay.scp_binaries exec binaries remote w).2 =
    invocations w ++ [[Lit "scp"] ++ (PathV <$> binaries) ++ [StrV remote]].
Proof.
  unfold BuildSaclay.scp_binaries, BuildSaclay.run, subprocess_run.
  unfold mbind, M_bind, bind.
  destruct (exec None _ (fs w)) as [[|rc out err] fs']; [done|].
  by case_bool_decide.
Qed.

(** C6. In [lf-build.py] without [--no-ssh], a destination that does not
    match the pattern is rejected when the builder is made, with the
    error that names it when the source file is valid, and [main] returns
    1 with the world untouched: no process was started, for any command.
    In [build-saclay.py], [scp_binaries] looks at no pattern: it hands
    the destination to [scp] as it is. *)
Theorem malformed_remote_rejected_by_lf_build_only
    the_cwd home exec source remote w binaries :
  LfBuild.re_match LfBuild.remote_url_pattern remote = false →
  (suffix source = ".lf" → is_file (fs w) (the_cwd ++ source) = true →
   LfBuild.__init__ the_cwd home source remote false (fs w) =
     inl (Exn LFBuildError [Lit "Invalid remote URL format: "; StrV remote;
                            Lit ". Expected format: user@host:path"])) ∧
  (∀ c, LfBuild.main the_cwd home exec c source remote false w = (1%Z, w)) ∧
  invocations (BuildSaclay.scp_binaries exec binaries remote w).2 =
    invocations w ++ [[Lit "scp"] ++ (PathV <$> binaries) ++ [StrV remote]].
Proof.
  intros Hm. split; [|split].
  - intros Hs Hf. by apply init_rejects_remote.
  - intros c. by apply main_rejects_remote.
  - apply scp_binaries_invocation.
Qed.

Lemma malformed_remote_rejected_by_lf_build_only_witness :
  let w := mkWorld Ex.fs_echo [] in
  LfBuild.re_match LfBuild.remote_url_pattern "saclay.iot-lab.info:bin" = false ∧
  LfBuild.main Ex.ws Ex.home Ex.compiler_ok LfBuild.All ["src"; "Echo.lf"]
    "saclay.iot-lab.info:bin" false w = (1%Z, w) ∧
  LfBuild.main Ex.ws Ex.home Ex.compiler_ok LfBuild.Ssh ["src"; "Echo.lf"]
    "saclay.iot-lab.info:bin" false w = (1%Z, w).
Proof.
  intros w.
  assert (LfBuild.re_match LfBuild.remote_url_pattern "saclay.iot-lab.info:bin"
          = false) as Hm
    by (apply remote_url_needs_at_and_colon; left; reflexivity).
  destruct (malformed_remote_rejected_by_lf_build_only
              Ex.ws Ex.home Ex.compiler_ok ["src"; "Echo.lf"]
              "saclay.iot-lab.info:bin" w [] Hm) as (_ & Hmain & _).
  split; [exact Hm|]. split; apply Hmain.
Defined.

(** C6, as stated, fails on [build-saclay.py]: with a destination that has
    neither [@] nor [:], the run compiles, stages and starts [scp] with
    that destination; it ends with status 0 when [scp] does. *)
Lemma build_saclay_transfers_to_malformed_remote :
  let w := mkWorld Ex.fs_src [] in
  let staged := Ex.ws ++ BuildSaclay.DEST_DIR in
  let run := BuildSaclay.main Ex.home Ex.compiler_ok
               (Ex.ws ++ ["src"; "Echo.lf"]) Ex.ws "nowhere" w in
  LfBuild.re_match LfBuild.remote_url_pattern "nowhere" = false ∧
  run.1 = 0%Z ∧
  invocations run.2 =
    [[PathV Ex.lfc; PathV (Ex.ws ++ ["src"; "Echo.lf"])];
     [Lit "scp"; PathV (staged // "echo_client.elf");
      PathV (staged // "echo_server.elf"); StrV "nowhere"]].
Proof. intros w staged run. repeat split; vm_compute; reflexivity. Qed.

(** ** Skipping the transfer *)

Lemma init_skip_ssh the_cwd home source remote fs :
  suffix source = ".lf" → is_file fs (the_cwd ++ source) = true →
  ∃ self, LfBuild.__init__ the_cwd home source remote true fs = inr self.
Proof.
  intros Hs Hf. unfold LfBuild.__init__.
  rewrite validate_source_file_ok by done. cbn [negb]. eauto.
Qed.

Lemma ssh_skipped exec (self : LfBuild.LFBuilder) w :
  LfBuild.skip_ssh self = true → LfBuild.ssh exec self w = (inr tt, w).
Proof. intros Hs. unfold LfBuild.ssh. by rewrite Hs. Qed.

Lemma main_skip_ssh_ignores_remote the_cwd home exec c source remote remote' w :
  LfBuild.main the_cwd home exec c source remote true w =
  LfBuild.main the_cwd home exec c source remote' true w.
Proof.
  unfold LfBuild.main, LfBuild.__init__, reading.
  unfold mbind, M_bind, bind. cbn [negb].
  change (LfBuild._validate_source_file
            {| LfBuild.source_file := source; LfBuild.remote_url := remote';
               LfBuild.skip_ssh := true; LfBuild.cwd := the_cwd;
               LfBuild.lfc_path := home ++ ["reactor-uc"; "lfc"; "bin"; "lfc-dev"];
               LfBuild.base_name := stem source;
               LfBuild.src_gen_base_dir := the_cwd // "src-gen";
               LfBuild.src_gen_project_dir := the_cwd // "src-gen" // stem source;
               LfBuild.fed_build_dir := the_cwd // (stem source ++ "_build")%string |}
            (fs w))
    with (LfBuild._validate_source_file
            {| LfBuild.source_file := source; LfBuild.remote_url := remote;
               LfBuild.skip_ssh := true; LfBuild.cwd := the_cwd;
               LfBuild.lfc_path := home ++ ["reactor-uc"; "lfc"; "bin"; "lfc-dev"];
               LfBuild.base_name := stem source;
               LfBuild.src_gen_base_dir := the_cwd // "src-gen";
               LfBuild.src_gen_project_dir := the_cwd // "src-gen" // stem source;
               LfBuild.fed_build_dir := the_cwd // (stem source ++ "_build")%string |}
            (fs w)).
  destruct (LfBuild._validate_source_file _ (fs w)) as [e|[]]; [reflexivity|].
  destruct c; reflexivity.
Qed.

(** C10. With [--no-ssh] the destination is never looked at: whatever the
    string, the builder is made as soon as the source file is valid, [ssh]
    returns at once leaving the world as it is, and every command ends as
    it does with the default destination. *)
Theorem skip_ssh_never_validates the_cwd home exec source remote w :
  suffix source = ".lf" → is_file (fs w) (the_cwd ++ source) = true →
  ∃ self,
    LfBuild.__init__ the_cwd home source remote true (fs w) = inr self ∧
    LfBuild.remote_url self = remote ∧
    (∀ w', LfBuild.ssh exec self w' = (inr tt, w')) ∧
    ∀ c, LfBuild.main the_cwd home exec c source remote true w =
         LfBuild.main the_cwd home exec c source "hailo@hailo-desktop:~/lf" true w.
Proof.
  intros Hs Hf.
  destruct (init_skip_ssh the_cwd home source remote (fs w) Hs Hf) as [self Hinit].
  exists self. split; [exact Hinit|].
  apply init_fields in Hinit as Hself. split; [by rewrite Hself|]. split.
  - intros w'. apply ssh_skipped. by rewrite Hself.
  - intros c. apply main_skip_ssh_ignores_remote.
Qed.

Lemma skip_ssh_never_validates_witness :
  let w := mkWorld Ex.fs_src [] in
  LfBuild.re_match LfBuild.remote_url_pattern "nowhere" = false ∧
  (suffix ["src"; "Echo.lf"] = ".lf" ∧
   is_file (fs w) (Ex.ws ++ ["src"; "Echo.lf"]) = true) ∧
  ∃ self,
    LfBuild.__init__ Ex.ws Ex.home ["src"; "Echo.lf"] "nowhere" true (fs w)
      = inr self ∧
    LfBuild.ssh Ex.compiler_ok self w = (inr tt, w) ∧
    (LfBuild.main Ex.ws Ex.home Ex.compiler_ok LfBuild.All ["src"; "Echo.lf"]
       "nowhere" true w).1 = 0%Z.
Proof.
  intros w. split; [reflexivity|]. split; [split; reflexivity|].
  destruct (skip_ssh_never_validates Ex.ws Ex.home Ex.compiler_ok
              ["src"; "Echo.lf"] "nowhere" w)
    as (self & Hinit & _ & Hssh & Hmain); [reflexivity ..|].
  exists self. split; [exact Hinit|]. split; [apply Hssh|].
  rewrite Hmain. vm_compute. reflexivity.
Defined.

(** ** A compiler that fails *)

Lemma build_compile_failure exec (self : LfBuild.LFBuilder) lfc source the_cwd
    w rc out err fs' :
  let argv := [PathV lfc; PathV source] in
  LfBuild.lfc_path self = lfc → LfBuild.source_file self = source →
  LfBuild.cwd self = the_cwd →
  exec (Some the_cwd) argv (fs w) = (Exited rc out err, fs') →
  rc ≠ 0%Z →
  LfBuild.build exec self w =
    (inl (Exn LFBuildError [Lit "LFC compilation failed:"; Lit nl; StrV err]),
     mkWorld fs' (invocations w ++ [argv])).
Proof.
  intros argv <- <- <- Hexec Hrc. unfold LfBuild.build.
  apply bind_raise. unfold try_except. fold argv.
  rewrite (bind_raise _ _ w
             (CalledProcessError rc argv (Some out) (Some err))
             (mkWorld fs' (invocations w ++ [argv]))); [reflexivity|].
  unfold subprocess_run. rewrite Hexec.
  by rewrite bool_decide_eq_false_2.
Qed.

Lemma run_lfc_failure home exec lf_path root w rc out err fs' :
  let lfc := home ++ ["reactor-uc"; "lfc"; "bin"; "lfc-dev"] in
  let argv := [PathV lfc; PathV lf_path] in
  is_file (fs w) lfc = true →
  exec (Some root) argv (fs w) = (Exited rc out err, fs') →
  rc ≠ 0%Z →
  BuildSaclay.run_lfc home exec lf_path root w =
    (inl (CalledProcessError rc argv None None),
     mkWorld fs' (invocations w ++ [argv])).
Proof.
  intros lfc argv Hlfc Hexec Hrc. unfold BuildSaclay.run_lfc. fold lfc.
  erewrite bind_ok by (unfold asking; reflexivity). rewrite Hlfc. cbn [negb].
  unfold BuildSaclay.run. apply bind_raise.
  unfold subprocess_run. fold argv. rewrite Hexec.
  by rewrite bool_decide_eq_false_2.
Qed.

Lemma lf_main_compile_failure the_cwd home exec source remote no_ssh self c
    w w1 rc out err fs' :
  let argv := [PathV (home ++ ["reactor-uc"; "lfc"; "bin"; "lfc-dev"]);
               PathV source] in
  LfBuild.__init__ the_cwd home source remote no_ssh (fs w) = inr self →
  (c = LfBuild.Build ∧ w1 = w) ∨
  (c = LfBuild.All ∧ LfBuild.clean self w = (inr tt, w1)) →
  exec (Some the_cwd) argv (fs w1) = (Exited rc out err, fs') →
  rc ≠ 0%Z →
  LfBuild.build exec self w1 =
    (inl (Exn LFBuildError [Lit "LFC compilation failed:"; Lit nl; StrV err]),
     mkWorld fs' (invocations w1 ++ [argv])) ∧
  LfBuild.main the_cwd home exec c source remote no_ssh w =
    (1%Z, mkWorld fs' (invocations w1 ++ [argv])).
Proof.
  intros argv Hinit Hc Hexec Hrc.
  assert (LfBuild.build exec self w1 =
    (inl (Exn LFBuildError [Lit "LFC compilation failed:"; Lit nl; StrV err]),
     mkWorld fs' (invocations w1 ++ [argv]))) as Hbuild.
  { pose proof (init_fields _ _ _ _ _ _ _ Hinit) as Hself.
    apply (build_compile_failure exec self _ _ the_cwd w1 rc out err fs');
      try done; by rewrite Hself. }
  split; [exact Hbuild|].
  unfold LfBuild.main.
  erewrite bind_ok by (unfold reading; rewrite Hinit; reflexivity).
  destruct Hc as [[-> ->]|[-> Hclean]]; cbn [LfBuild.command_method].
  - by rewrite Hbuild.
  - unfold LfBuild.all. erewrite bind_ok by exact Hclean.
    erewrite bind_raise by exact Hbuild. reflexivity.
Qed.

Lemma saclay_main_compile_failure home exec lf_path root remote
    w w1 rc out err fs' :
  let lfc := home ++ ["reactor-uc"; "lfc"; "bin"; "lfc-dev"] in
  let argv := [PathV lfc; PathV lf_path] in
  suffix lf_path = ".lf" → is_file (fs w) lf_path = true →
  BuildSaclay.clear_src_gen root w = (inr tt, w1) →
  is_file (fs w1) lfc = true →
  exec (Some root) argv (fs w1) = (Exited rc out err, fs') →
  rc ≠ 0%Z →
  BuildSaclay.pipeline home exec lf_path root remote w =
    (inl (CalledProcessError rc argv None None),
     mkWorld fs' (invocations w1 ++ [argv])) ∧
  BuildSaclay.main home exec lf_path root remote w =
    (1%Z, mkWorld fs' (invocations w1 ++ [argv])).
Proof.
  intros lfc argv Hs Hf Hclear Hlfc Hexec Hrc.
  assert (BuildSaclay.pipeline home exec lf_path root remote w =
    (inl (CalledProcessError rc argv None None),
     mkWorld fs' (invocations w1 ++ [argv]))) as Hpipe.
  { unfold BuildSaclay.pipeline. erewrite bind_ok by exact Hclear.
    apply bind_raise. by apply (run_lfc_failure _ _ _ _ _ _ out err). }
  split; [exact Hpipe|].
  unfold BuildSaclay.main. rewrite bool_decide_eq_true_2 by done.
  rewrite Hf. cbn [negb orb]. by rewrite Hpipe.
Qed.

(** C9. When the compiler exits with a status other than 0, both scripts
    stop there: the world they leave is the one the compiler left, with
    the call of the compiler as the one process started, and the exit
    status is 1. In [lf-build.py] ([build] and [all]) the error raised
    carries the captured error output of the compiler; in
    [build-saclay.py] it is the [CalledProcessError] of [subprocess.run],
    which holds the status and the command and no output. *)
Theorem compile_failure_halts_the_run
    the_cwd home exec source remote no_ssh self c lf_path root remote'
    w w1 w2 rc out err fs1 fs2 :
  let lfc := home ++ ["reactor-uc"; "lfc"; "bin"; "lfc-dev"] in
  rc ≠ 0%Z →
  (LfBuild.__init__ the_cwd home source remote no_ssh (fs w) = inr self →
   (c = LfBuild.Build ∧ w1 = w) ∨
   (c = LfBuild.All ∧ LfBuild.clean self w = (inr tt, w1)) →
   exec (Some the_cwd) [PathV lfc; PathV source] (fs w1)
     = (Exited rc out err, fs1) →
   LfBuild.build exec self w1 =
     (inl (Exn LFBuildError [Lit "LFC compilation failed:"; Lit nl; StrV err]),
      mkWorld fs1 (invocations w1 ++ [[PathV lfc; PathV source]])) ∧
   LfBuild.main the_cwd home exec c source remote no_ssh w =
     (1%Z, mkWorld fs1 (invocations w1 ++ [[PathV lfc; PathV source]]))) ∧
  (suffix lf_path = ".lf" → is_file (fs w) lf_path = true →
   BuildSaclay.clear_src_gen root w = (inr tt, w2) →
   is_file (fs w2) lfc = true →
   exec (Some root) [PathV lfc; PathV lf_path] (fs w2)
     = (Exited rc out err, fs2) →
   BuildSaclay.pipeline home exec lf_path root remote' w =
     (inl (CalledProcessError rc [PathV lfc; PathV lf_path] None None),
      mkWorld fs2 (invocations w2 ++ [[PathV lfc; PathV lf_path]])) ∧
   BuildSaclay.main home exec lf_path root remote' w =
     (1%Z, mkWorld fs2 (invocations w2 ++ [[PathV lfc; PathV lf_path]]))).
Proof.
  intros lfc Hrc. split.
  - intros Hinit Hc Hexec1. by eapply lf_main_compile_failure.
  - intros Hs Hf Hclear Hlfc Hexec2. by eapply saclay_main_compile_failure.
Qed.

Lemma compile_failure_halts_the_run_witness :
  let w := mkWorld Ex.fs_src [] in
  let lf := LfBuild.main Ex.ws Ex.home Ex.compiler_fails LfBuild.All
              ["src"; "Echo.lf"] "u@h:p" false w in
  let saclay := BuildSaclay.main Ex.home Ex.compiler_fails
                  (Ex.ws ++ ["src"; "Echo.lf"]) Ex.ws "u@h:p" w in
  (lf.1 = 1%Z ∧
   path_exists (fs lf.2) (Ex.ws // "Echo_build") = false ∧
   invocations lf.2 = [[PathV Ex.lfc; PathV ["src"; "Echo.lf"]]]) ∧
  (saclay.1 = 1%Z ∧
   path_exists (fs saclay.2) (Ex.ws ++ BuildSaclay.DEST_DIR) = false ∧
   invocations saclay.2 = [[PathV Ex.lfc; PathV (Ex.ws ++ ["src"; "Echo.lf"])]]).
Proof.
  intros w lf saclay.
  assert (∃ self, LfBuild.__init__ Ex.ws Ex.home ["src"; "Echo.lf"] "u@h:p"
                    false (fs w) = inr self) as [self Hinit]
    by (eexists; vm_compute; reflexivity).
  destruct (compile_failure_halts_the_run
              Ex.ws Ex.home Ex.compiler_fails ["src"; "Echo.lf"] "u@h:p" false
              self LfBuild.All (Ex.ws ++ ["src"; "Echo.lf"]) Ex.ws "u@h:p"
              w w w 1%Z EmptyString "Echo.lf: syntax error" Ex.fs_src Ex.fs_src)
    as [Hlf Hsaclay]; [discriminate|].
  destruct Hlf as [_ Hlf].
  { exact Hinit. }
  { right. split; [reflexivity|].
    apply init_fields in Hinit as ->. vm_compute. reflexivity. }
  { reflexivity. }
  destruct Hsaclay as [_ Hsaclay].
  { reflexivity. }
  { reflexivity. }
  { vm_compute. reflexivity. }
  { reflexivity. }
  { reflexivity. }
  subst lf saclay. rewrite Hlf, Hsaclay. cbn [fst snd fs invocations].
  repeat split; vm_compute; reflexivity.
Defined.

(** C9, as stated, fails on [build-saclay.py]: the compiler wrote
    [Echo.lf: syntax error], and the error the run ends with holds no
    output at all. *)
Lemma build_saclay_error_without_output :
  let w := mkWorld Ex.fs_src [] in
  let argv := [PathV Ex.lfc; PathV (Ex.ws ++ ["src"; "Echo.lf"])] in
  (Ex.compiler_fails (Some Ex.ws) argv (fs w)).1
    = Exited 1 EmptyString "Echo.lf: syntax error" ∧
  (BuildSaclay.pipeline Ex.home Ex.compiler_fails
     (Ex.ws ++ ["src"; "Echo.lf"]) Ex.ws "u@h:p" w).1
    = inl (CalledProcessError 1 argv None None).
Proof. intros w argv. split; vm_compute; reflexivity. Qed.

(** ** Staging *)

Lemma made_dirs_lookup_list (l : list Path) (fs : FS) (q : Path) :
  foldr (λ q m, if path_exists m q then m else <[q := Dir]> m) fs l !! q =
    match fs !! q with
    | Some n => Some n
    | None => if decide (q ∈ l) then Some Dir else None
    end.
Proof.
  induction l as [|a l IH]; cbn [foldr].
  - destruct (fs !! q); [done|]. rewrite decide_False; [done|]. apply not_elem_of_nil.
  - set (m := foldr _ fs l) in *.
    assert ((if path_exists m a then m else <[a := Dir]> m) !! q =
            match m !! q with
            | Some n => Some n
            | None => if decide (q = a) then Some Dir else None
            end) as ->.
    { unfold path_exists. destruct (decide (q = a)) as [->|Hne].
      - destruct (m !! a) eqn:Ha; [by rewrite Ha|]. by rewrite lookup_insert_eq.
      - destruct (m !! a) eqn:Ha.
        + by destruct (m !! q).
        + rewrite lookup_insert_ne by done. by destruct (m !! q). }
    rewrite IH. destruct (fs !! q); [done|].
    destruct (decide (q ∈ l)) as [Hl|Hl].
    + rewrite decide_True; [done|]. by right.
    + destruct (decide (q = a)) as [->|Hne].
      * rewrite decide_True; [done|]. left.
      * rewrite decide_False; [done|]. by intros [?|?]%elem_of_cons.
Qed.

Lemma made_dirs_lookup (p : Path) (fs : FS) (q : Path) :
  made_dirs p fs !! q =
    match fs !! q with
    | Some n => Some n
    | None => if decide (q ∈ prefixes p) then Some Dir else None
    end.
Proof. apply made_dirs_lookup_list. Qed.

Lemma made_dirs_id (p : Path) (fs : FS) :
  (∀ q, q ∈ prefixes p → is_Some (fs !! q)) → made_dirs p fs = fs.
Proof.
  intros Hall. apply map_eq. intros q. rewrite made_dirs_lookup.
  destruct (fs !! q) eqn:Hq; [done|].
  rewrite decide_False; [done|]. intros Hin. apply Hall in Hin as [? ?]. congruence.
Qed.

Lemma elem_of_prefixes (p q : Path) : q ∈ prefixes p ↔ q `prefix_of` p.
Proof.
  unfold prefixes. rewrite list_elem_of_fmap. split.
  - intros (n & -> & _). apply prefix_take.
  - intros [rest ->]. exists (length q). split.
    + by rewrite take_app_length.
    + apply elem_of_seq. rewrite length_app. lia.
Qed.

Lemma parent_child (d : Path) x : parent (d // x) = d.
Proof.
  unfold parent, child. rewrite length_app. simpl.
  replace (length d + 1 - 1) with (length d) by lia. apply take_app_length.
Qed.

Lemma name_child (d : Path) x : name (d // x) = x.
Proof. unfold name, child. apply last_last. Qed.

Lemma child_not_prefix (d : Path) x : ¬ (d // x) `prefix_of` d.
Proof.
  intros Hp%prefix_length. unfold child in Hp. rewrite length_app in Hp.
  simpl in Hp. lia.
Qed.

Lemma child_inj (d : Path) x y : d // x = d // y → x = y.
Proof. unfold child. intros H%app_inv_head. congruence. Qed.

Lemma copy2_onto src dst w data :
  fs w !! src = Some (File data) → is_dir (fs w) dst = false → src ≠ dst →
  is_dir (fs w) (parent dst) = true →
  copy2 src dst w =
    (inr dst, mkWorld (<[dst := File data]> (fs w)) (invocations w)).
Proof.
  intros Hsrc Hdst Hne Hparent. unfold copy2. rewrite Hdst. cbn zeta.
  rewrite Hsrc, decide_False by done. by rewrite Hdst, Hparent.
Qed.

Lemma mkdir_parents_ok p w :
  (∀ q, q `prefix_of` p → is_file (fs w) q = false) →
  mkdir_parents p w = (inr tt, mkWorld (made_dirs p (fs w)) (invocations w)).
Proof.
  intros Hall. unfold mkdir_parents.
  destruct (existsb (is_file (fs w)) (prefixes p)) eqn:He; [|done].
  apply existsb_exists in He as (q & Hq & Hf).
  apply list_elem_of_In, elem_of_prefixes, Hall in Hq. congruence.
Qed.

Lemma generated_not_staged (root q : Path) (x : string) :
  under (root // "src-gen") q → q ≠ staging_dir root // x.
Proof.
  intros [rest ->]. unfold staging_dir, child, BuildSaclay.DEST_DIR.
  rewrite <- !app_assoc. intros H%app_inv_head. discriminate.
Qed.

Lemma stage_binaries_run (client_elf server_elf root : Path) w (dc ds : string) :
  let cd := staging_dir root // "echo_client.elf" in
  let sd := staging_dir root // "echo_server.elf" in
  fs w !! client_elf = Some (File dc) →
  fs w !! server_elf = Some (File ds) →
  under (root // "src-gen") client_elf →
  under (root // "src-gen") server_elf →
  (∀ q, q `prefix_of` staging_dir root → is_file (fs w) q = false) →
  is_dir (fs w) cd = false → is_dir (fs w) sd = false →
  BuildSaclay.stage_binaries client_elf server_elf root w =
    (inr (cd, sd), mkWorld (staged root dc ds (fs w)) (invocations w)).
Proof.
  intros cd sd Hc Hs Uc Us Hdirs Hcd Hsd.
  assert (cd ≠ sd) as Hne by (intros H%child_inj; discriminate).
  assert (∀ x, staging_dir root // x ∉ prefixes (staging_dir root)) as Hlong.
  { intros x Hin%elem_of_prefixes. by apply child_not_prefix in Hin. }
  assert (∀ x, is_dir (fs w) (staging_dir root // x) = false →
               is_dir (made_dirs (staging_dir root) (fs w)) (staging_dir root // x) = false)
    as Hkeep.
  { intros x Hx. unfold is_dir in *. rewrite made_dirs_lookup.
    destruct (fs w !! (staging_dir root // x)); [done|].
    by rewrite decide_False by apply Hlong. }
  assert (made_dirs (staging_dir root) (fs w) !! staging_dir root = Some Dir) as Hmade.
  { rewrite made_dirs_lookup.
    pose proof (Hdirs (staging_dir root) (reflexivity _)) as Hf.
    unfold is_file in Hf. destruct (fs w !! staging_dir root) as [[]|]; [done|done|].
    rewrite decide_True; [done|]. by apply elem_of_prefixes. }
  unfold BuildSaclay.stage_binaries. fold (staging_dir root). fold cd sd.
  erewrite bind_ok by (by apply mkdir_parents_ok).
  erewrite bind_ok.
  2:{ apply (copy2_onto _ _ _ dc); cbn [fs].
      - by rewrite made_dirs_lookup, Hc.
      - by apply Hkeep.
      - by apply generated_not_staged.
      - subst cd. rewrite parent_child. by apply is_dir_true. }
  erewrite bind_ok.
  2:{ apply (copy2_onto _ _ _ ds); cbn [fs].
      - rewrite lookup_insert_ne by (by apply not_eq_sym, generated_not_staged).
        by rewrite made_dirs_lookup, Hs.
      - unfold is_dir. rewrite lookup_insert_ne by done. by apply Hkeep.
      - by apply generated_not_staged.
      - subst sd. rewrite parent_child. apply is_dir_true.
        rewrite lookup_insert_ne; [done|].
        intros Heq. apply (child_not_prefix (staging_dir root) "echo_client.elf").
        fold cd. by rewrite Heq. }
  reflexivity.
Qed.

Lemma staged_again (root : Path) (dc ds : string) (fs : FS) (c s : Path) :
  fs !! c = Some (File dc) → fs !! s = Some (File ds) →
  under (root // "src-gen") c → under (root // "src-gen") s →
  (∀ q, q `prefix_of` staging_dir root → is_file fs q = false) →
  let fs' := staged root dc ds fs in
  fs' !! c = Some (File dc) ∧ fs' !! s = Some (File ds) ∧
  (∀ q, q `prefix_of` staging_dir root → is_file fs' q = false) ∧
  is_dir fs' (staging_dir root // "echo_client.elf") = false ∧
  is_dir fs' (staging_dir root // "echo_server.elf") = false ∧
  fs' !! (staging_dir root // "echo_client.elf") = Some (File dc) ∧
  fs' !! (staging_dir root // "echo_server.elf") = Some (File ds) ∧
  staged root dc ds fs' = fs'.
Proof.
  intros Hc Hs Uc Us Hdirs fs'.
  set (cd := staging_dir root // "echo_client.elf").
  set (sd := staging_dir root // "echo_server.elf").
  assert (cd ≠ sd) as Hne by (intros H%child_inj; discriminate).
  assert (fs' !! cd = Some (File dc)) as Hcd.
  { unfold fs', staged. fold cd sd. rewrite lookup_insert_ne by done.
    apply lookup_insert_eq. }
  assert (fs' !! sd = Some (File ds)) as Hsd.
  { unfold fs', staged. fold cd sd. apply lookup_insert_eq. }
  assert (∀ q, q ≠ cd → q ≠ sd → fs' !! q = made_dirs (staging_dir root) fs !! q)
    as Hother.
  { intros q H1 H2. unfold fs', staged. fold cd sd.
    by rewrite !lookup_insert_ne. }
  assert (∀ q, q `prefix_of` staging_dir root → fs' !! q = Some Dir) as Hpre.
  { intros q Hq. rewrite Hother.
    - rewrite made_dirs_lookup. specialize (Hdirs q Hq). unfold is_file in Hdirs.
      destruct (fs !! q) as [[]|]; [done|done|].
      rewrite decide_True; [done|]. by apply elem_of_prefixes.
    - intros ->. by apply child_not_prefix in Hq.
    - intros ->. by apply child_not_prefix in Hq. }
  assert (∀ q x, under (root // "src-gen") q → fs !! q = Some x → fs' !! q = Some x)
    as Hgen.
  { intros q x Uq Hq. rewrite Hother by (by apply generated_not_staged).
    by rewrite made_dirs_lookup, Hq. }
  split; [by apply Hgen|]. split; [by apply Hgen|]. split.
  { intros q Hq. unfold is_file. by rewrite (Hpre q Hq). }
  split; [unfold is_dir; by rewrite Hcd|]. split; [unfold is_dir; by rewrite Hsd|].
  split; [done|]. split; [done|].
  unfold staged at 1. fold cd sd. rewrite made_dirs_id.
  - rewrite (insert_id fs' cd) by done. by apply insert_id.
  - intros q Hq%elem_of_prefixes. rewrite (Hpre q Hq). eauto.
Qed.

(** *** Staging in [lf-build.py] *)

Lemma string_app_inv_tail (s1 s2 t : string) :
  (s1 ++ t)%string = (s2 ++ t)%string → s1 = s2.
Proof.
  revert s2. induction s1 as [|c1 s1 IH]; intros [|c2 s2] H.
  - done.
  - apply (f_equal String.length) in H. rewrite !string_length_app in H.
    simpl in H. lia.
  - apply (f_equal String.length) in H. rewrite !string_length_app in H.
    simpl in H. lia.
  - simpl in H. injection H as -> H. f_equal. by apply IH.
Qed.

Lemma entry_of_child (P d : Path) : entry_of P d ↔ ∃ x, d = P // x.
Proof.
  split.
  - intros [<- Hne]. exists (name d). unfold parent, child, name.
    destruct d as [|a d] using rev_ind; [done|].
    rewrite length_app. simpl. replace (length d + 1 - 1) with (length d) by lia.
    rewrite take_app_length. by rewrite last_last.
  - intros [x ->]. split; [apply parent_child|]. unfold child. by destruct P.
Qed.

Lemma staged_name_inj (P d d' : Path) :
  entry_of P d → entry_of P d' → staged_name d = staged_name d' → d = d'.
Proof.
  intros [x ->]%entry_of_child [y ->]%entry_of_child. unfold staged_name.
  rewrite !name_child. by intros ->%string_app_inv_tail.
Qed.

Lemma under_child (d : Path) x : under d (d // x).
Proof. by exists [x]. Qed.

Lemma under_trans (a b c : Path) : under a b → under b c → under a c.
Proof. unfold under. intros. by etrans. Qed.

Lemma under_fixed_elf (d : Path) : under d (fixed_elf d).
Proof. unfold fixed_elf. repeat (eapply under_trans; [|apply under_child]). done. Qed.

(** Trees rooted at directories neither of which lies in the other share
    no path. *)
Lemma apart (B P q q' : Path) :
  ¬ under B P → ¬ under P B → under B q → under P q' → q ≠ q'.
Proof.
  intros HBP HPB Hq Hq' ->.
  destruct (prefix_weak_total B P q'); done.
Qed.

Lemma built_federates_elem fs P d :
  d ∈ built_federates fs P ↔
    entry_of P d ∧ fs !! d = Some Dir ∧ path_exists fs (fixed_elf d) = true.
Proof.
  unfold built_federates. rewrite elem_of_filter, elem_of_subdirectories. naive_solver.
Qed.

Lemma built_federates_agree (fs1 fs2 : FS) P :
  (∀ q, under P q → fs1 !! q = fs2 !! q) →
  built_federates fs1 P = built_federates fs2 P.
Proof.
  intros Hagree. apply set_eq. intros d. rewrite !built_federates_elem.
  unfold path_exists.
  split; intros (He & Hd & Hx); (split; [done|]);
    pose proof He as [x ->]%entry_of_child;
    pose proof (Hagree (P // x) (under_child P x)) as H1;
    pose proof (Hagree (fixed_elf (P // x))
                  (under_trans _ _ _ (under_child P x) (under_fixed_elf _))) as H2.
  - by rewrite <- H1, <- H2.
  - by rewrite H1, H2.
Qed.

Lemma mkdir_exist_ok_spec p w :
  fs w !! p = Some Dir ∨ (fs w !! p = None ∧ fs w !! parent p = Some Dir) →
  ∃ w', mkdir_exist_ok p w = (inr tt, w') ∧ invocations w' = invocations w ∧
        fs w' !! p = Some Dir ∧ ∀ q, q ≠ p → fs w' !! q = fs w !! q.
Proof.
  unfold mkdir_exist_ok. intros [Hp|[Hp Hparent]]; rewrite Hp.
  - by exists w.
  - rewrite Hparent. eexists. split; [done|]. split; [done|]. cbn [fs].
    split; [apply lookup_insert_eq|]. intros q Hq. by rewrite lookup_insert_ne.
Qed.

Lemma copy_loop (B P : Path) (Ds : list Path) w :
  NoDup Ds →
  (∀ d, d ∈ Ds → entry_of P d ∧ is_file (fs w) (fixed_elf d) = true ∧
                 is_dir (fs w) (B // staged_name d) = false) →
  fs w !! B = Some Dir → ¬ under B P → ¬ under P B →
  ∃ w', for_each ((λ d, (name d, fixed_elf d)) <$> Ds) (stage_one B) w = (inr tt, w') ∧
        invocations w' = invocations w ∧
        (∀ d, d ∈ Ds → fs w' !! (B // staged_name d) = fs w !! fixed_elf d) ∧
        (∀ q, (∀ d, d ∈ Ds → q ≠ B // staged_name d) → fs w' !! q = fs w !! q).
Proof.
  intros Hnd. revert w. induction Hnd as [|d Ds Hnin Hnd IH]; intros w Hall HB HBP HPB.
  - exists w. split; [done|]. split; [done|]. split; [|done].
    intros d Hd. by apply not_elem_of_nil in Hd.
  - destruct (Hall d) as (Hentry & Hfile & Hdest); [left|].
    apply is_file_true in Hfile as [data Hdata].
    assert (∀ d', entry_of P d' → fixed_elf d' ≠ B // staged_name d) as Hsrc.
    { intros d' [x ->]%entry_of_child. apply not_eq_sym.
      apply (apart B P); try done; [apply under_child|].
      eapply under_trans; [apply under_child|apply under_fixed_elf]. }
    set (w2 := mkWorld (<[B // staged_name d := File data]> (fs w)) (invocations w)).
    assert (stage_one B (name d, fixed_elf d) w = (inr tt, w2)) as Hone.
    { unfold stage_one. erewrite bind_ok; [reflexivity|].
      apply copy2_onto; try done.
      - by apply Hsrc.
      - rewrite parent_child. by apply is_dir_true. }
    destruct (IH w2) as (w' & Hrun & Hinv & Hstaged & Hframe); try done.
    { intros d' Hd'. destruct (Hall d') as (He' & Hf' & Hd''); [by right|].
      split; [done|]. unfold w2. cbn [fs]. split.
      - unfold is_file. rewrite lookup_insert_ne by (by apply not_eq_sym, Hsrc).
        exact Hf'.
      - unfold is_dir. rewrite lookup_insert_ne; [exact Hd''|].
        intros Heq%child_inj. apply (staged_name_inj P) in Heq; [|done..].
        by subst. }
    { unfold w2. cbn [fs]. rewrite lookup_insert_ne; [done|].
      intros Heq. apply (child_not_prefix B (staged_name d)). by rewrite Heq. }
    unfold w2 in Hinv, Hstaged, Hframe. cbn [fs invocations] in Hinv, Hstaged, Hframe.
    exists w'. split.
    { rewrite fmap_cons. cbn [for_each]. erewrite bind_ok by exact Hone. exact Hrun. }
    split; [by rewrite Hinv|]. split.
    + intros d' [->|Hd']%elem_of_cons.
      * rewrite Hframe.
        -- by rewrite lookup_insert_eq.
        -- intros d' Hd' Heq%child_inj.
           destruct (Hall d') as (He' & _ & _); [by right|].
           apply (staged_name_inj P) in Heq; [|done..]. by subst.
      * rewrite (Hstaged d' Hd').
        destruct (Hall d') as (He' & _ & _); [by right|].
        by rewrite lookup_insert_ne by (by apply not_eq_sym, Hsrc).
    + intros q Hq. rewrite Hframe.
      * rewrite lookup_insert_ne; [done|].
        apply not_eq_sym, Hq. left.
      * intros d' Hd'. apply Hq. by right.
Qed.

Lemma copy_federate_elfs_unfold (self : LfBuild.LFBuilder) :
  LfBuild._copy_federate_elfs self =
    (mkdir_exist_ok (LfBuild.fed_build_dir self) ;;
     federate_elfs ← reading (LfBuild._find_federate_elfs self);
     for_each federate_elfs (stage_one (LfBuild.fed_build_dir self))).
Proof. reflexivity. Qed.

Lemma copy_federate_elfs_spec (self : LfBuild.LFBuilder) w :
  let B := LfBuild.fed_build_dir self in
  let P := LfBuild.src_gen_project_dir self in
  can_stage self (fs w) →
  ∃ w', LfBuild._copy_federate_elfs self w = (inr tt, w') ∧
        invocations w' = invocations w ∧
        fs w' !! B = Some Dir ∧
        (∀ d, d ∈ built_federates (fs w) P →
              fs w' !! (B // staged_name d) = fs w !! fixed_elf d) ∧
        (∀ q, q ≠ B → (∀ d, d ∈ built_federates (fs w) P → q ≠ B // staged_name d) →
              fs w' !! q = fs w !! q).
Proof.
  intros B P (HB & HP & Hbuilt & Hfiles & HBP & HPB).
  fold B P in HB, HP, Hbuilt, Hfiles, HBP, HPB.
  destruct (mkdir_exist_ok_spec B w HB) as (w1 & Hmk & Hinv1 & HB1 & Hframe1).
  assert (∀ q, under P q → fs w1 !! q = fs w !! q) as Hunder.
  { intros q Hq. apply Hframe1. intros ->. done. }
  assert (built_federates (fs w1) P = built_federates (fs w) P) as Hsame
    by (by apply built_federates_agree).
  assert (is_dir (fs w1) P = true) as HP1.
  { apply is_dir_true. rewrite Hunder; [done|]. by exists []; rewrite app_nil_r. }
  assert (LfBuild._find_federate_elfs self (fs w1) =
          inr ((λ d, (name d, fixed_elf d)) <$> listed_built (fs w1) P)) as Hfind.
  { rewrite find_federate_elfs_unfold by done. fold P.
    destruct (listed_built (fs w1) P) as [|d l] eqn:Hl; [|done].
    exfalso. apply Hbuilt. rewrite <- Hsame. apply set_eq. intros d.
    rewrite <- elem_of_listed_built, Hl. set_solver. }
  destruct (copy_loop B P (listed_built (fs w1) P) w1)
    as (w' & Hrun & Hinv & Hstaged & Hframe); try done.
  { apply listed_built_NoDup. }
  { intros d Hd. rewrite elem_of_listed_built, Hsame in Hd.
    destruct (Hfiles d Hd) as [Hf Hdir].
    apply built_federates_elem in Hd as (He & _ & _).
    pose proof He as [x ->]%entry_of_child.
    split; [done|]. split.
    - unfold is_file. rewrite Hunder; [exact Hf|].
      eapply under_trans; [apply under_child|apply under_fixed_elf].
    - unfold is_dir. rewrite Hframe1; [exact Hdir|].
      intros Heq. apply (child_not_prefix B (staged_name (P // x))). by rewrite Heq. }
  exists w'. split.
  { rewrite copy_federate_elfs_unfold. fold B.
    erewrite bind_ok by exact Hmk.
    erewrite bind_ok by (unfold reading; rewrite Hfind; reflexivity).
    exact Hrun. }
  split; [congruence|]. split.
  { rewrite Hframe; [done|].
    intros d _ Heq. apply (child_not_prefix B (staged_name d)). by rewrite <- Heq. }
  split.
  - intros d Hd. rewrite Hstaged by (by rewrite elem_of_listed_built, Hsame).
    apply built_federates_elem in Hd as ([x ->]%entry_of_child & _ & _).
    apply Hunder. eapply under_trans; [apply under_child|apply under_fixed_elf].
  - intros q HqB Hq. rewrite Hframe.
    + by apply Hframe1.
    + intros d Hd. apply Hq. by rewrite <- Hsame, <- elem_of_listed_built.
Qed.

(** Staging again changes nothing. *)
Lemma copy_federate_elfs_twice (self : LfBuild.LFBuilder) w w' :
  can_stage self (fs w) →
  LfBuild._copy_federate_elfs self w = (inr tt, w') →
  can_stage self (fs w') ∧ LfBuild._copy_federate_elfs self w' = (inr tt, w').
Proof.
  intros Hcan Hrun.
  destruct (copy_federate_elfs_spec self w Hcan)
    as (w0 & Hrun0 & Hinv & HB' & Hstaged & Hframe).
  rewrite Hrun in Hrun0. injection Hrun0 as <-.
  set (B := LfBuild.fed_build_dir self) in *.
  set (P := LfBuild.src_gen_project_dir self) in *.
  destruct Hcan as (HB & HP & Hbuilt & Hfiles & HBP & HPB).
  fold B P in HB, HP, Hbuilt, Hfiles, HBP, HPB.
  assert (∀ q, under P q → fs w' !! q = fs w !! q) as Hunder.
  { intros q Hq. apply Hframe.
    - by intros ->.
    - intros d _. apply not_eq_sym. apply (apart B P); try done. apply under_child. }
  assert (built_federates (fs w') P = built_federates (fs w) P) as Hsame
    by (by apply built_federates_agree).
  assert (∀ d, d ∈ built_federates (fs w) P → under P (fixed_elf d)) as Hfixed.
  { intros d ([x ->]%entry_of_child & _ & _)%built_federates_elem.
    eapply under_trans; [apply under_child|apply under_fixed_elf]. }
  assert (can_stage self (fs w')) as Hcan'.
  { unfold can_stage. fold B P. rewrite Hsame.
    split; [by left|]. split.
    { rewrite Hunder; [done|]. by exists []; rewrite app_nil_r. }
    split; [done|]. split; [|done].
    intros d Hd. destruct (Hfiles d Hd) as [Hf _].
    unfold is_file, is_dir. rewrite (Hstaged d Hd), (Hunder _ (Hfixed d Hd)).
    split; [exact Hf|]. apply is_file_true in Hf as [data ->]. done. }
  split; [exact Hcan'|].
  destruct (copy_federate_elfs_spec self w' Hcan')
    as (w'' & Hrun' & Hinv' & HB'' & Hstaged' & Hframe').
  fold B P in HB'', Hstaged', Hframe'. rewrite Hsame in Hstaged', Hframe'.
  rewrite Hrun'. f_equal.
  assert (fs w'' = fs w') as Hfs.
  { apply map_eq. intros q.
    destruct (decide (q = B)) as [->|HqB]; [congruence|].
    destruct (decide (set_Exists (λ d, q = B // staged_name d)
                                 (built_federates (fs w) P))) as [(d & Hd & ->)|Hno].
    - rewrite (Hstaged' d Hd), (Hstaged d Hd). apply Hunder. by apply Hfixed.
    - apply Hframe'; [done|]. intros d Hd Heq. apply Hno. by exists d. }
  destruct w'' as [f'' i''], w' as [f' i']. simpl in Hfs, Hinv'. congruence.
Qed.

(** C7. In [build-saclay.py], [stage_binaries] stages the two binaries as
    [echo_client.elf] and [echo_server.elf] in [build/programs], whatever
    stood under these names before (short of a directory), and staging
    again from the world it leaves gives the same result and the same
    world. In [lf-build.py], [_copy_federate_elfs] stages the binary of
    each federate under the name of its directory followed by [.elf], and
    staging again changes nothing either. *)
Theorem staging_overwrites_and_repeats
    (client_elf server_elf root : Path) (dc ds : string)
    (self : LfBuild.LFBuilder) w :
  let cd := staging_dir root // "echo_client.elf" in
  let sd := staging_dir root // "echo_server.elf" in
  let B := LfBuild.fed_build_dir self in
  let P := LfBuild.src_gen_project_dir self in
  (fs w !! client_elf = Some (File dc) →
   fs w !! server_elf = Some (File ds) →
   under (root // "src-gen") client_elf →
   under (root // "src-gen") server_elf →
   (∀ q, q `prefix_of` staging_dir root → is_file (fs w) q = false) →
   is_dir (fs w) cd = false → is_dir (fs w) sd = false →
   ∃ w', BuildSaclay.stage_binaries client_elf server_elf root w
           = (inr (cd, sd), w') ∧
         fs w' !! cd = Some (File dc) ∧ fs w' !! sd = Some (File ds) ∧
         BuildSaclay.stage_binaries client_elf server_elf root w'
           = (inr (cd, sd), w')) ∧
  (can_stage self (fs w) →
   ∃ w', LfBuild._copy_federate_elfs self w = (inr tt, w') ∧
         (∀ d, d ∈ built_federates (fs w) P →
               fs w' !! (B // staged_name d) = fs w !! fixed_elf d) ∧
         LfBuild._copy_federate_elfs self w' = (inr tt, w')).
Proof.
  intros cd sd B P. split.
  - intros Hc Hs Uc Us Hdirs Hcd Hsd.
    eexists. split; [by apply (stage_binaries_run _ _ _ _ dc ds)|]. cbn [fs].
    destruct (staged_again root dc ds (fs w) client_elf server_elf)
      as (Hc' & Hs' & Hdirs' & Hcd' & Hsd' & Hlc & Hls & Hfix); try done.
    split; [exact Hlc|]. split; [exact Hls|].
    rewrite (stage_binaries_run _ _ _ _ dc ds); try done. cbn [fs invocations].
    by rewrite Hfix.
  - intros Hcan.
    destruct (copy_federate_elfs_spec self w Hcan)
      as (w' & Hrun & _ & _ & Hstaged & _).
    exists w'. split; [exact Hrun|]. split; [exact Hstaged|].
    by apply (copy_federate_elfs_twice self w w').
Qed.

Lemma echo_builder_init :
  LfBuild.__init__ Ex.ws Ex.home ["src"; "Echo.lf"] "hailo@hailo-desktop:~/lf"
    false Ex.fs_echo = inr Ex.echo_builder.
Proof. vm_compute. reflexivity. Qed.

Lemma echo_can_stage : can_stage Ex.echo_builder Ex.fs_echo.
Proof.
  unfold can_stage. cbn [LfBuild.fed_build_dir LfBuild.src_gen_project_dir Ex.echo_builder].
  assert (listed_built Ex.fs_echo Ex.echo_dir =
          [Ex.echo_dir // "EchoClient"; Ex.echo_dir // "EchoServer"]) as Hl
    by (vm_compute; reflexivity).
  split; [right; split; vm_compute; reflexivity|].
  split; [vm_compute; reflexivity|].
  split.
  { intros He. assert (Ex.echo_dir // "EchoClient" ∈ built_federates Ex.fs_echo Ex.echo_dir)
      as Hin by (rewrite <- elem_of_listed_built, Hl; left).
    rewrite He in Hin. exact (not_elem_of_empty _ Hin). }
  split; [|split; compute_done].
  intros d Hd. rewrite <- elem_of_listed_built, Hl in Hd.
  apply elem_of_cons in Hd as [->|Hd]; [split; vm_compute; reflexivity|].
  apply elem_of_cons in Hd as [->|Hd]; [split; vm_compute; reflexivity|].
  exfalso. exact (not_elem_of_nil _ Hd).
Qed.

Lemma staging_overwrites_and_repeats_witness :
  let w := mkWorld Ex.fs_echo [] in
  let client := Ex.echo_dir // "EchoClient" in
  let server := Ex.echo_dir // "EchoServer" in
  let staging := Ex.ws ++ ["build"; "programs"] in
  can_stage Ex.echo_builder (fs w) ∧
  (∃ w', BuildSaclay.stage_binaries (fixed_elf client) (fixed_elf server) Ex.ws w
           = (inr (staging // "echo_client.elf", staging // "echo_server.elf"), w') ∧
         fs w' !! (staging // "echo_client.elf") = Some (File "client image") ∧
         fs w' !! (staging // "echo_server.elf") = Some (File "server image") ∧
         BuildSaclay.stage_binaries (fixed_elf client) (fixed_elf server) Ex.ws w'
           = (inr (staging // "echo_client.elf", staging // "echo_server.elf"), w')) ∧
  (∃ w', LfBuild._copy_federate_elfs Ex.echo_builder w = (inr tt, w') ∧
         fs w' !! (Ex.ws // "Echo_build" // "EchoClient.elf")
           = Some (File "client image") ∧
         fs w' !! (Ex.ws // "Echo_build" // "EchoServer.elf")
           = Some (File "server image") ∧
         LfBuild._copy_federate_elfs Ex.echo_builder w' = (inr tt, w')).
Proof.
  intros w client server staging.
  split; [exact echo_can_stage|].
  destruct (staging_overwrites_and_repeats
              (fixed_elf client) (fixed_elf server) Ex.ws
              "client image" "server image" Ex.echo_builder w)
    as [Hsaclay Hlf].
  split.
  - apply Hsaclay.
    + vm_compute. reflexivity.
    + vm_compute. reflexivity.
    + compute_done.
    + compute_done.
    + intros q Hq%elem_of_prefixes.
      assert (forallb (λ q, negb (is_file (fs w) q))
                      (prefixes (staging_dir Ex.ws)) = true)
        as Hall by (vm_compute; reflexivity).
      rewrite forallb_forall in Hall. apply list_elem_of_In, Hall in Hq.
      apply negb_true_iff in Hq. exact Hq.
    + vm_compute. reflexivity.
    + vm_compute. reflexivity.
  - destruct (Hlf echo_can_stage) as (w' & Hrun & Hstaged & Hagain).
    exists w'. split; [exact Hrun|].
    assert (∀ d, d ∈ listed_built Ex.fs_echo Ex.echo_dir →
                 d ∈ built_federates (fs w) (LfBuild.src_gen_project_dir Ex.echo_builder))
      as Hin by (intros d; apply elem_of_listed_built).
    assert (listed_built Ex.fs_echo Ex.echo_dir = [client; server]) as Hl
      by (vm_compute; reflexivity).
    rewrite Hl in Hin.
    split; [|split; [|exact Hagain]].
    + transitivity (fs w !! fixed_elf client); [|vm_compute; reflexivity].
      apply (Hstaged client), Hin. left.
    + transitivity (fs w !! fixed_elf server); [|vm_compute; reflexivity].
      apply (Hstaged server), Hin. right. left.
Defined.

(** C7, as stated, fails on [lf-build.py]: for [Echo.lf] the staged files
    are [EchoClient.elf] and [EchoServer.elf], named after the federate
    directories; there is no [echo_client.elf]. *)
Lemma lf_build_stages_under_federate_names :
  let w := mkWorld Ex.fs_src [] in
  let run := LfBuild.main Ex.ws Ex.home Ex.compiler_ok LfBuild.Build
               ["src"; "Echo.lf"] "hailo@hailo-desktop:~/lf" false w in
  let staging := Ex.ws // "Echo_build" in
  run.1 = 0%Z ∧
  fs run.2 !! (staging // "EchoClient.elf") = Some (File "client image") ∧
  fs run.2 !! (staging // "EchoServer.elf") = Some (File "server image") ∧
  fs run.2 !! (staging // "echo_client.elf") = None ∧
  fs run.2 !! (staging // "echo_server.elf") = None ∧
  sorted (glob_suffix (fs run.2) staging ".elf") =
    [staging // "EchoClient.elf"; staging // "EchoServer.elf"].
Proof. intros w run staging. repeat split; vm_compute; reflexivity. Qed.

(** ** The scenarios of the specification, run *)

(** The pattern on some destinations: the default one of [lf-build.py]
    matches; the default one of [build-saclay.py], whose path is empty,
    does not. *)
Example remote_url_pattern_examples :
  LfBuild.re_match LfBuild.remote_url_pattern "hailo@hailo-desktop:~/lf" = true ∧
  LfBuild.re_match LfBuild.remote_url_pattern "a@b:c" = true ∧
  LfBuild.re_match LfBuild.remote_url_pattern "a@b@c:d:e" = true ∧
  LfBuild.re_match LfBuild.remote_url_pattern ("a@b:c" ++ nl)%string = true ∧
  LfBuild.re_match LfBuild.remote_url_pattern ("a@b:c" ++ nl ++ "d")%string = false ∧
  LfBuild.re_match LfBuild.remote_url_pattern "@b:c" = false ∧
  LfBuild.re_match LfBuild.remote_url_pattern "a@:c" = false ∧
  LfBuild.re_match LfBuild.remote_url_pattern "a@b:" = false ∧
  LfBuild.re_match LfBuild.remote_url_pattern BuildSaclay.REMOTE_DEFAULT = false.
Proof. repeat split; reflexivity. Qed.

(** [Echo.lf] through [build-saclay.py]: the two binaries are staged as
    [echo_client.elf] and [echo_server.elf], and [scp] is started once,
    with both and the destination. *)
Example echo_through_build_saclay :
  let w := mkWorld Ex.fs_src [] in
  let staging := Ex.ws ++ BuildSaclay.DEST_DIR in
  let run := BuildSaclay.main Ex.home Ex.compiler_ok
               (Ex.ws ++ ["src"; "Echo.lf"]) Ex.ws BuildSaclay.REMOTE_DEFAULT w in
  run.1 = 0%Z ∧
  fs run.2 !! (staging // "echo_client.elf") = Some (File "client image") ∧
  fs run.2 !! (staging // "echo_server.elf") = Some (File "server image") ∧
  invocations run.2 =
    [[PathV Ex.lfc; PathV (Ex.ws ++ ["src"; "Echo.lf"])];
     [Lit "scp"; PathV (staging // "echo_client.elf");
      PathV (staging // "echo_server.elf"); StrV BuildSaclay.REMOTE_DEFAULT]].
Proof. intros w staging run. repeat split; vm_compute; reflexivity. Qed.

(** [Echo.lf] through [lf-build.py all]: [scp] is started once for each
    staged file, with the destination. *)
Example echo_through_lf_build :
  let w := mkWorld Ex.fs_src [] in
  let staging := Ex.ws // "Echo_build" in
  let run := LfBuild.main Ex.ws Ex.home Ex.compiler_ok LfBuild.All
               ["src"; "Echo.lf"] "hailo@hailo-desktop:~/lf" false w in
  run.1 = 0%Z ∧
  length (invocations run.2) = 3 ∧
  [Lit "scp"; PathV (staging // "EchoClient.elf"); StrV "hailo@hailo-desktop:~/lf"]
    ∈ invocations run.2 ∧
  [Lit "scp"; PathV (staging // "EchoServer.elf"); StrV "hailo@hailo-desktop:~/lf"]
    ∈ invocations run.2.
Proof.
  intros w staging run. split; [vm_compute; reflexivity|].
  split; [vm_compute; reflexivity|]. split; compute_done.
Qed.

(** * Further properties of the two scripts *)

(** ** The destinations [lf-build.py] accepts *)

Lemma re_match_one_iff cls items s :
  LfBuild.re_match (LfBuild.One cls :: items) s = true ↔
    ∃ c r, s = String c r ∧ cls c = true ∧ LfBuild.re_match items r = true.
Proof.
  destruct s as [|c s]; cbn [LfBuild.re_match].
  - split; [done|]. by intros (? & ? & ? & _).
  - rewrite andb_true_iff. split.
    + intros [? ?]. eauto.
    + by intros (? & ? & [= <- <-] & ? & ?).
Qed.

Lemma re_match_many_iff cls items s :
  LfBuild.re_match (LfBuild.Many cls :: items) s = true ↔
    ∃ u r, s = (u ++ r)%string ∧ u ≠ EmptyString ∧ all_chars cls u = true ∧
           LfBuild.re_match items r = true.
Proof.
  split.
  - induction s as [|c s IH]; [done|].
    rewrite re_match_many, andb_true_iff, orb_true_iff.
    intros [Hc [Hm|Hm]].
    + exists (String c EmptyString), s. simpl. by rewrite Hc.
    + destruct (IH Hm) as (u & r & -> & Hu & Hall & Hr).
      exists (String c u), r. simpl. by rewrite Hc, Hall.
  - intros (u & r & -> & Hu & Hall & Hr).
    induction u as [|c u IH]; [done|].
    simpl in Hall. apply andb_true_iff in Hall as [Hc Hall].
    change (String c u ++ r)%string with (String c (u ++ r)%string).
    rewrite re_match_many, Hc. cbn [andb].
    destruct u as [|c' u].
    + change (EmptyString ++ r)%string with r. by rewrite Hr.
    + rewrite IH; [apply orb_true_r|done|done].
Qed.

Lemma all_chars_not_char ch s :
  all_chars (LfBuild.not_char ch) s = true ↔ has_char ch s = false.
Proof.
  induction s as [|c s IH]; [done|]. cbn [all_chars has_char].
  rewrite andb_true_iff, orb_false_iff, IH. unfold LfBuild.not_char.
  by rewrite negb_true_iff.
Qed.

Lemma at_end_iff s : LfBuild.at_end s = true ↔ s = EmptyString ∨ s = nl.
Proof.
  unfold LfBuild.at_end. rewrite orb_true_iff, !bool_decide_eq_true. done.
Qed.

(** X1. The destinations [_validate_remote_url] lets through are exactly the
    strings [user@host:path], with a user free of [@], a host free of [:]
    and a path free of line breaks, none of them empty; one line break may
    follow the path. *)
Theorem remote_url_accepted_iff (remote : string) :
  LfBuild.re_match LfBuild.remote_url_pattern remote = true ↔
  ∃ user host path tail : string,
    remote = (user ++ "@" ++ host ++ ":" ++ path ++ tail)%string ∧
    user ≠ EmptyString ∧ has_char "@" user = false ∧
    host ≠ EmptyString ∧ has_char ":" host = false ∧
    path ≠ EmptyString ∧ has_char (ascii_of_nat 10) path = false ∧
    (tail = EmptyString ∨ tail = nl).
Proof.
  unfold LfBuild.remote_url_pattern. rewrite re_match_many_iff. split.
  - intros (user & r1 & -> & Huser & Hu & H1).
    apply re_match_one_iff in H1 as (c1 & r2 & -> & Hc1 & H2).
    apply bool_decide_eq_true in Hc1 as ->.
    apply re_match_many_iff in H2 as (host & r3 & -> & Hhost & Hh & H3).
    apply re_match_one_iff in H3 as (c2 & r4 & -> & Hc2 & H4).
    apply bool_decide_eq_true in Hc2 as ->.
    apply re_match_many_iff in H4 as (path & tail & -> & Hpath & Hp & H5).
    apply at_end_iff in H5.
    exists user, host, path, tail.
    rewrite all_chars_not_char in Hu, Hh, Hp.
    repeat split; done.
  - intros (user & host & path & tail & -> & Huser & Hu & Hhost & Hh & Hpath & Hp & Ht).
    exists user, ("@" ++ host ++ ":" ++ path ++ tail)%string.
    rewrite <- all_chars_not_char in Hu, Hh, Hp.
    repeat split; try done.
    cbn [String.append]. apply re_match_one_iff. eexists _, _. split; [done|].
    split; [by apply bool_decide_eq_true|].
    apply re_match_many_iff. exists host, (":" ++ path ++ tail)%string.
    repeat split; try done.
    cbn [String.append]. apply re_match_one_iff. eexists _, _. split; [done|].
    split; [by apply bool_decide_eq_true|].
    apply re_match_many_iff. exists path, tail.
    repeat split; try done. by apply at_end_iff.
Qed.

(** X2. For a source given relative to the working directory, without
    [.] or [..] in it, the builder is constructed exactly when the source
    is an existing regular [.lf] file and, unless the transfer is skipped,
    the destination matches the pattern. *)
Theorem init_succeeds_iff (the_cwd home source : Path) (remote : string)
    (skip : bool) (fs : FS) :
  relative source → plain source →
  (∃ self, LfBuild.__init__ the_cwd home source remote skip fs = inr self) ↔
  suffix source = ".lf" ∧ is_file fs (the_cwd ++ source) = true ∧
  (skip = true ∨ LfBuild.re_match LfBuild.remote_url_pattern remote = true).
Proof.
  intros _ _.
  unfold LfBuild.__init__, LfBuild._validate_source_file,
    LfBuild._validate_remote_url.
  cbn [LfBuild.source_file LfBuild.cwd LfBuild.remote_url].
  destruct (decide (suffix source = ".lf")) as [Hs|Hs].
  2: { rewrite bool_decide_eq_false_2 by done. cbn [negb].
       split; [by intros [? ?]|]. by intros [? _]. }
  rewrite bool_decide_eq_true_2 by done. cbn [negb].
  destruct (is_file fs (the_cwd ++ source)) eqn:Hf.
  2: { assert (∀ e1 e2 : exn,
         (if negb (path_exists fs (the_cwd ++ source))
          then inl e1 else inl e2) ≠ (inr tt : exn + unit)) as Hno
         by (intros; by destruct (negb _)).
       split; [|by intros (_ & ? & _)].
       intros [self Hself]. exfalso.
       destruct (negb (path_exists fs (the_cwd ++ source))); discriminate. }
  assert (path_exists fs (the_cwd ++ source) = true) as ->.
  { apply is_file_true in Hf as [d Hd]. apply path_exists_true. eauto. }
  cbn [negb].
  destruct skip; cbn [negb].
  { split; [auto|]. eauto. }
  destruct (LfBuild.re_match _ remote); cbn [negb].
  - split; [auto|]. eauto.
  - split; [by intros [? ?]|]. by intros (_ & _ & [?|?]).
Qed.

Lemma init_succeeds_iff_witness :
  let source := ["src"; "Echo.lf"] in
  (relative source ∧ plain source) ∧
  (∃ self, LfBuild.__init__ Ex.ws Ex.home source "nowhere" true Ex.fs_src
             = inr self) ∧
  ¬ (∃ self, LfBuild.__init__ Ex.ws Ex.home source "nowhere" false Ex.fs_src
               = inr self) ∧
  ¬ (∃ self, LfBuild.__init__ Ex.ws Ex.home ["src"; "Ring.lf"] "u@h:p" false
               Ex.fs_src = inr self).
Proof.
  intros source.
  assert (relative source) as Hrel by (repeat constructor).
  assert (plain source) as Hplain by (split; compute_done).
  assert (relative ["src"; "Ring.lf"]) as Hrel' by (repeat constructor).
  assert (plain ["src"; "Ring.lf"]) as Hplain' by (split; compute_done).
  split; [split; assumption|]. split; [|split].
  - apply (init_succeeds_iff Ex.ws Ex.home source "nowhere" true Ex.fs_src
             Hrel Hplain).
    split; [reflexivity|]. split; [vm_compute; reflexivity|]. left. reflexivity.
  - intros H.
    apply (init_succeeds_iff Ex.ws Ex.home source "nowhere" false Ex.fs_src
             Hrel Hplain) in H as (_ & _ & [H|H]); discriminate H.
  - intros H.
    apply (init_succeeds_iff Ex.ws Ex.home ["src"; "Ring.lf"] "u@h:p" false
             Ex.fs_src Hrel' Hplain') in H as (_ & H & _).
    vm_compute in H. discriminate H.
Defined.

(** ** The loop of [classify_federates] *)

Section ClassificationLoop.
Import BuildSaclay.

Lemma roles_client oc os : roles oc os !! "client" = oc.
Proof. destruct oc, os; unfold roles; by simplify_map_eq. Qed.

Lemma roles_server oc os : roles oc os !! "server" = os.
Proof. destruct oc, os; unfold roles; by simplify_map_eq. Qed.

Lemma roles_other oc os k : k ≠ "client" → k ≠ "server" → roles oc os !! k = None.
Proof. intros. destruct oc, os; unfold roles; by simplify_map_eq. Qed.

Lemma roles_set_client p os : <["client" := p]> (roles None os) = roles (Some p) os.
Proof. destruct os; unfold roles; [|done]. by apply insert_insert_ne. Qed.

Lemma roles_set_server oc p : <["server" := p]> (roles oc None) = roles oc (Some p).
Proof. by destruct oc. Qed.

Lemma has_key_roles_client oc os :
  has_key (roles oc os) "client" = bool_decide (is_Some oc).
Proof. unfold has_key. by rewrite roles_client. Qed.

Lemma has_key_roles_server oc os :
  has_key (roles oc os) "server" = bool_decide (is_Some os).
Proof. unfold has_key. by rewrite roles_server. Qed.

Lemma classify_step_roles oc os p :
  classify_step (roles oc os) p = roles (assign (oc, os) p).1 (assign (oc, os) p).2.
Proof.
  rewrite classify_step_unfold, has_key_roles_client, has_key_roles_server.
  unfold assign.
  destruct (client_named p), oc as [c|]; cbn [andb negb fst snd];
    rewrite ?bool_decide_eq_true_2 by eauto;
    rewrite ?(bool_decide_eq_false_2 (is_Some None)) by (by intros [? ?]);
    cbn [andb negb fst snd]; try apply roles_set_client.
  all: destruct (server_named p), os as [s|]; cbn [andb negb fst snd];
    rewrite ?bool_decide_eq_true_2 by eauto;
    rewrite ?(bool_decide_eq_false_2 (is_Some None)) by (by intros [? ?]);
    cbn [andb negb fst snd]; try reflexivity; apply roles_set_server.
Qed.

Lemma classify_loop_roles l oc os :
  foldl classify_step (roles oc os) l =
    roles (foldl assign (oc, os) l).1 (foldl assign (oc, os) l).2.
Proof.
  revert oc os. induction l as [|p l IH]; intros oc os; [done|].
  cbn [foldl]. rewrite classify_step_roles.
  destruct (assign (oc, os) p) as [oc' os']. apply IH.
Qed.

Lemma values_roles oc os p : p ∈ values (roles oc os) ↔ oc = Some p ∨ os = Some p.
Proof.
  rewrite elem_of_values. split.
  - intros [k Hk]. destruct (decide (k = "client")) as [->|Hc].
    { rewrite roles_client in Hk. auto. }
    destruct (decide (k = "server")) as [->|Hs].
    { rewrite roles_server in Hk. auto. }
    by rewrite roles_other in Hk.
  - intros [->| ->]; [exists "client"; apply roles_client|exists "server"; apply roles_server].
Qed.

Lemma size_roles oc os :
  size (roles oc os) =
    (if oc is Some _ then 1 else 0) + (if os is Some _ then 1 else 0).
Proof.
  destruct oc, os; unfold roles;
    repeat (rewrite map_size_insert_None by (by simplify_map_eq));
    by rewrite map_size_empty.
Qed.

Lemma filter_ext_iff {A} (P Q : A → Prop) `{∀ x, Decision (P x)} `{∀ x, Decision (Q x)}
    (l : list A) :
  (∀ x, P x ↔ Q x) → filter P l = filter Q l.
Proof.
  intros HPQ. induction l as [|x l IH]; [done|].
  rewrite !filter_cons, IH. destruct (decide (P x)), (decide (Q x)); naive_solver.
Qed.

Lemma classify_federates_entries federates :
  classify_federates federates = classify_entries federates.
Proof.
  unfold classify_federates, classify_entries.
  change (∅ : gmap string Path) with (roles None None).
  rewrite classify_loop_roles.
  destruct (foldl assign (None, None) federates) as [oc os]. cbn [fst snd].
  rewrite (filter_ext_iff _ (λ p, ¬ (oc = Some p ∨ os = Some p)))
    by (intros p; by rewrite values_roles).
  destruct (filter _ federates) as [|p [|q rest]], oc as [c|], os as [s|];
    unfold fill_role;
    rewrite ?has_key_roles_client, ?has_key_roles_server;
    rewrite ?bool_decide_eq_true_2 by eauto;
    rewrite ?(bool_decide_eq_false_2 (is_Some None)) by (by intros [? ?]);
    cbn [negb];
    rewrite ?roles_set_client, ?roles_set_server;
    rewrite ?has_key_roles_client, ?has_key_roles_server;
    rewrite ?bool_decide_eq_true_2 by eauto;
    rewrite ?(bool_decide_eq_false_2 (is_Some None)) by (by intros [? ?]);
    cbn [negb];
    rewrite ?roles_set_client, ?roles_set_server;
    rewrite size_roles; cbn [bool_decide]; simpl;
    rewrite ?roles_client, ?roles_server; reflexivity.
Qed.

Lemma assign_keeps st p :
  (∀ c, st.1 = Some c → (assign st p).1 = Some c) ∧
  (∀ s, st.2 = Some s → (assign st p).2 = Some s).
Proof.
  destruct st as [oc os]. unfold assign. cbn [fst snd].
  split; intros x ->.
  - rewrite bool_decide_eq_true_2 by eauto. rewrite andb_false_r.
    by destruct (_ && _).
  - destruct (_ && _); [done|].
    rewrite bool_decide_eq_true_2 by eauto. by rewrite andb_false_r.
Qed.

Lemma assign_loop_keeps l st :
  (∀ c, st.1 = Some c → (foldl assign st l).1 = Some c) ∧
  (∀ s, st.2 = Some s → (foldl assign st l).2 = Some s).
Proof.
  revert st. induction l as [|p l IH]; intros st; [done|]. cbn [foldl].
  destruct (assign_keeps st p) as [Hc Hs]. destruct (IH (assign st p)) as [IHc IHs].
  split; eauto.
Qed.

(** An entry the loop fills is a candidate of the list that bears the tag. *)
Lemma assign_loop_from_list l st :
  (st.1 = None → ∀ c, (foldl assign st l).1 = Some c → c ∈ l ∧ client_named c = true) ∧
  (st.2 = None → ∀ s, (foldl assign st l).2 = Some s → s ∈ l ∧ server_named s = true).
Proof.
  revert st. induction l as [|p l IH]; intros [oc os]; cbn [fst snd foldl].
  { split; intros -> x Hx; discriminate. }
  destruct (IH (assign (oc, os) p)) as [IHc IHs].
  destruct (assign_loop_keeps l (assign (oc, os) p)) as [Kc Ks].
  split; intros -> x Hx.
  - unfold assign in *. cbn [negb] in *.
    rewrite (bool_decide_eq_false_2 (is_Some None)) in * by (by intros [? ?]).
    cbn [negb] in *. rewrite andb_true_r in *.
    destruct (client_named p) eqn:Cp.
    + rewrite (Kc p eq_refl) in Hx. injection Hx as <-. split; [left|done].
    + destruct (server_named p && negb (bool_decide (is_Some os)));
        destruct (IHc eq_refl x Hx); split; try done; by right.
  - unfold assign in *.
    destruct (client_named p && negb (bool_decide (is_Some oc))).
    + destruct (IHs eq_refl x Hx). split; [by right|done].
    + rewrite (bool_decide_eq_false_2 (is_Some None)) in * by (by intros [? ?]).
      cbn [negb] in *. rewrite andb_true_r in *.
      destruct (server_named p) eqn:Sp.
      * rewrite (Ks p eq_refl) in Hx. injection Hx as <-. split; [left|done].
      * destruct (IHs eq_refl x Hx). split; [by right|done].
Qed.

(** On a list without repetition the loop never gives both roles to one
    candidate. *)
Lemma assign_loop_distinct l st :
  NoDup l →
  (∀ c, st.1 = Some c → c ∉ l) → (∀ s, st.2 = Some s → s ∉ l) →
  (∀ x, st.1 = Some x → st.2 = Some x → False) →
  ∀ x, (foldl assign st l).1 = Some x → (foldl assign st l).2 = Some x → False.
Proof.
  intros Hnd. revert st. induction Hnd as [|p l Hp Hnd IH]; intros [oc os] Hc Hs Hne.
  { exact Hne. }
  cbn [foldl fst snd] in *. apply IH.
  - intros c Hc'. unfold assign in Hc'.
    destruct (client_named p && negb (bool_decide (is_Some oc))); cbn [fst] in Hc'.
    + by injection Hc' as <-.
    + assert (oc = Some c) as Hoc by (by destruct (_ && _)).
      intros Hin. apply (Hc c Hoc). by right.
  - intros s Hs'. unfold assign in Hs'.
    destruct (client_named p && negb (bool_decide (is_Some oc))); cbn [snd] in Hs'.
    + intros Hin. apply (Hs s Hs'). by right.
    + destruct (server_named p && negb (bool_decide (is_Some os))); cbn [snd] in Hs'.
      * by injection Hs' as <-.
      * intros Hin. apply (Hs s Hs'). by right.
  - intros x Hx1 Hx2. unfold assign in Hx1, Hx2.
    destruct (client_named p && negb (bool_decide (is_Some oc))); cbn [fst snd] in *.
    + injection Hx1 as <-. apply (Hs p Hx2). left.
    + destruct (server_named p && negb (bool_decide (is_Some os))); cbn [fst snd] in *.
      * injection Hx2 as <-. apply (Hc p Hx1). left.
      * by apply (Hne x).
Qed.

Lemma filter_nonempty {A} (Q : A → Prop) `{∀ x, Decision (Q x)} (l : list A) x :
  x ∈ l → Q x → filter Q l ≠ [].
Proof.
  intros Hin HQ Heq. assert (x ∈ filter Q l) as Hx by (by apply list_elem_of_filter).
  rewrite Heq in Hx. by apply not_elem_of_nil in Hx.
Qed.

Lemma other_candidate (a b : Path) (rest : list Path) (c : Path) :
  a ≠ b → ∃ x, x ∈ a :: b :: rest ∧ x ≠ c.
Proof.
  intros Hab. destruct (decide (a = c)) as [Hac|Hac].
  - exists b. split; [right; left|congruence].
  - exists a. split; [left|done].
Qed.

(** X3. Whatever the names, two or more distinct candidates are classified:
    the call returns two different members of the list. *)
Theorem classify_distinct_candidates (federates : list Path) :
  NoDup federates → (2 ≤ length federates)%nat →
  ∃ c s, classify_federates federates = inr (c, s) ∧
         c ∈ federates ∧ s ∈ federates ∧ c ≠ s.
Proof.
  intros Hnd Hlen. rewrite classify_federates_entries. unfold classify_entries.
  pose proof (assign_loop_from_list federates (None, None)) as [Hfc Hfs].
  pose proof (assign_loop_distinct federates (None, None) Hnd) as Hdist.
  destruct (foldl assign (None, None) federates) as [oc os]. cbn [fst snd] in *.
  specialize (Hfc eq_refl). specialize (Hfs eq_refl).
  assert (∀ x, oc = Some x → os = Some x → False) as Hne
    by (apply Hdist; intros; discriminate).
  destruct federates as [|a [|b rest]]; cbn [length] in Hlen; [lia|lia|].
  assert (a ≠ b) as Hab.
  { apply NoDup_cons in Hnd as [Ha _]. intros ->. apply Ha. left. }
  destruct oc as [c|], os as [s|].
  - exists c, s. destruct (Hfc c eq_refl), (Hfs s eq_refl).
    repeat split; try done. intros ->. by apply (Hne s).
  - destruct (Hfc c eq_refl) as [Hc _].
    destruct (other_candidate a b rest c Hab) as (x & Hx & Hxc).
    destruct (filter _ (a :: b :: rest)) as [|p l] eqn:Hrem.
    + exfalso. eapply (filter_nonempty _ _ x); [exact Hx| |exact Hrem].
      intros [[= ->]|?]; done.
    + assert (p ∈ p :: l) as Hpin by left.
      rewrite <- Hrem in Hpin. apply list_elem_of_filter in Hpin as [Hp Hpin].
      exists c, p. repeat split; try done. intros ->. apply Hp. by left.
  - destruct (Hfs s eq_refl) as [Hs _].
    destruct (other_candidate a b rest s Hab) as (x & Hx & Hxs).
    destruct (filter _ (a :: b :: rest)) as [|p l] eqn:Hrem.
    + exfalso. eapply (filter_nonempty _ _ x); [exact Hx| |exact Hrem].
      intros [?|[= ->]]; done.
    + assert (p ∈ p :: l) as Hpin by left.
      rewrite <- Hrem in Hpin. apply list_elem_of_filter in Hpin as [Hp Hpin].
      exists p, s. repeat split; try done. intros ->. apply Hp. by right.
  - rewrite !filter_cons.
    rewrite !decide_True by (by intros [?|?]).
    exists a, b. repeat split; try done; [left|right; left].
Qed.

(** X4. With fewer than two candidates no name helps: the call raises. *)
Theorem classify_fewer_than_two (federates : list Path) :
  (length federates < 2)%nat →
  classify_federates federates =
    inl (Exn RuntimeError [Lit "Unable to classify federates as client/server"]).
Proof.
  intros Hlen. rewrite classify_federates_entries. unfold classify_entries.
  destruct federates as [|a [|b rest]]; cbn [length] in Hlen; [done| |lia].
  cbn [foldl]. unfold assign.
  rewrite !(bool_decide_eq_false_2 (is_Some None)) by (by intros [? ?]).
  cbn [negb]. rewrite !andb_true_r.
  destruct (client_named a); [|destruct (server_named a)];
    rewrite filter_cons, filter_nil.
  - rewrite decide_False; [done|]. intros H. apply H. by left.
  - rewrite decide_False; [done|]. intros H. apply H. by right.
  - by rewrite decide_True by (by intros [?|?]).
Qed.

Lemma assign_loop_no_client l os :
  Forall (λ p, client_named p = false) l →
  (foldl assign (None, os) l).1 = None.
Proof.
  revert os. induction l as [|p l IH]; intros os Hall; [done|].
  apply Forall_cons in Hall as [Hp Hall]. cbn [foldl]. unfold assign at 2.
  rewrite Hp. cbn [andb].
  destruct (server_named p && negb (bool_decide (is_Some os))); by apply IH.
Qed.

(** X5. The client role goes to the first candidate, in list order, whose name
    holds a client tag. *)
Theorem classify_first_client_tag (before after : list Path) (p c s : Path) :
  Forall (λ q, client_named q = false) before →
  client_named p = true →
  classify_federates (before ++ p :: after) = inr (c, s) →
  c = p.
Proof.
  intros Hbefore Hp. rewrite classify_federates_entries. unfold classify_entries.
  rewrite foldl_app. cbn [foldl].
  pose proof (assign_loop_no_client before None Hbefore) as Hnone.
  destruct (foldl assign (None, None) before) as [oc os]. cbn [fst] in Hnone. subst oc.
  assert (assign (None, os) p = (Some p, os)) as ->.
  { unfold assign. rewrite Hp.
    by rewrite (bool_decide_eq_false_2 (is_Some None)) by (by intros [? ?]). }
  destruct (assign_loop_keeps after (Some p, os)) as [Hkeep _].
  specialize (Hkeep p eq_refl).
  destruct (foldl assign (Some p, os) after) as [oc' os']. cbn [fst] in Hkeep. subst oc'.
  destruct os' as [s'|]; [by intros [= <- _]|].
  destruct (filter _ _) as [|q rest]; [done|]. by intros [= <- _].
Qed.

Lemma assign_loop_untagged l :
  Forall (λ p, client_named p = false ∧ server_named p = false) l →
  foldl assign (None, None) l = (None, None).
Proof.
  induction l as [|p l IH]; intros Hall; [done|].
  apply Forall_cons in Hall as [[Cp Sp] Hall]. cbn [foldl]. unfold assign at 2.
  rewrite Cp, Sp. cbn [andb]. by apply IH.
Qed.

(** X6. Without any tag the first two candidates take the roles and the rest
    of the list, however long, is passed over. *)
Theorem classify_untagged_first_two (a b : Path) (rest : list Path) :
  Forall (λ p, client_named p = false ∧ server_named p = false) (a :: b :: rest) →
  classify_federates (a :: b :: rest) = inr (a, b).
Proof.
  intros Hall. rewrite classify_federates_entries. unfold classify_entries.
  rewrite assign_loop_untagged by done.
  rewrite !filter_cons. by rewrite !decide_True by (by intros [?|?]).
Qed.

(** X7. Two distinct candidates: which tags decide, in which order. *)
Theorem classify_decision_table (a b : Path) :
  a ≠ b →
  classify_federates [a; b] =
    inr (if client_named a then (a, b)
         else if server_named a then (b, a)
         else if client_named b then (b, a)
         else (a, b)).
Proof.
  intros Hab. rewrite classify_federates_entries.
  unfold classify_entries, assign. cbn [foldl].
  rewrite !(bool_decide_eq_false_2 (is_Some None)) by (by intros [? ?]).
  cbn [negb]. rewrite !andb_true_r.
  destruct (client_named a), (server_named a), (client_named b), (server_named b);
    cbn [andb negb];
    rewrite ?bool_decide_eq_true_2 by eauto;
    rewrite ?(bool_decide_eq_false_2 (is_Some None)) by (by intros [? ?]);
    cbn [andb negb]; try reflexivity;
    rewrite !filter_cons, filter_nil;
    repeat (destruct (decide _) as [?|?]); try reflexivity; naive_solver.
Qed.

(** X8. The only way [classify_federates] fails is its own [RuntimeError]: the
    two lookups that end it never miss a key. *)
Theorem classify_fails_with_runtime_error (federates : list Path) (e : exn) :
  classify_federates federates = inl e →
  e = Exn RuntimeError [Lit "Unable to classify federates as client/server"].
Proof.
  rewrite classify_federates_entries. unfold classify_entries.
  destruct (foldl assign (None, None) federates) as [oc os].
  destruct (filter _ federates) as [|p [|q rest]], oc as [c|], os as [s|];
    congruence.
Qed.

(** X9. What [find_federates] returns, [classify_federates] accepts: the two
    roles go to the two subdirectories of the generated directory, one
    each. *)
Theorem find_then_classify (root : Path) (main_name : string) (fs : FS)
    (federates : list Path) :
  find_federates root main_name fs = inr federates →
  ∃ c s, classify_federates federates = inr (c, s) ∧ c ≠ s ∧
         subdirectories fs (root // "src-gen" // main_name) = {[c; s]}.
Proof.
  intros Hfind.
  destruct (is_dir fs (root // "src-gen" // main_name)) eqn:Hd.
  2: { unfold find_federates in Hfind. by rewrite Hd in Hfind. }
  destruct (find_federates_count root main_name fs Hd) as [Hne Heq].
  destruct (decide (size (subdirectories fs (root // "src-gen" // main_name)) = 2))
    as [H2|H2].
  2: { rewrite (Hne H2) in Hfind. done. }
  destruct (Heq H2) as (a & b & Hab & Hset & Hlt).
  rewrite Hab in Hfind. injection Hfind as <-.
  assert (a ≠ b) as Hne'.
  { intros ->. pose proof (reflexivity (R := path_le) b) as Hr.
    unfold path_le in Hr. congruence. }
  rewrite classify_two by done. rewrite Hset.
  destruct (client_named a), (server_named a), (client_named b);
    eexists _, _; (split; [reflexivity|]); split; auto; set_solver.
Qed.

Lemma classify_distinct_candidates_witness :
  let l := [Ex.ring_dir // "a"; Ex.ring_dir // "b"; Ex.ring_dir // "c"] in
  NoDup l ∧ (2 ≤ length l)%nat ∧
  ∃ c s, classify_federates l = inr (c, s) ∧ c ∈ l ∧ s ∈ l ∧ c ≠ s.
Proof.
  intros l. assert (NoDup l) as Hnd by compute_done.
  assert (2 ≤ length l)%nat as Hlen by (simpl; lia).
  split; [exact Hnd|]. split; [exact Hlen|].
  exact (classify_distinct_candidates l Hnd Hlen).
Defined.

Lemma classify_fewer_than_two_witness :
  let l := [Ex.echo_dir // "EchoClient"] in
  (length l < 2)%nat ∧
  classify_federates l =
    inl (Exn RuntimeError [Lit "Unable to classify federates as client/server"]).
Proof.
  intros l. assert (length l < 2)%nat as Hlen by (simpl; lia).
  split; [exact Hlen|]. exact (classify_fewer_than_two l Hlen).
Defined.

Lemma classify_first_client_tag_witness :
  let server := Ex.echo_dir // "EchoServer" in
  let client := Ex.echo_dir // "EchoClient" in
  let other := Ex.echo_dir // "send_more" in
  Forall (λ q, client_named q = false) [server] ∧
  client_named client = true ∧ client_named other = true ∧
  classify_federates ([server] ++ client :: [other]) = inr (client, server).
Proof.
  intros server client other.
  assert (Forall (λ q, client_named q = false) [server]) as Hb
    by (repeat constructor).
  assert (client_named client = true) as Hc by reflexivity.
  assert (∃ c s, classify_federates ([server] ++ client :: [other]) = inr (c, s))
    as (c & s & Hcs) by (eexists _, _; vm_compute; reflexivity).
  pose proof (classify_first_client_tag [server] [other] client c s Hb Hc Hcs) as ->.
  split; [exact Hb|]. split; [exact Hc|]. split; [reflexivity|].
  rewrite Hcs. vm_compute in Hcs. injection Hcs as <-. reflexivity.
Defined.

Lemma classify_untagged_first_two_witness :
  let l := [Ex.echo_dir // "fed0"; Ex.echo_dir // "fed1"; Ex.echo_dir // "fed2"] in
  Forall (λ p, client_named p = false ∧ server_named p = false) l ∧
  classify_federates l = inr (Ex.echo_dir // "fed0", Ex.echo_dir // "fed1").
Proof.
  intros l.
  assert (Forall (λ p, client_named p = false ∧ server_named p = false) l) as Hall
    by (repeat constructor).
  split; [exact Hall|]. exact (classify_untagged_first_two _ _ _ Hall).
Defined.

Lemma classify_decision_table_witness :
  let a := Ex.echo_dir // "recv_side" in
  let b := Ex.echo_dir // "fed1" in
  a ≠ b ∧ classify_federates [a; b] = inr (b, a).
Proof.
  intros a b. assert (a ≠ b) as Hab by (vm_compute; discriminate).
  split; [exact Hab|]. exact (classify_decision_table a b Hab).
Defined.

Lemma classify_fails_with_runtime_error_witness :
  ∃ e, classify_federates [] = inl e ∧
       e = Exn RuntimeError [Lit "Unable to classify federates as client/server"].
Proof.
  assert (∃ e, classify_federates [] = inl e) as [e He]
    by (eexists; vm_compute; reflexivity).
  exists e. split; [exact He|].
  exact (classify_fails_with_runtime_error [] e He).
Defined.

Lemma find_then_classify_witness :
  let client := Ex.echo_dir // "EchoClient" in
  let server := Ex.echo_dir // "EchoServer" in
  find_federates Ex.ws "Echo" Ex.fs_echo = inr [client; server] ∧
  ∃ c s, classify_federates [client; server] = inr (c, s) ∧ c ≠ s ∧
         subdirectories Ex.fs_echo Ex.echo_dir = {[c; s]}.
Proof.
  intros client server.
  assert (find_federates Ex.ws "Echo" Ex.fs_echo = inr [client; server]) as Hfind
    by (vm_compute; reflexivity).
  split; [exact Hfind|]. exact (find_then_classify _ _ _ _ Hfind).
Defined.

End ClassificationLoop.

(** ** Steps that only add, steps that only remove *)

Lemma only_adds_refl w : only_adds w w.
Proof. by repeat split. Qed.

Lemma only_adds_trans w1 w2 w3 : only_adds w1 w2 → only_adds w2 w3 → only_adds w1 w3.
Proof.
  intros (Hi & Hd & He) (Hi' & Hd' & He'). repeat split; [congruence|auto..].
Qed.

Lemma only_adds_bind {A B} (m : M A) (k : A → M B) w :
  only_adds w (m w).2 → (∀ a w1, only_adds w1 (k a w1).2) →
  only_adds w ((m ≫= k) w).2.
Proof.
  intros Hm Hk. unfold mbind, M_bind, bind.
  destruct (m w) as [[e|a] w1]; [exact Hm|].
  eapply only_adds_trans; [exact Hm|apply Hk].
Qed.

Lemma only_adds_for_each {A} (l : list A) (body : A → M unit) w :
  (∀ a w1, only_adds w1 (body a w1).2) → only_adds w (for_each l body w).2.
Proof.
  intros Hbody. revert w. induction l as [|x l IH]; intros w.
  { apply only_adds_refl. }
  cbn [for_each]. apply only_adds_bind; [apply Hbody|]. intros _ w1. apply IH.
Qed.

Lemma only_adds_insert (fs0 : FS) p n inv :
  fs0 !! p ≠ Some Dir →
  only_adds (mkWorld fs0 inv) (mkWorld (<[p := n]> fs0) inv).
Proof.
  intros Hp. repeat split; cbn [fs invocations].
  - intros q Hq. rewrite lookup_insert_ne; [done|]. intros <-. congruence.
  - intros q Hq. destruct (decide (p = q)) as [<-|Hne].
    + rewrite lookup_insert_eq. eauto.
    + by rewrite lookup_insert_ne.
Qed.

Lemma only_adds_mkdir_parents p w : only_adds w (mkdir_parents p w).2.
Proof.
  unfold mkdir_parents. destruct (existsb _ _); [apply only_adds_refl|].
  repeat split; cbn [snd fs invocations]; intros q Hq;
    rewrite made_dirs_lookup.
  - by rewrite Hq.
  - destruct Hq as [n ->]. eauto.
Qed.

Lemma only_adds_mkdir_exist_ok p w : only_adds w (mkdir_exist_ok p w).2.
Proof.
  unfold mkdir_exist_ok.
  destruct (fs w !! p) as [[|]|] eqn:Hp; try apply only_adds_refl.
  destruct (fs w !! parent p) as [[|]|]; try apply only_adds_refl.
  destruct w as [f i]. cbn [snd fs invocations] in *.
  apply only_adds_insert. congruence.
Qed.

Lemma only_adds_copy2 src dst w : only_adds w (copy2 src dst w).2.
Proof.
  unfold copy2.
  destruct (fs w !! src) as [[data|]|]; try apply only_adds_refl.
  destruct (decide _); [apply only_adds_refl|].
  destruct (is_dir (fs w) (if is_dir (fs w) dst then dst // name src else dst))
    eqn:Hd; [apply only_adds_refl|].
  destruct (negb _); [apply only_adds_refl|].
  destruct w as [f i]. cbn [snd fs invocations] in *.
  apply only_adds_insert. intros Hdir. apply is_dir_true in Hdir. congruence.
Qed.

Lemma only_removes_refl w : only_removes w w.
Proof. split; auto. Qed.

Lemma only_removes_trans w1 w2 w3 :
  only_removes w1 w2 → only_removes w2 w3 → only_removes w1 w3.
Proof.
  intros [Hi Hr] [Hi' Hr']. split; [congruence|].
  intros q. destruct (Hr' q) as [?|Hq]; [by left|]. rewrite Hq. apply Hr.
Qed.

Lemma only_removes_bind {A B} (m : M A) (k : A → M B) w :
  only_removes w (m w).2 → (∀ a w1, only_removes w1 (k a w1).2) →
  only_removes w ((m ≫= k) w).2.
Proof.
  intros Hm Hk. unfold mbind, M_bind, bind.
  destruct (m w) as [[e|a] w1]; [exact Hm|].
  eapply only_removes_trans; [exact Hm|apply Hk].
Qed.

Lemma only_removes_rmtree p w : only_removes w (rmtree p w).2.
Proof.
  unfold rmtree. destruct (fs w !! p) as [[|]|]; try apply only_removes_refl.
  split; [done|]. intros q. cbn [snd fs]. rewrite lookup_removed.
  destruct (decide _); auto.
Qed.

Lemma only_removes_remove_if_exists p w : only_removes w (remove_if_exists p w).2.
Proof.
  unfold remove_if_exists. apply only_removes_bind; [apply only_removes_refl|].
  intros [|] w1; [apply only_removes_rmtree|apply only_removes_refl].
Qed.

(** ** [stage_binaries], whatever it finds *)

Lemma stage_binaries_only_adds (client_elf server_elf root : Path) (w : World) :
  only_adds w (BuildSaclay.stage_binaries client_elf server_elf root w).2.
Proof.
  unfold BuildSaclay.stage_binaries.
  apply only_adds_bind; [apply only_adds_mkdir_parents|]. intros _ w1.
  apply only_adds_bind; [apply only_adds_copy2|]. intros _ w2.
  apply only_adds_bind; [apply only_adds_copy2|]. intros _ w3.
  apply only_adds_refl.
Qed.

(** X10. Staging starts no process, removes no entry and replaces no
    directory, whether it succeeds or raises. *)
Theorem stage_binaries_keeps_entries (client_elf server_elf root : Path) (w : World) :
  let after := (BuildSaclay.stage_binaries client_elf server_elf root w).2 in
  invocations after = invocations w ∧
  (∀ q, fs w !! q = Some Dir → fs after !! q = Some Dir) ∧
  (∀ q, is_Some (fs w !! q) → is_Some (fs after !! q)).
Proof.
  unfold BuildSaclay.stage_binaries.
  apply only_adds_bind; [apply only_adds_mkdir_parents|]. intros _ w1.
  apply only_adds_bind; [apply only_adds_copy2|]. intros _ w2.
  apply only_adds_bind; [apply only_adds_copy2|]. intros _ w3.
  apply only_adds_refl.
Qed.

(** X11. A regular file where [build/programs] or one of the directories
    leading to it should be stops the staging before anything is copied. *)
Theorem stage_binaries_blocked (client_elf server_elf root q : Path) (w : World) :
  q `prefix_of` staging_dir root → is_file (fs w) q = true →
  BuildSaclay.stage_binaries client_elf server_elf root w =
    (inl (Exn (if is_file (fs w) (staging_dir root) then FileExistsError
               else NotADirectoryError) [PathV (staging_dir root)]), w).
Proof.
  intros Hq Hf. unfold BuildSaclay.stage_binaries.
  apply bind_raise. unfold mkdir_parents. fold (staging_dir root).
  assert (existsb (is_file (fs w)) (prefixes (staging_dir root)) = true) as ->;
    [|done].
  apply existsb_exists. exists q. split; [|done].
  apply list_elem_of_In, elem_of_prefixes, Hq.
Qed.

Lemma stage_binaries_blocked_witness :
  let w := mkWorld (<[Ex.ws // "build" := File "notes"]> Ex.fs_echo) [] in
  let client := fixed_elf (Ex.echo_dir // "EchoClient") in
  let server := fixed_elf (Ex.echo_dir // "EchoServer") in
  (Ex.ws // "build") `prefix_of` staging_dir Ex.ws ∧
  is_file (fs w) (Ex.ws // "build") = true ∧
  (BuildSaclay.stage_binaries client server Ex.ws w).1 =
    inl (Exn NotADirectoryError [PathV (Ex.ws ++ ["build"; "programs"])]).
Proof.
  intros w client server.
  assert ((Ex.ws // "build") `prefix_of` staging_dir Ex.ws) as Hp
    by (by exists ["programs"]).
  assert (is_file (fs w) (Ex.ws // "build") = true) as Hf
    by (vm_compute; reflexivity).
  split; [exact Hp|]. split; [exact Hf|].
  rewrite (stage_binaries_blocked client server Ex.ws _ w Hp Hf).
  vm_compute. reflexivity.
Defined.

(** ** A whole run of [build-saclay.py] *)

Lemma bind_inv_ok {A B} (m : M A) (k : A → M B) w b w' :
  (m ≫= k) w = (inr b, w') → ∃ a w1, m w = (inr a, w1) ∧ k a w1 = (inr b, w').
Proof.
  unfold mbind, M_bind, bind. destruct (m w) as [[e|a] w1]; [done|]. eauto.
Qed.

Lemma reading_inv_ok {A} (f : FS → exn + A) w a w' :
  reading f w = (inr a, w') → f (fs w) = inr a ∧ w' = w.
Proof. unfold reading. by intros [= -> ->]. Qed.

Lemma subprocess_run_invocations exec argv cwd capture w :
  invocations (subprocess_run exec argv cwd capture w).2 = invocations w ++ [argv].
Proof.
  unfold subprocess_run. destruct (exec cwd argv (fs w)) as [[|rc out err] fs'];
    [done|]. by destruct (bool_decide _).
Qed.

Lemma run_invocations exec command cwd w :
  invocations (BuildSaclay.run exec command cwd w).2 = invocations w ++ [command].
Proof.
  unfold BuildSaclay.run, mbind, M_bind, bind.
  pose proof (subprocess_run_invocations exec command cwd false w) as H.
  by destruct (subprocess_run exec command cwd false w) as [[e|a] w1].
Qed.

Lemma clear_src_gen_only_removes root w :
  only_removes w (BuildSaclay.clear_src_gen root w).2.
Proof. apply (only_removes_remove_if_exists (root // "src-gen")). Qed.

Lemma run_lfc_inv_ok home exec lf_path root w u w' :
  BuildSaclay.run_lfc home exec lf_path root w = (inr u, w') →
  is_file (fs w) (home ++ ["reactor-uc"; "lfc"; "bin"; "lfc-dev"]) = true ∧
  invocations w' =
    invocations w ++ [[PathV (home ++ ["reactor-uc"; "lfc"; "bin"; "lfc-dev"]);
                       PathV lf_path]].
Proof.
  unfold BuildSaclay.run_lfc. intros (found & w1 & Hask & Hrun)%bind_inv_ok.
  unfold asking in Hask. injection Hask as <- <-.
  destruct (is_file (fs w) _); cbn [negb] in Hrun; [|done].
  split; [done|].
  pose proof (run_invocations exec
    [PathV (home ++ ["reactor-uc"; "lfc"; "bin"; "lfc-dev"]); PathV lf_path]
    (Some root) w) as Hinv.
  by rewrite Hrun in Hinv.
Qed.

Lemma stage_binaries_inv_ok client_elf server_elf root w r w' :
  BuildSaclay.stage_binaries client_elf server_elf root w = (inr r, w') →
  r = (staging_dir root // "echo_client.elf", staging_dir root // "echo_server.elf") ∧
  invocations w' = invocations w.
Proof.
  intros H.
  pose proof (stage_binaries_only_adds client_elf server_elf root w) as [Hinv _].
  rewrite H in Hinv. split; [|exact Hinv].
  unfold BuildSaclay.stage_binaries in H.
  apply bind_inv_ok in H as (_ & w1 & _ & H).
  apply bind_inv_ok in H as (_ & w2 & _ & H).
  apply bind_inv_ok in H as (_ & w3 & _ & H).
  by injection H as <- _.
Qed.

(** X12. A run that ends with status 0 has started exactly two programs: the
    compiler on the source file, in the project root, and then one [scp]
    carrying the two staged binaries to the destination as it was given. *)
Theorem main_success_invocations (home : Path) (exec : Exec)
    (lf_path root : Path) (remote : string) (w : World) :
  let lfc := home ++ ["reactor-uc"; "lfc"; "bin"; "lfc-dev"] in
  let after := BuildSaclay.main home exec lf_path root remote w in
  after.1 = 0%Z →
  invocations after.2 =
    invocations w ++
      [[PathV lfc; PathV lf_path];
       [Lit "scp"; PathV (staging_dir root // "echo_client.elf");
        PathV (staging_dir root // "echo_server.elf"); StrV remote]].
Proof.
  intros lfc after. subst after. unfold BuildSaclay.main.
  destruct (_ || _); [done|].
  destruct (BuildSaclay.pipeline home exec lf_path root remote w)
    as [[e|u] w'] eqn:Hp; [done|].
  intros _. cbn [snd]. unfold BuildSaclay.pipeline in Hp.
  apply bind_inv_ok in Hp as (u0 & w0 & Hclear & Hp).
  pose proof (clear_src_gen_only_removes root w) as [Hinv0 _].
  rewrite Hclear in Hinv0. cbn [snd] in Hinv0.
  apply bind_inv_ok in Hp as (u1 & w1 & Hlfc & Hp).
  apply run_lfc_inv_ok in Hlfc as [_ Hinv1].
  apply bind_inv_ok in Hp as (federates & w2 & [_ ->]%reading_inv_ok & Hp).
  apply bind_inv_ok in Hp as ([cdir sdir] & w3 & [_ ->]%reading_inv_ok & Hp).
  apply bind_inv_ok in Hp as (celf & w4 & [_ ->]%reading_inv_ok & Hp).
  apply bind_inv_ok in Hp as (self & w5 & [_ ->]%reading_inv_ok & Hp).
  apply bind_inv_ok in Hp as ([cd sd] & w6 & Hstage & Hp).
  apply stage_binaries_inv_ok in Hstage as [[= -> ->] Hinv6].
  pose proof (scp_binaries_invocation exec
    [staging_dir root // "echo_client.elf"; staging_dir root // "echo_server.elf"]
    remote w6) as Hscp.
  rewrite Hp in Hscp. cbn [snd] in Hscp.
  rewrite Hscp, Hinv6, Hinv1, Hinv0, <- app_assoc. done.
Qed.

Lemma main_success_invocations_witness :
  let w := mkWorld Ex.fs_src [] in
  let after := BuildSaclay.main Ex.home Ex.compiler_ok
                 (Ex.ws ++ ["src"; "Echo.lf"]) Ex.ws "dev@host:bin" w in
  after.1 = 0%Z ∧
  invocations after.2 =
    [[PathV Ex.lfc; PathV (Ex.ws ++ ["src"; "Echo.lf"])];
     [Lit "scp"; PathV (Ex.ws ++ ["build"; "programs"; "echo_client.elf"]);
      PathV (Ex.ws ++ ["build"; "programs"; "echo_server.elf"]);
      StrV "dev@host:bin"]].
Proof.
  intros w after.
  assert (after.1 = 0%Z) as H0 by (vm_compute; reflexivity).
  split; [exact H0|].
  exact (main_success_invocations Ex.home Ex.compiler_ok
           (Ex.ws ++ ["src"; "Echo.lf"]) Ex.ws "dev@host:bin" w H0).
Defined.

(** X13. Without the compiler at [~/reactor-uc/lfc/bin/lfc-dev] the run ends
    with status 1 and no process started; the generated sources of every
    program are gone by then. *)
Theorem main_missing_compiler (home : Path) (exec : Exec)
    (lf_path root : Path) (remote : string) (w : World) :
  let lfc := home ++ ["reactor-uc"; "lfc"; "bin"; "lfc-dev"] in
  suffix lf_path = ".lf" → is_file (fs w) lf_path = true →
  is_file (fs w) (root // "src-gen") = false →
  is_file (fs w) lfc = false →
  ∃ w', BuildSaclay.pipeline home exec lf_path root remote w =
          (inl (Exn FileNotFoundError [Lit "Missing compiler binary: "; PathV lfc]),
           w') ∧
        BuildSaclay.main home exec lf_path root remote w = (1%Z, w') ∧
        invocations w' = invocations w ∧
        path_exists (fs w') (root // "src-gen") = false.
Proof.
  intros lfc Hs Hf Hgen Hlfc.
  destruct (clear_src_gen_spec root w Hgen) as (w' & Hclear & Hinv & _ & _ & Hgone & _).
  pose proof (clear_src_gen_only_removes root w) as [_ Hrem].
  rewrite Hclear in Hrem. cbn [snd] in Hrem.
  assert (is_file (fs w') lfc = false) as Hlfc'.
  { unfold is_file in *. destruct (Hrem lfc) as [->| ->]; done. }
  assert (BuildSaclay.pipeline home exec lf_path root remote w =
            (inl (Exn FileNotFoundError [Lit "Missing compiler binary: "; PathV lfc]),
             w')) as Hp.
  { unfold BuildSaclay.pipeline. rewrite (bind_ok _ _ _ _ _ Hclear).
    apply bind_raise. unfold BuildSaclay.run_lfc.
    erewrite bind_ok by reflexivity. fold lfc. by rewrite Hlfc'. }
  exists w'. split; [exact Hp|]. split; [|done].
  unfold BuildSaclay.main. rewrite Hs, Hf, Hp.
  by rewrite bool_decide_eq_true_2 by done.
Qed.

Lemma main_missing_compiler_witness :
  let w := mkWorld (delete Ex.lfc Ex.fs_echo) [] in
  let after := BuildSaclay.main Ex.home Ex.compiler_ok
                 (Ex.ws ++ ["src"; "Echo.lf"]) Ex.ws "dev@host:bin" w in
  (suffix (Ex.ws ++ ["src"; "Echo.lf"]) = ".lf" ∧
   is_file (fs w) (Ex.ws ++ ["src"; "Echo.lf"]) = true ∧
   is_file (fs w) (Ex.ws // "src-gen") = false ∧
   is_file (fs w) Ex.lfc = false) ∧
  path_exists (fs w) (Ex.ws // "src-gen") = true ∧
  after.1 = 1%Z ∧ invocations after.2 = [] ∧
  path_exists (fs after.2) (Ex.ws // "src-gen") = false.
Proof.
  intros w after.
  assert (suffix (Ex.ws ++ ["src"; "Echo.lf"]) = ".lf") as Hs by reflexivity.
  assert (is_file (fs w) (Ex.ws ++ ["src"; "Echo.lf"]) = true) as Hf
    by (vm_compute; reflexivity).
  assert (is_file (fs w) (Ex.ws // "src-gen") = false) as Hg
    by (vm_compute; reflexivity).
  assert (is_file (fs w) Ex.lfc = false) as Hl by (vm_compute; reflexivity).
  destruct (main_missing_compiler Ex.home Ex.compiler_ok
              (Ex.ws ++ ["src"; "Echo.lf"]) Ex.ws "dev@host:bin" w Hs Hf Hg Hl)
    as (w' & _ & Hmain & Hinv & Hgone).
  split; [repeat split; assumption|].
  split; [vm_compute; reflexivity|].
  subst after. rewrite Hmain. cbn [fst snd]. split; [reflexivity|].
  split; [exact Hinv|exact Hgone].
Defined.

(** ** What [resolve_elf] returns *)

(** X14. The path [resolve_elf] returns is an existing entry named
    [zephyr.elf], strictly below the federate directory. *)
Theorem resolve_elf_result (federate_dir : Path) (fs : FS) (m : Path) :
  BuildSaclay.resolve_elf federate_dir fs = inr m →
  under federate_dir m ∧ m ≠ federate_dir ∧ name m = "zephyr.elf" ∧
  path_exists fs m = true.
Proof.
  intros Hres.
  destruct (is_file fs (fixed_elf federate_dir)) eqn:Hf.
  - rewrite resolve_elf_fixed in Hres by exact Hf. injection Hres as <-.
    split; [apply under_fixed_elf|]. split.
    + intros H. apply (f_equal length) in H. unfold fixed_elf, child in H.
      rewrite !length_app in H. simpl in H. lia.
    + split; [apply name_child|].
      apply is_file_true in Hf as [d Hd]. apply path_exists_true. eauto.
  - destruct (rglob fs federate_dir "zephyr.elf") as [|q l] eqn:Hg.
    + rewrite resolve_elf_missing in Hres; [discriminate|exact Hf|exact Hg].
    + destruct (resolve_elf_fallback federate_dir fs Hf) as (m' & Hm' & Hin & _).
      { rewrite Hg. discriminate. }
      rewrite Hm' in Hres. injection Hres as <-.
      apply elem_of_rglob in Hin as (Hex & Hp & Hlen & Hname & _).
      split; [exact Hp|]. split; [intros ->; lia|].
      split; [exact Hname|]. by apply path_exists_true.
Qed.

Lemma resolve_elf_result_witness :
  let fed0 := Ex.echo_dir // "fed0" in
  let found := fed0 ++ ["out"; "pre"; "zephyr.elf"] in
  BuildSaclay.resolve_elf fed0 Ex.fs_nested = inr found ∧
  under fed0 found ∧ found ≠ fed0 ∧ name found = "zephyr.elf" ∧
  path_exists Ex.fs_nested found = true.
Proof.
  intros fed0 found.
  assert (BuildSaclay.resolve_elf fed0 Ex.fs_nested = inr found) as Hres
    by (vm_compute; reflexivity).
  split; [exact Hres|]. exact (resolve_elf_result fed0 Ex.fs_nested found Hres).
Defined.

(** ** The argument check of [main] *)

(** X15. Status 2 is kept for a bad argument, a path that is not an existing
    regular file with the extension [.lf]; nothing has been done then. *)
Theorem main_status_two (home : Path) (exec : Exec) (lf_path root : Path)
    (remote : string) (w : World) :
  let after := BuildSaclay.main home exec lf_path root remote w in
  (after.1 = 2%Z ↔ suffix lf_path ≠ ".lf" ∨ is_file (fs w) lf_path = false) ∧
  (after.1 = 2%Z → after.2 = w).
Proof.
  unfold BuildSaclay.main.
  destruct (decide (suffix lf_path = ".lf")) as [Hs|Hs].
  2: { rewrite bool_decide_eq_false_2 by done. cbn [negb orb fst snd].
       split; [split; auto|done]. }
  rewrite bool_decide_eq_true_2 by done.
  destruct (is_file (fs w) lf_path); cbn [negb orb fst snd].
  2: { split; [split; auto|done]. }
  destruct (BuildSaclay.pipeline home exec lf_path root remote w) as [[e|u] w'];
    cbn [fst snd]; (split; [split; [done|by intros [?|?]]|done]).
Qed.

(** ** [clean], whatever it finds *)

Lemma remove_if_exists_within p w :
  let after := (remove_if_exists p w).2 in
  invocations after = invocations w ∧
  ∀ q, fs after !! q = fs w !! q ∨ (fs after !! q = None ∧ under p q).
Proof.
  unfold remove_if_exists, mbind, M_bind, bind, asking.
  destruct (path_exists (fs w) p); [|by split; auto].
  unfold rmtree. destruct (fs w !! p) as [[|]|]; try (by split; auto).
  split; [done|]. intros q. cbn [snd fs]. rewrite lookup_removed.
  destruct (decide _); auto.
Qed.

(** X16. When its two directories are [plain] (no [.] or [..] in them),
    [clean] starts no process, makes or changes no entry, and removes
    nothing outside the staging directory and the generated directory of
    its own program, whether it succeeds or raises. *)
Theorem clean_touches_only_its_directories (self : LfBuild.LFBuilder) (w : World) :
  let after := (LfBuild.clean self w).2 in
  plain (LfBuild.fed_build_dir self) →
  plain (LfBuild.src_gen_project_dir self) →
  invocations after = invocations w ∧
  ∀ q, fs after !! q = fs w !! q ∨
       (fs after !! q = None ∧
        (under (LfBuild.fed_build_dir self) q ∨
         under (LfBuild.src_gen_project_dir self) q)).
Proof.
  intros after _ _. subst after.
  rewrite clean_unfold. unfold mbind, M_bind, bind.
  pose proof (remove_if_exists_within (LfBuild.fed_build_dir self) w) as [Hi1 Hq1].
  destruct (remove_if_exists (LfBuild.fed_build_dir self) w) as [[e|u] w1];
    cbn [snd] in *.
  { split; [done|]. intros q. destruct (Hq1 q) as [?|[? ?]]; auto. }
  pose proof (remove_if_exists_within (LfBuild.src_gen_project_dir self) w1)
    as [Hi2 Hq2].
  destruct (remove_if_exists (LfBuild.src_gen_project_dir self) w1) as [[e|u'] w2];
    unfold mret, M_ret, ret; cbn [snd] in *.
  all: split; [congruence|]; intros q;
    destruct (Hq2 q) as [Hq|[? ?]]; [|by auto];
    rewrite Hq; destruct (Hq1 q) as [?|[? ?]]; auto.
Qed.

Lemma clean_touches_only_its_directories_witness :
  let w := mkWorld Ex.fs_two_programs [] in
  let other := Ex.ws ++ ["src-gen"; "Other"; "fed"; "main.c"] in
  let after := (LfBuild.clean Ex.echo_builder w).2 in
  (plain (LfBuild.fed_build_dir Ex.echo_builder) ∧
   plain (LfBuild.src_gen_project_dir Ex.echo_builder)) ∧
  invocations after = [] ∧
  fs after !! other = Some (File "other") ∧
  fs after !! fixed_elf (Ex.echo_dir // "EchoClient") = None.
Proof.
  intros w other after.
  assert (plain (LfBuild.fed_build_dir Ex.echo_builder)) as HB
    by (split; compute_done).
  assert (plain (LfBuild.src_gen_project_dir Ex.echo_builder)) as HP
    by (split; compute_done).
  destruct (clean_touches_only_its_directories Ex.echo_builder w HB HP)
    as [Hinv Hq].
  split; [split; assumption|]. split; [exact Hinv|]. split.
  - destruct (Hq other) as [Heq|[_ [[rest Hu]|[rest Hu]]]].
    + etrans; [exact Heq|]. vm_compute. reflexivity.
    + exfalso. vm_compute in Hu. discriminate Hu.
    + exfalso. vm_compute in Hu. discriminate Hu.
  - vm_compute. reflexivity.
Defined.

(** X17. When its two directories are [plain], cleaning twice is cleaning
    once. *)
Theorem clean_twice (self : LfBuild.LFBuilder) (w : World) :
  plain (LfBuild.fed_build_dir self) →
  plain (LfBuild.src_gen_project_dir self) →
  is_file (fs w) (LfBuild.fed_build_dir self) = false →
  is_file (fs w) (LfBuild.src_gen_project_dir self) = false →
  ∃ w', LfBuild.clean self w = (inr tt, w') ∧
        LfBuild.clean self w' = (inr tt, w').
Proof.
  intros _ _ HB HP.
  destruct (clean_spec self w HB HP) as (w' & Hclean & _ & _ & _ & HB' & HP' & _).
  exists w'. split; [exact Hclean|].
  destruct (clean_spec self w') as (w'' & Hclean' & _ & _ & _ & _ & _ & Hsame).
  { unfold is_file. apply path_exists_false in HB'. by rewrite HB'. }
  { unfold is_file. apply path_exists_false in HP'. by rewrite HP'. }
  by rewrite Hclean', (Hsame HB' HP').
Qed.

Lemma clean_twice_witness :
  let w := mkWorld Ex.fs_echo [] in
  (plain (LfBuild.fed_build_dir Ex.echo_builder) ∧
   plain (LfBuild.src_gen_project_dir Ex.echo_builder)) ∧
  (is_file (fs w) (LfBuild.fed_build_dir Ex.echo_builder) = false ∧
   is_file (fs w) (LfBuild.src_gen_project_dir Ex.echo_builder) = false) ∧
  ∃ w', LfBuild.clean Ex.echo_builder w = (inr tt, w') ∧
        path_exists (fs w) Ex.echo_dir = true ∧
        LfBuild.clean Ex.echo_builder w' = (inr tt, w').
Proof.
  intros w.
  assert (is_file (fs w) (LfBuild.fed_build_dir Ex.echo_builder) = false) as HB
    by (vm_compute; reflexivity).
  assert (is_file (fs w) (LfBuild.src_gen_project_dir Ex.echo_builder) = false) as HP
    by (vm_compute; reflexivity).
  assert (plain (LfBuild.fed_build_dir Ex.echo_builder)) as HpB
    by (split; compute_done).
  assert (plain (LfBuild.src_gen_project_dir Ex.echo_builder)) as HpP
    by (split; compute_done).
  split; [split; assumption|]. split; [split; assumption|].
  destruct (clean_twice Ex.echo_builder w HpB HpP HB HP) as (w' & H1 & H2).
  exists w'. split; [exact H1|]. split; [vm_compute; reflexivity|exact H2].
Defined.

(** X18. A regular file named like the staging directory stops [clean] at
    once, with an error that is not an [LFBuildError], and nothing is
    removed; the command still ends with status 1. *)
Theorem clean_stopped_by_regular_file (the_cwd home : Path) (exec : Exec)
    (source : Path) (remote : string) (no_ssh : bool)
    (self : LfBuild.LFBuilder) (w : World) :
  LfBuild.__init__ the_cwd home source remote no_ssh (fs w) = inr self →
  is_file (fs w) (LfBuild.fed_build_dir self) = true →
  LfBuild.clean self w =
    (inl (Exn NotADirectoryError [PathV (LfBuild.fed_build_dir self)]), w) ∧
  LfBuild.main the_cwd home exec LfBuild.Clean source remote no_ssh w = (1%Z, w).
Proof.
  intros Hinit Hf.
  assert (LfBuild.clean self w =
    (inl (Exn NotADirectoryError [PathV (LfBuild.fed_build_dir self)]), w)) as Hclean.
  { rewrite clean_unfold. apply bind_raise.
    apply is_file_true in Hf as [data Hd].
    unfold remove_if_exists. erewrite bind_ok by reflexivity.
    unfold path_exists. rewrite Hd. unfold rmtree. by rewrite Hd. }
  split; [exact Hclean|].
  unfold LfBuild.main.
  erewrite bind_ok by (unfold reading; rewrite Hinit; reflexivity).
  cbn [LfBuild.command_method]. by rewrite Hclean.
Qed.

Lemma clean_stopped_by_regular_file_witness :
  let w := mkWorld (<[Ex.ws // "Echo_build" := File "notes"]> Ex.fs_echo) [] in
  let after := LfBuild.main Ex.ws Ex.home Ex.compiler_ok LfBuild.Clean
                 ["src"; "Echo.lf"] "hailo@hailo-desktop:~/lf" false w in
  is_file (fs w) (Ex.ws // "Echo_build") = true ∧
  after.1 = 1%Z ∧ path_exists (fs after.2) Ex.echo_dir = true.
Proof.
  intros w after.
  assert (LfBuild.__init__ Ex.ws Ex.home ["src"; "Echo.lf"]
            "hailo@hailo-desktop:~/lf" false (fs w) = inr Ex.echo_builder) as Hinit
    by (vm_compute; reflexivity).
  assert (is_file (fs w) (LfBuild.fed_build_dir Ex.echo_builder) = true) as Hf
    by (vm_compute; reflexivity).
  destruct (clean_stopped_by_regular_file Ex.ws Ex.home Ex.compiler_ok
              ["src"; "Echo.lf"] "hailo@hailo-desktop:~/lf" false
              Ex.echo_builder w Hinit Hf) as [_ Hmain].
  split; [exact Hf|]. subst after. rewrite Hmain. cbn [fst snd].
  split; [reflexivity|]. vm_compute. reflexivity.
Defined.

(** ** [build] *)

Lemma init_ok_inv (the_cwd home source : Path) (remote : string) (no_ssh : bool)
    (fs : FS) (self : LfBuild.LFBuilder) :
  LfBuild.__init__ the_cwd home source remote no_ssh fs = inr self →
  LfBuild.lfc_path self = home ++ ["reactor-uc"; "lfc"; "bin"; "lfc-dev"] ∧
  LfBuild.source_file self = source ∧ LfBuild.cwd self = the_cwd ∧
  LfBuild.remote_url self = remote ∧ LfBuild.skip_ssh self = no_ssh ∧
  LfBuild.src_gen_project_dir self = the_cwd // "src-gen" // stem source ∧
  LfBuild.fed_build_dir self = the_cwd // (stem source ++ "_build").
Proof. intros ->%init_fields. by repeat split. Qed.

Lemma main_runs (the_cwd home : Path) (exec : Exec) (c : LfBuild.command)
    (source : Path) (remote : string) (no_ssh : bool) (self : LfBuild.LFBuilder)
    (w : World) :
  LfBuild.__init__ the_cwd home source remote no_ssh (fs w) = inr self →
  LfBuild.main the_cwd home exec c source remote no_ssh w =
    match LfBuild.command_method exec self c w with
    | (inr _, w') => (0%Z, w')
    | (inl _, w') => (1%Z, w')
    end.
Proof.
  intros Hinit. unfold LfBuild.main.
  erewrite bind_ok by (unfold reading; rewrite Hinit; reflexivity).
  destruct (LfBuild.command_method exec self c w) as [[[[] ?|]|] ?]; reflexivity.
Qed.

Lemma build_compiled (exec : Exec) (self : LfBuild.LFBuilder) (w : World)
    (out err : string) (fs' : FS) :
  let argv := [PathV (LfBuild.lfc_path self); PathV (LfBuild.source_file self)] in
  exec (Some (LfBuild.cwd self)) argv (fs w) = (Exited 0 out err, fs') →
  LfBuild.build exec self w =
    LfBuild._copy_federate_elfs self (mkWorld fs' (invocations w ++ [argv])).
Proof.
  intros argv Hexec. unfold LfBuild.build. fold argv.
  rewrite (bind_ok _ _ w tt (mkWorld fs' (invocations w ++ [argv]))); [reflexivity|].
  unfold try_except.
  rewrite (bind_ok _ _ w (mkCompleted (Some out) (Some err))
             (mkWorld fs' (invocations w ++ [argv]))); [reflexivity|].
  unfold subprocess_run. by rewrite Hexec.
Qed.



(** X20. A compiler that ends with status 0 without leaving the generated
    directory makes [build] raise, but only after the staging directory
    has been made: an empty [<stem>_build] stays behind. *)
Theorem build_without_generated_output (the_cwd home : Path) (exec : Exec)
    (source : Path) (remote : string) (no_ssh : bool)
    (self : LfBuild.LFBuilder) (w : World) (out err : string) (fs' : FS) :
  let lfc := home ++ ["reactor-uc"; "lfc"; "bin"; "lfc-dev"] in
  let argv := [PathV lfc; PathV source] in
  let build_dir := the_cwd // (stem source ++ "_build")%string in
  let project_dir := the_cwd // "src-gen" // stem source in
  LfBuild.__init__ the_cwd home source remote no_ssh (fs w) = inr self →
  exec (Some the_cwd) argv (fs w) = (Exited 0 out err, fs') →
  fs' !! build_dir = None → fs' !! the_cwd = Some Dir →
  path_exists fs' project_dir = false →
  LfBuild.build exec self w =
    (inl (Exn LFBuildError [Lit "Generated directory not found: ";
                            PathV project_dir; Lit ". Build may have failed."]),
     mkWorld (<[build_dir := Dir]> fs') (invocations w ++ [argv])).
Proof.
  intros lfc argv build_dir project_dir Hinit Hexec HB Hcwd HP.
  pose proof (init_ok_inv _ _ _ _ _ _ _ Hinit) as (Hl & Hs & Hc & _ & _ & HPd & HBd).
  rewrite (build_compiled exec self w out err fs')
    by (rewrite Hl, Hs, Hc; exact Hexec).
  rewrite Hl, Hs. fold lfc argv.
  rewrite copy_federate_elfs_unfold, HBd. fold build_dir.
  rewrite (bind_ok _ _ _ tt (mkWorld (<[build_dir := Dir]> fs') (invocations w ++ [argv]))).
  2: { unfold mkdir_exist_ok. cbn [fs invocations]. rewrite HB.
       unfold build_dir. by rewrite parent_child, Hcwd. }
  apply bind_raise. unfold reading, LfBuild._find_federate_elfs.
  cbn [fs]. rewrite HPd. fold project_dir.
  assert (path_exists (<[build_dir := Dir]> fs') project_dir = false) as ->; [|done].
  apply path_exists_false. rewrite lookup_insert_ne.
  - by apply path_exists_false.
  - intros H. apply (f_equal length) in H. unfold build_dir, project_dir, child in H.
    rewrite !length_app in H. simpl in H. lia.
Qed.

Lemma build_without_generated_output_witness :
  let w := mkWorld Ex.fs_src [] in
  let after := LfBuild.build Faults.compiler_silent
                 (Ex.echo_builder) w in
  after.1 = inl (Exn LFBuildError [Lit "Generated directory not found: ";
                                   PathV Ex.echo_dir;
                                   Lit ". Build may have failed."]) ∧
  fs w !! (Ex.ws // "Echo_build") = None ∧
  fs after.2 !! (Ex.ws // "Echo_build") = Some Dir.
Proof.
  intros w after.
  assert (LfBuild.__init__ Ex.ws Ex.home ["src"; "Echo.lf"]
            "hailo@hailo-desktop:~/lf" false (fs w) = inr Ex.echo_builder) as Hinit
    by (vm_compute; reflexivity).
  assert (fs w !! (Ex.ws // ("Echo" ++ "_build")%string) = None) as HB
    by (vm_compute; reflexivity).
  assert (fs w !! Ex.ws = Some Dir) as Hcwd by (vm_compute; reflexivity).
  assert (path_exists (fs w) (Ex.ws // "src-gen" // "Echo") = false) as HP
    by (vm_compute; reflexivity).
  pose proof (build_without_generated_output Ex.ws Ex.home Faults.compiler_silent
                ["src"; "Echo.lf"] "hailo@hailo-desktop:~/lf" false
                Ex.echo_builder w EmptyString EmptyString (fs w)
                Hinit eq_refl HB Hcwd HP) as Hbuild.
  subst after. rewrite Hbuild. cbn [fst snd fs].
  split; [reflexivity|]. split; [exact HB|]. apply lookup_insert_eq.
Defined.

(** X21. When the compiler succeeds and leaves federates that can be staged,
    [build] has started that one program and has copied the binary of
    every federate to [<stem>_build/<federate>.elf]; nothing else differs
    from what the compiler left. *)
Theorem build_stages_what_the_compiler_generated (exec : Exec)
    (self : LfBuild.LFBuilder) (w : World) (out err : string) (fs' : FS) :
  let argv := [PathV (LfBuild.lfc_path self); PathV (LfBuild.source_file self)] in
  let B := LfBuild.fed_build_dir self in
  let P := LfBuild.src_gen_project_dir self in
  exec (Some (LfBuild.cwd self)) argv (fs w) = (Exited 0 out err, fs') →
  can_stage self fs' →
  ∃ w', LfBuild.build exec self w = (inr tt, w') ∧
        invocations w' = invocations w ++ [argv] ∧
        (∀ d, d ∈ built_federates fs' P →
              fs w' !! (B // staged_name d) = fs' !! fixed_elf d) ∧
        (∀ q, q ≠ B → (∀ d, d ∈ built_federates fs' P → q ≠ B // staged_name d) →
              fs w' !! q = fs' !! q).
Proof.
  intros argv B P Hexec Hcan.
  rewrite (build_compiled exec self w out err fs' Hexec). fold argv.
  destruct (copy_federate_elfs_spec self (mkWorld fs' (invocations w ++ [argv])) Hcan)
    as (w' & Hcopy & Hinv & _ & Hstaged & Hframe).
  exists w'. split; [exact Hcopy|]. split; [exact Hinv|]. split; assumption.
Qed.

Lemma build_stages_what_the_compiler_generated_witness :
  let w := mkWorld Ex.fs_src [] in
  can_stage Ex.echo_builder Ex.fs_echo ∧
  ∃ w', LfBuild.build Ex.compiler_ok Ex.echo_builder w = (inr tt, w') ∧
        invocations w' = [[PathV Ex.lfc; PathV ["src"; "Echo.lf"]]] ∧
        fs w' !! (Ex.ws // "Echo_build" // "EchoClient.elf")
          = Some (File "client image").
Proof.
  intros w. pose proof echo_can_stage as Hcan. split; [exact Hcan|].
  destruct (build_stages_what_the_compiler_generated Ex.compiler_ok
              Ex.echo_builder w "generated" EmptyString Ex.fs_echo eq_refl Hcan)
    as (w' & Hbuild & Hinv & Hstaged & _).
  exists w'. split; [exact Hbuild|]. split; [exact Hinv|].
  assert (Ex.echo_dir // "EchoClient" ∈ built_federates Ex.fs_echo Ex.echo_dir) as Hd.
  { apply built_federates_elem. split; [apply entry_of_child; by eexists|].
    split; vm_compute; reflexivity. }
  etrans; [exact (Hstaged _ Hd)|]. vm_compute. reflexivity.
Defined.

(** ** [ssh] *)

Lemma ssh_unfold (exec : Exec) (self : LfBuild.LFBuilder) (w : World) :
  LfBuild.skip_ssh self = false →
  path_exists (fs w) (LfBuild.fed_build_dir self) = true →
  LfBuild.ssh exec self w =
    match glob_suffix (fs w) (LfBuild.fed_build_dir self) ".elf" with
    | [] => (inl (Exn LFBuildError [Lit "No .elf files found in ";
                                    PathV (LfBuild.fed_build_dir self)]), w)
    | elf_files => for_each elf_files (transfer exec (LfBuild.remote_url self)) w
    end.
Proof.
  intros Hskip HB. unfold LfBuild.ssh. rewrite Hskip.
  erewrite bind_ok by reflexivity. rewrite HB. cbn [negb].
  erewrite bind_ok by reflexivity.
  by destruct (glob_suffix _ _ _).
Qed.

Lemma transfer_ok (exec : Exec) (remote : string) (elf_file : Path) (w : World)
    (out err : string) (fs' : FS) :
  exec None (scp_command remote elf_file) (fs w) = (Exited 0 out err, fs') →
  transfer exec remote elf_file w =
    (inr tt, mkWorld fs' (invocations w ++ [scp_command remote elf_file])).
Proof.
  intros Hexec. unfold transfer, try_except.
  rewrite (bind_ok _ _ w (mkCompleted (Some out) (Some err))
             (mkWorld fs' (invocations w ++ [scp_command remote elf_file])));
    [reflexivity|].
  unfold subprocess_run. fold (scp_command remote elf_file). by rewrite Hexec.
Qed.

Lemma transfer_failed (exec : Exec) (remote : string) (elf_file : Path) (w : World)
    (rc : Z) (out err : string) (fs' : FS) :
  exec None (scp_command remote elf_file) (fs w) = (Exited rc out err, fs') →
  rc ≠ 0%Z →
  transfer exec remote elf_file w =
    (inl (if utf8_valid err
          then Exn LFBuildError [Lit "SCP transfer failed for ";
                                 StrV (name elf_file); Lit ":"; Lit nl; StrV err]
          else Exn UnicodeDecodeError [StrV err]),
     mkWorld fs' (invocations w ++ [scp_command remote elf_file])).
Proof.
  intros Hexec Hrc. unfold transfer, try_except.
  rewrite (bind_raise _ _ w
             (CalledProcessError rc (scp_command remote elf_file) (Some out) (Some err))
             (mkWorld fs' (invocations w ++ [scp_command remote elf_file]))).
  - unfold decode. by destruct (utf8_valid err).
  - unfold subprocess_run. fold (scp_command remote elf_file). rewrite Hexec.
    by rewrite bool_decide_eq_false_2.
Qed.

Lemma transfer_loop_ok (exec : Exec) (remote : string) (l : list Path) (w : World) :
  (∀ elf fs0, elf ∈ l →
     ∃ out err fs1, exec None (scp_command remote elf) fs0 = (Exited 0 out err, fs1)) →
  ∃ w', for_each l (transfer exec remote) w = (inr tt, w') ∧
        invocations w' = invocations w ++ (scp_command remote <$> l).
Proof.
  revert w. induction l as [|elf l IH]; intros w Hok.
  { exists w. split; [done|]. by rewrite app_nil_r. }
  destruct (Hok elf (fs w)) as (out & err & fs1 & Hexec); [left|].
  destruct (IH (mkWorld fs1 (invocations w ++ [scp_command remote elf])))
    as (w' & Hrest & Hinv).
  { intros e fs0 He. apply Hok. by right. }
  exists w'. split.
  - cbn [for_each]. erewrite bind_ok by (by eapply transfer_ok). exact Hrest.
  - rewrite Hinv. cbn [invocations fmap list_fmap]. by rewrite <- app_assoc.
Qed.

(** X22. With nothing to transfer [ssh] raises and starts no program: when
    the staging directory is missing, and when it holds no [.elf] file. *)
Theorem ssh_nothing_to_transfer (exec : Exec) (self : LfBuild.LFBuilder) (w : World) :
  let B := LfBuild.fed_build_dir self in
  LfBuild.skip_ssh self = false →
  (path_exists (fs w) B = false →
   LfBuild.ssh exec self w =
     (inl (Exn LFBuildError [Lit "Build directory not found: "; PathV B;
                             Lit ". Run 'build' first."]), w)) ∧
  (path_exists (fs w) B = true → glob_suffix (fs w) B ".elf" = [] →
   LfBuild.ssh exec self w =
     (inl (Exn LFBuildError [Lit "No .elf files found in "; PathV B]), w)).
Proof.
  intros B Hskip. split.
  - intros HB. unfold LfBuild.ssh. rewrite Hskip.
    erewrite bind_ok by reflexivity. fold B. by rewrite HB.
  - intros HB Hglob. rewrite ssh_unfold by done. fold B. by rewrite Hglob.
Qed.

Lemma ssh_nothing_to_transfer_witness :
  let w := mkWorld Ex.fs_echo [] in
  let w' := mkWorld (<[Ex.ws // "Echo_build" := Dir]> Ex.fs_echo) [] in
  LfBuild.skip_ssh Ex.echo_builder = false ∧
  (path_exists (fs w) (Ex.ws // "Echo_build") = false ∧
   LfBuild.ssh Ex.compiler_ok Ex.echo_builder w =
     (inl (Exn LFBuildError [Lit "Build directory not found: ";
                             PathV (Ex.ws // "Echo_build");
                             Lit ". Run 'build' first."]), w)) ∧
  (path_exists (fs w') (Ex.ws // "Echo_build") = true ∧
   glob_suffix (fs w') (Ex.ws // "Echo_build") ".elf" = [] ∧
   LfBuild.ssh Ex.compiler_ok Ex.echo_builder w' =
     (inl (Exn LFBuildError [Lit "No .elf files found in ";
                             PathV (Ex.ws // "Echo_build")]), w')).
Proof.
  intros w w'.
  assert (LfBuild.skip_ssh Ex.echo_builder = false) as Hskip by reflexivity.
  assert (path_exists (fs w) (Ex.ws // "Echo_build") = false) as H1
    by (vm_compute; reflexivity).
  assert (path_exists (fs w') (Ex.ws // "Echo_build") = true) as H2
    by (vm_compute; reflexivity).
  assert (glob_suffix (fs w') (Ex.ws // "Echo_build") ".elf" = []) as H3
    by (vm_compute; reflexivity).
  split; [exact Hskip|]. split.
  - split; [exact H1|].
    exact (proj1 (ssh_nothing_to_transfer Ex.compiler_ok Ex.echo_builder w Hskip) H1).
  - split; [exact H2|]. split; [exact H3|].
    exact (proj2 (ssh_nothing_to_transfer Ex.compiler_ok Ex.echo_builder w' Hskip) H2 H3).
Defined.

(** X23. When every copy succeeds, [ssh] has started one [scp] for each [.elf]
    file of the staging directory, in the order the directory lists them,
    each to the destination of the builder, and nothing else. *)
Theorem ssh_one_transfer_per_binary (exec : Exec) (self : LfBuild.LFBuilder)
    (w : World) :
  let B := LfBuild.fed_build_dir self in
  let remote := LfBuild.remote_url self in
  LfBuild.skip_ssh self = false →
  glob_suffix (fs w) B ".elf" ≠ [] →
  (∀ elf fs0, elf ∈ glob_suffix (fs w) B ".elf" →
     ∃ out err fs1, exec None (scp_command remote elf) fs0 = (Exited 0 out err, fs1)) →
  ∃ w', LfBuild.ssh exec self w = (inr tt, w') ∧
        invocations w' =
          invocations w ++ (scp_command remote <$> glob_suffix (fs w) B ".elf").
Proof.
  intros B remote Hskip Hglob Hok.
  assert (path_exists (fs w) B = true) as HB.
  { unfold glob_suffix in Hglob. destruct (is_dir (fs w) B) eqn:Hd; [|done].
    apply is_dir_true in Hd. apply path_exists_true. eauto. }
  rewrite ssh_unfold by done. fold B remote.
  destruct (transfer_loop_ok exec remote (glob_suffix (fs w) B ".elf") w Hok)
    as (w' & Hrun & Hinv).
  exists w'. split; [|exact Hinv].
  by destruct (glob_suffix (fs w) B ".elf").
Qed.

Lemma ssh_one_transfer_per_binary_witness :
  let w := mkWorld Faults.fs_staged [] in
  let B := Ex.ws // "Echo_build" in
  let remote := "hailo@hailo-desktop:~/lf" in
  glob_suffix (fs w) B ".elf" = [B // "EchoClient.elf"; B // "EchoServer.elf"] ∧
  ∃ w', LfBuild.ssh Ex.compiler_ok Ex.echo_builder w = (inr tt, w') ∧
        invocations w' = [[Lit "scp"; PathV (B // "EchoClient.elf"); StrV remote];
                          [Lit "scp"; PathV (B // "EchoServer.elf"); StrV remote]].
Proof.
  intros w B remote.
  assert (glob_suffix (fs w) B ".elf" = [B // "EchoClient.elf"; B // "EchoServer.elf"])
    as Hglob by (vm_compute; reflexivity).
  split; [exact Hglob|].
  destruct (ssh_one_transfer_per_binary Ex.compiler_ok Ex.echo_builder w)
    as (w' & Hssh & Hinv).
  - reflexivity.
  - change (glob_suffix (fs w) B ".elf" ≠ []). rewrite Hglob. discriminate.
  - intros elf fs0 _. eexists _, _, _. reflexivity.
  - exists w'. split; [exact Hssh|].
    change (invocations w' = [] ++ (scp_command remote <$> glob_suffix (fs w) B ".elf"))
      in Hinv.
    rewrite Hglob in Hinv. exact Hinv.
Defined.

(** X24. The first copy that fails ends [ssh]: the files listed before it
    have been sent, the ones after it are never tried. When what [scp]
    wrote to its error stream is well-formed UTF-8 the error is an
    [LFBuildError] that names the file and carries that text; when it is
    not, decoding it raises [UnicodeDecodeError] instead. *)
Theorem ssh_stops_at_first_failure (exec : Exec) (self : LfBuild.LFBuilder)
    (w : World) (sent : list Path) (bad : Path) (rest : list Path)
    (err : string) :
  let B := LfBuild.fed_build_dir self in
  let remote := LfBuild.remote_url self in
  LfBuild.skip_ssh self = false →
  glob_suffix (fs w) B ".elf" = sent ++ bad :: rest →
  (∀ elf fs0, elf ∈ sent →
     ∃ out err0 fs1,
       exec None (scp_command remote elf) fs0 = (Exited 0 out err0, fs1)) →
  (∀ fs0, ∃ rc out fs1,
     exec None (scp_command remote bad) fs0 = (Exited rc out err, fs1) ∧ rc ≠ 0%Z) →
  ∃ w',
    LfBuild.ssh exec self w =
      (inl (if utf8_valid err
            then Exn LFBuildError [Lit "SCP transfer failed for "; StrV (name bad);
                                   Lit ":"; Lit nl; StrV err]
            else Exn UnicodeDecodeError [StrV err]), w') ∧
    invocations w' =
      invocations w ++ (scp_command remote <$> sent) ++ [scp_command remote bad].
Proof.
  intros B remote Hskip Hglob Hok Hbad.
  assert (path_exists (fs w) B = true) as HB.
  { unfold glob_suffix in Hglob. destruct (is_dir (fs w) B) eqn:Hd.
    - apply is_dir_true in Hd. apply path_exists_true. eauto.
    - by destruct sent. }
  rewrite ssh_unfold by done. fold B remote. rewrite Hglob.
  assert (∃ w',
    for_each (sent ++ bad :: rest) (transfer exec remote) w =
      (inl (if utf8_valid err
            then Exn LFBuildError [Lit "SCP transfer failed for "; StrV (name bad);
                                   Lit ":"; Lit nl; StrV err]
            else Exn UnicodeDecodeError [StrV err]), w') ∧
    invocations w' =
      invocations w ++ (scp_command remote <$> sent) ++ [scp_command remote bad])
    as (w' & Hrun & Hinv).
  { clear Hglob HB. revert w. induction sent as [|elf sent IH]; intros w.
    - destruct (Hbad (fs w)) as (rc & out & fs1 & Hexec & Hrc).
      exists (mkWorld fs1 (invocations w ++ [scp_command remote bad])).
      split; [|done]. cbn [app for_each].
      apply bind_raise. by eapply transfer_failed.
    - destruct (Hok elf (fs w)) as (out & err0 & fs1 & Hexec); [left|].
      destruct IH with (w := mkWorld fs1 (invocations w ++ [scp_command remote elf]))
        as (w' & Hrun & Hinv).
      { intros e fs0 He. apply Hok. by right. }
      exists w'. split.
      + cbn [app for_each]. erewrite bind_ok by (by eapply transfer_ok). exact Hrun.
      + rewrite Hinv. cbn [invocations fmap list_fmap]. by rewrite <- !app_assoc. }
  exists w'. split; [|exact Hinv].
  rewrite <- Hrun. by destruct sent.
Qed.

Lemma ssh_stops_at_first_failure_witness :
  let w := mkWorld Faults.fs_staged [] in
  let B := Ex.ws // "Echo_build" in
  let remote := "hailo@hailo-desktop:~/lf" in
  let garbled := String (ascii_of_nat 255) "lost" in
  glob_suffix (fs w) B ".elf" = [B // "EchoClient.elf"] ++ (B // "EchoServer.elf") :: [] ∧
  (∃ w',
     LfBuild.ssh (Faults.scp_fails_on "EchoServer.elf" "lost connection")
       Ex.echo_builder w =
       (inl (Exn LFBuildError [Lit "SCP transfer failed for "; StrV "EchoServer.elf";
                               Lit ":"; Lit nl; StrV "lost connection"]), w') ∧
     invocations w' = [[Lit "scp"; PathV (B // "EchoClient.elf"); StrV remote];
                       [Lit "scp"; PathV (B // "EchoServer.elf"); StrV remote]]) ∧
  (∃ w',
     LfBuild.ssh (Faults.scp_fails_on "EchoClient.elf" garbled) Ex.echo_builder w =
       (inl (Exn UnicodeDecodeError [StrV garbled]), w') ∧
     invocations w' = [[Lit "scp"; PathV (B // "EchoClient.elf"); StrV remote]]).
Proof.
  intros w B remote garbled.
  assert (glob_suffix (fs w) B ".elf"
          = [B // "EchoClient.elf"] ++ (B // "EchoServer.elf") :: []) as Hglob
    by (vm_compute; reflexivity).
  split; [exact Hglob|]. split.
  - destruct (ssh_stops_at_first_failure
                (Faults.scp_fails_on "EchoServer.elf" "lost connection")
                Ex.echo_builder w
                [B // "EchoClient.elf"] (B // "EchoServer.elf") [] "lost connection")
      as (w' & Hssh & Hinv).
    + reflexivity.
    + exact Hglob.
    + intros elf fs0 ->%list_elem_of_singleton. eexists _, _, _. reflexivity.
    + intros fs0. eexists _, _, _. split; [reflexivity|discriminate].
    + exists w'. split; [exact Hssh|exact Hinv].
  - destruct (ssh_stops_at_first_failure
                (Faults.scp_fails_on "EchoClient.elf" garbled)
                Ex.echo_builder w
                [] (B // "EchoClient.elf") [B // "EchoServer.elf"] garbled)
      as (w' & Hssh & Hinv).
    + reflexivity.
    + exact Hglob.
    + intros elf fs0 Hin. exfalso. exact (not_elem_of_nil _ Hin).
    + intros fs0. eexists _, _, _. split; [reflexivity|discriminate].
    + exists w'. split; [exact Hssh|exact Hinv].
Defined.

(** ** [_copy_federate_elfs] and what [ssh] finds afterwards *)

Lemma copy_federate_elfs_only_adds (self : LfBuild.LFBuilder) (w : World) :
  only_adds w (LfBuild._copy_federate_elfs self w).2.
Proof.
  rewrite copy_federate_elfs_unfold.
  apply only_adds_bind; [apply only_adds_mkdir_exist_ok|]. intros _ w1.
  apply only_adds_bind; [apply only_adds_refl|]. intros l w2.
  apply only_adds_for_each. intros [nm elf] w3. unfold stage_one.
  apply only_adds_bind; [apply only_adds_copy2|]. intros _ w4.
  apply only_adds_refl.
Qed.

(** X25. Staging starts no process, removes no entry and replaces no
    directory, whether it succeeds or raises: binaries staged by an
    earlier build stay in the staging directory. *)
Theorem copy_federate_elfs_keeps_entries (self : LfBuild.LFBuilder) (w : World) :
  let after := (LfBuild._copy_federate_elfs self w).2 in
  invocations after = invocations w ∧
  (∀ q, fs w !! q = Some Dir → fs after !! q = Some Dir) ∧
  (∀ q, is_Some (fs w !! q) → is_Some (fs after !! q)).
Proof.
  rewrite copy_federate_elfs_unfold.
  apply only_adds_bind; [apply only_adds_mkdir_exist_ok|]. intros _ w1.
  apply only_adds_bind; [apply only_adds_refl|]. intros l w2.
  apply only_adds_for_each. intros [nm elf] w3. unfold stage_one.
  apply only_adds_bind; [apply only_adds_copy2|]. intros _ w4.
  apply only_adds_refl.
Qed.

Lemma endswith_app (s suf : string) : endswith suf (s ++ suf)%string = true.
Proof.
  induction s as [|c s IH].
  - change (EmptyString ++ suf)%string with suf.
    destruct suf; cbn [endswith]; by rewrite bool_decide_eq_true_2.
  - change (String c s ++ suf)%string with (String c (s ++ suf)%string).
    cbn [endswith]. rewrite IH. apply orb_true_r.
Qed.

Lemma elem_of_glob_suffix (fs : FS) (d : Path) (suf : string) (q : Path) :
  q ∈ glob_suffix fs d suf ↔
    fs !! d = Some Dir ∧ is_Some (fs !! q) ∧ entry_of d q ∧
    endswith suf (name q) = true.
Proof.
  unfold glob_suffix. destruct (is_dir fs d) eqn:Hd.
  - apply is_dir_true in Hd. rewrite list_elem_of_filter, elem_of_keys. naive_solver.
  - split; [by intros ?%not_elem_of_nil|].
    intros [Hd' _]. apply is_dir_true in Hd'. congruence.
Qed.

(** X26. What [_copy_federate_elfs] has staged, [ssh] finds: after a
    successful staging the [*.elf] listing of the staging directory holds
    the binary of every built federate. *)
Theorem staged_binaries_are_listed (self : LfBuild.LFBuilder) (w w' : World)
    (d : Path) :
  let B := LfBuild.fed_build_dir self in
  let P := LfBuild.src_gen_project_dir self in
  can_stage self (fs w) →
  LfBuild._copy_federate_elfs self w = (inr tt, w') →
  d ∈ built_federates (fs w) P →
  B // staged_name d ∈ glob_suffix (fs w') B ".elf".
Proof.
  intros B P Hcan Hcopy Hd.
  destruct (copy_federate_elfs_spec self w Hcan) as (w'' & Hcopy' & _ & HB & Hstaged & _).
  rewrite Hcopy in Hcopy'. injection Hcopy' as <-.
  apply elem_of_glob_suffix. split; [exact HB|]. split.
  - fold B P in Hstaged. rewrite (Hstaged d Hd).
    destruct Hcan as (_ & _ & _ & Hfiles & _).
    destruct (Hfiles d Hd) as [[data Hf]%is_file_true _]. eauto.
  - split; [apply entry_of_child; by eexists|].
    rewrite name_child. apply endswith_app.
Qed.

Lemma staged_binaries_are_listed_witness :
  let w := mkWorld Ex.fs_echo [] in
  let B := Ex.ws // "Echo_build" in
  can_stage Ex.echo_builder (fs w) ∧
  ∃ w', LfBuild._copy_federate_elfs Ex.echo_builder w = (inr tt, w') ∧
        B // "EchoServer.elf" ∈ glob_suffix (fs w') B ".elf".
Proof.
  intros w B. pose proof echo_can_stage as Hcan. split; [exact Hcan|].
  destruct (copy_federate_elfs_spec Ex.echo_builder w Hcan) as (w' & Hcopy & _).
  exists w'. split; [exact Hcopy|].
  assert (Ex.echo_dir // "EchoServer" ∈ built_federates Ex.fs_echo Ex.echo_dir) as Hd.
  { apply built_federates_elem. split; [apply entry_of_child; by eexists|].
    split; vm_compute; reflexivity. }
  exact (staged_binaries_are_listed Ex.echo_builder w w'
           (Ex.echo_dir // "EchoServer") Hcan Hcopy Hd).
Defined.

(** ** A whole run of [lf-build.py] *)

Lemma main_ok_inv (the_cwd home : Path) (exec : Exec) (c : LfBuild.command)
    (source : Path) (remote : string) (no_ssh : bool) (w : World) :
  (LfBuild.main the_cwd home exec c source remote no_ssh w).1 = 0%Z →
  ∃ self,
    LfBuild.__init__ the_cwd home source remote no_ssh (fs w) = inr self ∧
    LfBuild.command_method exec self c w =
      (inr tt, (LfBuild.main the_cwd home exec c source remote no_ssh w).2).
Proof.
  destruct (LfBuild.__init__ the_cwd home source remote no_ssh (fs w))
    as [e|self] eqn:Hinit.
  { unfold LfBuild.main.
    erewrite bind_raise by (unfold reading; rewrite Hinit; reflexivity).
    by destruct e as [[] ?|]. }
  rewrite (main_runs _ _ _ _ _ _ _ self) by exact Hinit.
  destruct (LfBuild.command_method exec self c w) as [[[[] ?|]|[]] w'] eqn:Hcm;
    try done.
  intros _. exists self. split; [reflexivity|exact Hcm].
Qed.

Lemma clean_invocations (self : LfBuild.LFBuilder) (w : World) :
  invocations (LfBuild.clean self w).2 = invocations w.
Proof.
  rewrite clean_unfold.
  assert (only_removes w
            ((remove_if_exists (LfBuild.fed_build_dir self) ;;
              remove_if_exists (LfBuild.src_gen_project_dir self) ;; mret tt) w).2)
    as [H _]; [|exact H].
  apply only_removes_bind; [apply only_removes_remove_if_exists|]. intros _ w1.
  apply only_removes_bind; [apply only_removes_remove_if_exists|]. intros _ w2.
  apply only_removes_refl.
Qed.

Lemma build_inv_ok (exec : Exec) (self : LfBuild.LFBuilder) (w : World) u w' :
  LfBuild.build exec self w = (inr u, w') →
  invocations w' =
    invocations w ++ [[PathV (LfBuild.lfc_path self); PathV (LfBuild.source_file self)]].
Proof.
  unfold LfBuild.build. intros (u1 & w1 & Htry & Hcopy)%bind_inv_ok.
  pose proof (copy_federate_elfs_only_adds self w1) as [Hinv _].
  rewrite Hcopy in Hinv. cbn [snd] in Hinv. rewrite Hinv.
  unfold try_except in Htry.
  pose proof (subprocess_run_invocations exec
    [PathV (LfBuild.lfc_path self); PathV (LfBuild.source_file self)]
    (Some (LfBuild.cwd self)) true w) as Hrun.
  unfold mbind, M_bind, bind in Htry.
  destruct (subprocess_run exec _ _ true w) as [[e|r] w0]; cbn [snd] in Hrun.
  - by destruct e as [[] ?|].
  - by injection Htry as _ <-.
Qed.

Lemma transfer_invocations (exec : Exec) (remote : string) (elf_file : Path)
    (w : World) :
  invocations (transfer exec remote elf_file w).2 =
    invocations w ++ [scp_command remote elf_file].
Proof.
  unfold transfer, try_except, mbind, M_bind, bind.
  pose proof (subprocess_run_invocations exec (scp_command remote elf_file)
                None true w) as Hrun.
  unfold scp_command in Hrun at 1.
  destruct (subprocess_run exec _ None true w) as [[e|r] w0]; cbn [snd] in Hrun.
  - destruct e as [[] ?|? ? ? [b|]]; try done.
    unfold decode. by destruct (utf8_valid b).
  - done.
Qed.

Lemma transfer_loop_inv_ok (exec : Exec) (remote : string) (l : list Path)
    (w : World) u w' :
  for_each l (transfer exec remote) w = (inr u, w') →
  invocations w' = invocations w ++ (scp_command remote <$> l).
Proof.
  revert w. induction l as [|elf l IH]; intros w.
  { intros [= _ <-]. by rewrite app_nil_r. }
  cbn [for_each]. intros (u1 & w1 & Hone & Hrest)%bind_inv_ok.
  pose proof (transfer_invocations exec remote elf w) as Hinv.
  rewrite Hone in Hinv. cbn [snd] in Hinv.
  rewrite (IH _ Hrest), Hinv. cbn [fmap list_fmap]. by rewrite <- app_assoc.
Qed.

Lemma ssh_inv_ok (exec : Exec) (self : LfBuild.LFBuilder) (w : World) u w' :
  LfBuild.ssh exec self w = (inr u, w') →
  invocations w' =
    invocations w ++
      (if LfBuild.skip_ssh self then []
       else scp_command (LfBuild.remote_url self) <$>
              glob_suffix (fs w) (LfBuild.fed_build_dir self) ".elf").
Proof.
  destruct (LfBuild.skip_ssh self) eqn:Hskip.
  { rewrite ssh_skipped by done. intros [= _ <-]. by rewrite app_nil_r. }
  destruct (path_exists (fs w) (LfBuild.fed_build_dir self)) eqn:HB.
  - rewrite ssh_unfold by done.
    destruct (glob_suffix (fs w) (LfBuild.fed_build_dir self) ".elf") as [|e l];
      [done|].
    apply transfer_loop_inv_ok.
  - unfold LfBuild.ssh. rewrite Hskip. erewrite bind_ok by reflexivity.
    by rewrite HB.
Qed.

(** X27. What a run that ends with status 0 has started, command by command:
    [clean] nothing; [build] the compiler on the source file; [ssh] one
    [scp] for each [.elf] file of the staging directory; [all] the
    compiler and then one [scp] for each [.elf] file of the staging
    directory. With [--no-ssh] no [scp] is ever started. *)
Theorem lf_main_success_invocations (the_cwd home : Path) (exec : Exec)
    (c : LfBuild.command) (source : Path) (remote : string) (no_ssh : bool)
    (w : World) :
  let lfc := home ++ ["reactor-uc"; "lfc"; "bin"; "lfc-dev"] in
  let B := the_cwd // (stem source ++ "_build")%string in
  let after := LfBuild.main the_cwd home exec c source remote no_ssh w in
  let copies (elfs : list Path) :=
    if no_ssh then [] else scp_command remote <$> elfs in
  after.1 = 0%Z →
  match c with
  | LfBuild.Clean => invocations after.2 = invocations w
  | LfBuild.Build =>
      invocations after.2 = invocations w ++ [[PathV lfc; PathV source]]
  | LfBuild.Ssh =>
      invocations after.2 =
        invocations w ++ copies (glob_suffix (fs w) B ".elf")
  | LfBuild.All =>
      ∃ elfs,
        invocations after.2 =
          invocations w ++ [[PathV lfc; PathV source]] ++ copies elfs ∧
        Forall (λ e, entry_of B e ∧ endswith ".elf" (name e) = true) elfs
  end.
Proof.
  intros lfc B after copies (self & Hinit & Hrun)%main_ok_inv.
  fold after in Hrun.
  pose proof (init_ok_inv _ _ _ _ _ _ _ Hinit) as (Hl & Hs & _ & Hr & Hk & _ & HB).
  destruct c; cbn [LfBuild.command_method] in Hrun.
  - unfold LfBuild.all in Hrun.
    apply bind_inv_ok in Hrun as (u1 & w1 & Hclean & Hrun).
    apply bind_inv_ok in Hrun as (u2 & w2 & Hbuild & Hssh).
    pose proof (clean_invocations self w) as Hi1. rewrite Hclean in Hi1.
    cbn [snd] in Hi1.
    apply build_inv_ok in Hbuild. apply ssh_inv_ok in Hssh.
    rewrite Hl, Hs, Hi1 in Hbuild. rewrite Hk, Hr, HB in Hssh. fold lfc B in Hbuild, Hssh.
    exists (glob_suffix (fs w2) B ".elf"). split.
    + rewrite Hssh, Hbuild. unfold copies. by rewrite <- app_assoc.
    + apply Forall_forall. intros e He.
      apply elem_of_glob_suffix in He as (_ & _ & ? & ?). done.
  - pose proof (clean_invocations self w) as Hi. by rewrite Hrun in Hi.
  - apply build_inv_ok in Hrun. by rewrite Hl, Hs in Hrun.
  - apply ssh_inv_ok in Hrun. by rewrite Hk, Hr, HB in Hrun.
Qed.

Lemma lf_main_success_invocations_witness :
  let w := mkWorld Ex.fs_src [] in
  let B := Ex.ws // "Echo_build" in
  let remote := "hailo@hailo-desktop:~/lf" in
  let after := LfBuild.main Ex.ws Ex.home Ex.compiler_ok LfBuild.All
                 ["src"; "Echo.lf"] remote false w in
  after.1 = 0%Z ∧
  ∃ elfs,
    invocations after.2 =
      [[PathV Ex.lfc; PathV ["src"; "Echo.lf"]]] ++ (scp_command remote <$> elfs) ∧
    Forall (λ e, entry_of B e ∧ endswith ".elf" (name e) = true) elfs.
Proof.
  intros w B remote after.
  assert (after.1 = 0%Z) as H0 by (vm_compute; reflexivity).
  split; [exact H0|].
  exact (lf_main_success_invocations Ex.ws Ex.home Ex.compiler_ok LfBuild.All
           ["src"; "Echo.lf"] remote false w H0).
Defined.
